(** * Netzeal real-time connection manager

    A shallow embedding of the presence / room / typing bookkeeping of the
    chat backend:
    - [WebSocketConnectionManager] of [backend/app/core/websocket_manager.py],
    - the event loop of [backend/app/routers/websocket.py] that drives it,
    - the sibling [ChatConnectionManager] of [backend/app/utils/chat_manager.py],
    with the properties of the bookkeeping stated and proved on the embedding.

    Conventions of the embedding:
    - Python dicts are [gmap]s and Python sets are [gset]s.  Where the code
      iterates a container the model iterates [map_to_list] / [elements];
      the statements below never depend on the order of iteration.
    - Every coroutine is run to completion (no interleaving between two
      coroutines), with the awaited transport calls answered by a
      [Transport] oracle: within one call a socket gives the same answer to
      the same frame.
    - [datetime.utcnow()] is the explicit parameter [now] (microseconds);
      all clock reads of one call see the same instant.
    - Python exceptions are the [Raised] outcome and keep the mutations made
      before the raise.  Mutating a set or dict while a [for] loop walks it
      raises [RuntimeError] at the loop's next step, as CPython does.
    - [disconnect], the presence broadcast and the sends call each other;
      the recursion is cut by a [fuel] that bounds how deep disconnects
      nest.  More fuel than there are users holding connections is always
      enough ([disconnect_returns]). *)

From stdpp Require Import gmap strings list fin_maps fin_sets.
From Stdlib Require Import ZArith Lia DecimalString DecimalZ.

Local Open Scope Z_scope.

(** ** Data model *)

(** A [WebSocket] object is known by its identity only. *)
Abbreviation WebSocket := nat.

(** The JSON frames the manager builds itself, and [Payload] for a
    caller-supplied dict. *)
Inductive Message : Type :=
| ConnectionSuccess (connection_id : string) (user_id : Z) (connected_at : Z)
| Typing (room_id : string) (user_id : Z) (is_typing : bool) (timestamp : Z)
| PresenceUpdate (user_id : Z) (is_online : bool) (last_seen : Z)
| Pong (timestamp : Z)
| NewMessage (conversation_id : Z) (sender_id : Z) (content : string)
             (created_at : Z)
| RoomJoined (room_id : Z)
| RoomLeft (room_id : Z)
| MessageSent (conversation_id : Z)
| ErrorFrame (code : string)
| Payload (body : string).

Global Instance Message_eq_dec : EqDecision Message.
Proof. solve_decision. Defined.

(** What the transport answers: whether [websocket.accept()] completes and
    whether [websocket.send_json(message)] completes (otherwise it raises). *)
Record TransportOf (Msg : Type) : Type := mkTransport {
  accept_ok : WebSocket → bool;
  send_ok : WebSocket → Msg → bool
}.
Arguments mkTransport {Msg} _ _.
Arguments accept_ok {Msg} _ _.
Arguments send_ok {Msg} _ _ _.

Abbreviation Transport := (TransportOf Message).

(** [connection_meta[connection_id]] *)
Record ConnMeta : Type := mkConnMeta {
  meta_user_id : Z;
  meta_connected_at : Z;
  meta_device_info : list (string * string);
  meta_last_activity : Z
}.

(** [presence[user_id]] *)
Record PresenceRec : Type := mkPresence {
  is_online : bool;
  last_seen : Z;
  connection_count : nat
}.

(** The six dicts of [WebSocketConnectionManager.__init__]. *)
Record Manager : Type := mkManager {
  connections : gmap Z (gmap string WebSocket);
  rooms : gmap string (gset Z);
  typing_status : gmap string (gmap Z Z);
  presence : gmap Z PresenceRec;
  heartbeats : gmap string Z;
  connection_meta : gmap string ConnMeta
}.

(** The manager together with the frames the transport has accepted so far
    (oldest first). *)
Record World : Type := mkWorld {
  mgr : Manager;
  outbox : list (WebSocket * Message)
}.

Definition empty_manager : Manager :=
  mkManager ∅ ∅ ∅ ∅ ∅ ∅.

Definition initial_world : World := mkWorld empty_manager [].

Definition with_connections (f : gmap Z (gmap string WebSocket) → gmap Z (gmap string WebSocket))
    (m : Manager) : Manager :=
  mkManager (f (connections m)) (rooms m) (typing_status m) (presence m)
            (heartbeats m) (connection_meta m).

Definition with_rooms (f : gmap string (gset Z) → gmap string (gset Z))
    (m : Manager) : Manager :=
  mkManager (connections m) (f (rooms m)) (typing_status m) (presence m)
            (heartbeats m) (connection_meta m).

Definition with_typing_status (f : gmap string (gmap Z Z) → gmap string (gmap Z Z))
    (m : Manager) : Manager :=
  mkManager (connections m) (rooms m) (f (typing_status m)) (presence m)
            (heartbeats m) (connection_meta m).

Definition with_presence (f : gmap Z PresenceRec → gmap Z PresenceRec)
    (m : Manager) : Manager :=
  mkManager (connections m) (rooms m) (typing_status m) (f (presence m))
            (heartbeats m) (connection_meta m).

Definition with_heartbeats (f : gmap string Z → gmap string Z)
    (m : Manager) : Manager :=
  mkManager (connections m) (rooms m) (typing_status m) (presence m)
            (f (heartbeats m)) (connection_meta m).

Definition with_connection_meta (f : gmap string ConnMeta → gmap string ConnMeta)
    (m : Manager) : Manager :=
  mkManager (connections m) (rooms m) (typing_status m) (presence m)
            (heartbeats m) (f (connection_meta m)).

(** ** Exceptions and the state monad of the coroutines *)

Inductive Exn : Type :=
| RuntimeError     (* "Set changed size during iteration" *)
| KeyError         (* a dict indexed with a key it does not hold *)
| TransportError.  (* WebSocketDisconnect or any other failure of the socket *)

(** The outcome of running a coroutine on a state of type [S]. *)
Inductive Outcome (S A : Type) : Type :=
| Ok (a : A) (s : S)
| Raised (e : Exn) (s : S)
| OutOfFuel.
Arguments Ok {S A} a s.
Arguments Raised {S A} e s.
Arguments OutOfFuel {S A}.

Definition Coroutine (S A : Type) : Type := S → Outcome S A.

Global Instance Coroutine_ret {S} : MRet (Coroutine S) := λ A a s, Ok a s.
Global Instance Coroutine_bind {S} : MBind (Coroutine S) := λ A B f m s,
  match m s with
  | Ok a s' => f a s'
  | Raised e s' => Raised e s'
  | OutOfFuel => OutOfFuel
  end.

(** [try: body except Exception: handler] *)
Definition try_except {S A} (body : Coroutine S A) (handler : Exn → Coroutine S A) :
    Coroutine S A := λ s,
  match body s with
  | Ok a s' => Ok a s'
  | Raised e s' => handler e s'
  | OutOfFuel => OutOfFuel
  end.

Definition out_of_fuel {S A} : Coroutine S A := λ _, OutOfFuel.

Definition raise {S A} (e : Exn) : Coroutine S A := λ s, Raised e s.

(** [for x in xs: body(x)] over a snapshot list. *)
Fixpoint for_each {S X} (body : X → Coroutine S unit) (xs : list X) : Coroutine S unit :=
  match xs with
  | [] => mret tt
  | x :: xs' => body x ;; for_each body xs'
  end.

(** A loop that threads an accumulator. *)
Fixpoint fold_each {S X B} (body : B → X → Coroutine S B) (acc : B) (xs : list X) :
    Coroutine S B :=
  match xs with
  | [] => mret acc
  | x :: xs' => acc' ← body acc x; fold_each body acc' xs'
  end.

(** [for x in c: body(x)] over a live set or dict: every step of the
    iterator, the one that finds the container exhausted included, first
    compares the container's size with the size it had when the loop
    started ([intact]). *)
Fixpoint for_live {S X} (intact : S → bool) (body : X → Coroutine S unit)
    (pending : list X) : Coroutine S unit := λ s,
  if intact s then
    match pending with
    | [] => Ok tt s
    | x :: rest => (body x ;; for_live intact body rest) s
    end
  else Raised RuntimeError s.

(** The world a coroutine leaves behind, whether it returned or raised. *)
Definition final_world {S A} (o : Outcome S A) : option S :=
  match o with
  | Ok _ s | Raised _ s => Some s
  | OutOfFuel => None
  end.

(** The coroutines of [WebSocketConnectionManager] run on a [World]. *)
Abbreviation M := (Coroutine World).

Definition get_mgr : M Manager := λ w, Ok (mgr w) w.
Definition modify_mgr (f : Manager → Manager) : M unit := λ w,
  Ok tt (mkWorld (f (mgr w)) (outbox w)).

(** ** Invariant reasoning for coroutines

    [preserves oof I m]: started in a world satisfying [I], the coroutine
    [m] ends (normally or by an exception) in a world satisfying [I]; [oof]
    is what is claimed when the fuel runs out ([True] for statements about
    the worlds that are produced, [False] for statements that a world is
    produced). *)

Definition preserves {S A} (oof : Prop) (I : S → Prop) (m : Coroutine S A) : Prop :=
  ∀ s, I s →
    match m s with
    | Ok _ s' | Raised _ s' => I s'
    | OutOfFuel => oof
    end.

(** The coroutine lets no exception escape. *)
Definition never_raises {S A} (m : Coroutine S A) : Prop :=
  ∀ s e s', m s ≠ Raised e s'.

(** Run a coroutine and keep the state it leaves. *)
Definition after {S A} (c : Coroutine S A) (s : S) : S :=
  match c s with
  | Ok _ s' | Raised _ s' => s'
  | OutOfFuel => s
  end.

(** ** [WebSocketConnectionManager] (core/websocket_manager.py) *)

Module WebSocketConnectionManager.

Definition typing_ttl : Z := 5000000.        (* timedelta(seconds=5)  *)
Definition stale_threshold : Z := 60000000.  (* timedelta(seconds=60) *)

(** [exclude_user_id and user_id == exclude_user_id], with Python's
    truthiness of an [Optional[int]]: [None] and [0] are both false. *)
Definition excluded (exclude_user_id : option Z) (user_id : Z) : bool :=
  match exclude_user_id with
  | Some e => negb (e =? 0) && (user_id =? e)
  | None => false
  end.

(** One turn of the loop that ends [disconnect] (lines 122-128). *)
Definition leave_if_offline (user_id : Z) (m : Manager) (room_id : string) : Manager :=
  match rooms m !! room_id with
  | Some members =>
      if decide (user_id ∈ members) then
        if decide (is_Some (connections m !! user_id)) then m
        else
          let members' := members ∖ {[user_id]} in
          if decide (members' = ∅) then with_rooms (delete room_id) m
          else with_rooms <[room_id := members']> m
      else m
  | None => m
  end.

Definition remove_from_rooms (user_id : Z) (m : Manager) : Manager :=
  foldl (leave_if_offline user_id) m (map_to_list (rooms m)).*1.

(** [self.connection_meta[connection_id]["last_activity"] = utcnow()],
    guarded by [connection_id in self.connection_meta]. *)
Definition touch_activity (now : Z) (connection_id : string) (m : Manager) : Manager :=
  with_connection_meta
    (alter (λ cm, mkConnMeta (meta_user_id cm) (meta_connected_at cm)
                             (meta_device_info cm) now) connection_id) m.

Definition _update_presence (now : Z) (user_id : Z) (online : bool) (m : Manager) : Manager :=
  with_presence
    <[user_id := mkPresence online now (size (default ∅ (connections m !! user_id)))]> m.

(** The [uid for uid, expiry in ... if now > expiry] comprehension. *)
Definition expired_users (now : Z) (typing : gmap Z Z) : list Z :=
  (filter (λ p : Z * Z, p.2 < now) (map_to_list typing)).*1.

(** The connection ids whose last ping is older than the threshold. *)
Definition stale_connections (now : Z) (hb : gmap string Z) : list string :=
  (filter (λ p : string * Z, stale_threshold < now - p.2) (map_to_list hb)).*1.

(** [room_id for room_id, members in self.rooms.items() if user_id in members] *)
Definition rooms_of (user_id : Z) (rs : gmap string (gset Z)) : list string :=
  (filter (λ p : string * gset Z, user_id ∈ p.2) (map_to_list rs)).*1.

(** Lines 59-75 of [connect]: the bookkeeping between [accept()] and the
    first frame. *)
Definition register_connection (now : Z) (websocket : WebSocket) (user_id : Z)
    (connection_id : string) (device_info : option (list (string * string)))
    (m : Manager) : Manager :=
  _update_presence now user_id true
    (with_heartbeats <[connection_id := now]>
      (with_connection_meta
         <[connection_id := mkConnMeta user_id now (default [] device_info) now]>
         (with_connections
            (λ cs, <[user_id := <[connection_id := websocket]>
                                  (default ∅ (cs !! user_id))]> cs) m))).

(** [join_room] and [leave_room] on the [rooms] dict. *)
Definition add_member (room_id : string) (user_id : Z)
    (rs : gmap string (gset Z)) : gmap string (gset Z) :=
  <[room_id := default ∅ (rs !! room_id) ∪ {[user_id]}]> rs.

Definition remove_member (room_id : string) (user_id : Z)
    (rs : gmap string (gset Z)) : gmap string (gset Z) :=
  match rs !! room_id with
  | Some members =>
      let members' := members ∖ {[user_id]} in
      if decide (members' = ∅) then delete room_id rs
      else <[room_id := members']> rs
  | None => rs
  end.

(** The two branches of [handle_typing] on the [typing_status] dict. *)
Definition set_typing_flag (now : Z) (room_id : string) (user_id : Z) (typing : bool)
    (ts : gmap string (gmap Z Z)) : gmap string (gmap Z Z) :=
  if typing then
    <[room_id := <[user_id := now + typing_ttl]> (default ∅ (ts !! room_id))]> ts
  else
    match ts !! room_id with
    | Some t => <[room_id := delete user_id t]> ts
    | None => ts
    end.

(** Lines 252-253 of [handle_heartbeat]. *)
Definition touch_heartbeat (now : Z) (connection_id : string) (m : Manager) : Manager :=
  touch_activity now connection_id (with_heartbeats <[connection_id := now]> m).

(** [del self.typing_status[room_id][uid]] *)
Definition expire_typing (room_id : string) (uid : Z) (m : Manager) : Manager :=
  with_typing_status (alter (delete uid) room_id) m.

Section Operations.
Context (tr : Transport) (now : Z).

Definition send_json (websocket : WebSocket) (message : Message) : M unit := λ w,
  if send_ok tr websocket message
  then Ok tt (mkWorld (mgr w) (outbox w ++ [(websocket, message)]))
  else Raised TransportError w.

(** The coroutines call each other in a cycle ([disconnect] broadcasts the
    presence change, which sends, which disconnects dead sockets).  The
    cycle is cut at [disconnect]. *)
Section Open.
Variable disconnect_rec : string → Z → M unit.

(** The body of the first loop of [send_to_user]: the accumulator is
    [(dead_connections, success_count)]. *)
Definition send_one (message : Message) (acc : list string * nat)
    (item : string * WebSocket) : M (list string * nat) :=
  try_except
    (send_json item.2 message ;;
     modify_mgr (touch_activity now item.1) ;;
     mret (acc.1, S acc.2))
    (λ _, mret (acc.1 ++ [item.1], acc.2)).

Definition send_to_user_open (user_id : Z) (message : Message) : M bool :=
  m ← get_mgr;
  match connections m !! user_id with
  | None => mret false
  | Some conns =>
      acc ← fold_each (send_one message) ([], 0%nat) (map_to_list conns);
      for_each (λ conn_id, disconnect_rec conn_id user_id) acc.1 ;;
      mret (bool_decide (0 < acc.2)%nat)
  end.

Definition broadcast_to_room_open (room_id : string) (message : Message)
    (exclude_user_id : option Z) : M unit :=
  m ← get_mgr;
  match rooms m !! room_id with
  | None => mret tt
  | Some members =>
      for_live
        (λ w', bool_decide (size (default ∅ (rooms (mgr w') !! room_id)) = size members))
        (λ user_id,
           if excluded exclude_user_id user_id then mret tt
           else send_to_user_open user_id message ;; mret tt)
        (elements members)
  end.

Definition _broadcast_presence_update_open (user_id : Z) (online : bool) : M unit :=
  m ← get_mgr;
  for_each
    (λ room_id,
       broadcast_to_room_open room_id (PresenceUpdate user_id online now)
                              (Some user_id))
    (rooms_of user_id (rooms m)).

(** Lines 107-115 of [disconnect]. *)
Definition unregister_connection (connection_id : string) (user_id : Z) : M unit :=
  m ← get_mgr;
  match connections m !! user_id with
  | Some conns =>
      if decide (is_Some (conns !! connection_id)) then
        let conns' := delete connection_id conns in
        if decide (conns' = ∅) then
          modify_mgr (λ m, _update_presence now user_id false
                             (with_connections (delete user_id) m)) ;;
          _broadcast_presence_update_open user_id false
        else modify_mgr (with_connections <[user_id := conns']>)
      else mret tt
  | None => mret tt
  end.

(** The [try] block of [disconnect]. *)
Definition disconnect_try (connection_id : string) (user_id : Z) : M unit :=
  unregister_connection connection_id user_id ;;
  modify_mgr (with_connection_meta (delete connection_id)) ;;
  modify_mgr (with_heartbeats (delete connection_id)) ;;
  modify_mgr (remove_from_rooms user_id).

Definition disconnect_body (connection_id : string) (user_id : Z) : M unit :=
  try_except (disconnect_try connection_id user_id) (λ _, mret tt).
End Open.

(** [fuel] bounds how deep disconnects nest. *)
Fixpoint disconnect (fuel : nat) : string → Z → M unit :=
  match fuel with
  | O => λ _ _, out_of_fuel
  | S fuel' => disconnect_body (disconnect fuel')
  end.

Definition send_to_user (fuel : nat) : Z → Message → M bool :=
  send_to_user_open (disconnect fuel).

Definition broadcast_to_room (fuel : nat) : string → Message → option Z → M unit :=
  broadcast_to_room_open (disconnect fuel).

Definition _broadcast_presence_update (fuel : nat) : Z → bool → M unit :=
  _broadcast_presence_update_open (disconnect fuel).

Definition connect (fuel : nat) (websocket : WebSocket) (user_id : Z)
    (connection_id : string) (device_info : option (list (string * string))) : M unit := λ w,
  if accept_ok tr websocket then
    (modify_mgr (register_connection now websocket user_id connection_id device_info) ;;
     send_json websocket (ConnectionSuccess connection_id user_id now) ;;
     _broadcast_presence_update fuel user_id true ;;
     (* the log line reads [len(self.connections[user_id])] *)
     m ← get_mgr;
     if decide (is_Some (connections m !! user_id)) then mret tt else raise KeyError) w
  else Raised TransportError w.

Definition join_room (room_id : string) (user_id : Z) : M unit :=
  modify_mgr (with_rooms (add_member room_id user_id)).

Definition leave_room (room_id : string) (user_id : Z) : M unit :=
  modify_mgr (with_rooms (remove_member room_id user_id)).

Definition handle_typing (fuel : nat) (room_id : string) (user_id : Z)
    (typing : bool) : M unit :=
  modify_mgr (with_typing_status (set_typing_flag now room_id user_id typing)) ;;
  broadcast_to_room fuel room_id (Typing room_id user_id typing now) (Some user_id).

Definition handle_heartbeat (connection_id : string) : M unit :=
  m ← get_mgr;
  match connection_meta m !! connection_id with
  | None => mret tt
  | Some meta =>
      modify_mgr (touch_heartbeat now connection_id) ;;
      match connections m !! meta_user_id meta ≫= (.!! connection_id) with
      | Some websocket => try_except (send_json websocket (Pong now)) (λ _, mret tt)
      | None => mret tt
      end
  end.

(** Lines 278-288 of one pass of [cleanup_stale_connections]. *)
Definition reap_stale (fuel : nat) : M unit :=
  m ← get_mgr;
  for_each
    (λ conn_id,
       m ← get_mgr;
       match connection_meta m !! conn_id with
       | Some meta => disconnect fuel conn_id (meta_user_id meta)
       | None => mret tt
       end)
    (stale_connections now (heartbeats m)).

(** Lines 290-310: the sweep of the typing indicators. *)
Definition sweep_room (fuel : nat) (room_id : string) : M unit :=
  m ← get_mgr;
  for_each
    (λ uid,
       modify_mgr (expire_typing room_id uid) ;;
       broadcast_to_room fuel room_id (Typing room_id uid false now) None)
    (expired_users now (default ∅ (typing_status m !! room_id))).

Definition sweep_typing (fuel : nat) : M unit :=
  m ← get_mgr;
  for_each (sweep_room fuel) (map_to_list (typing_status m)).*1.

(** The [try] block of one pass of the [while True] loop (after the sleep),
    and the pass itself. *)
Definition cleanup_try (fuel : nat) : M unit :=
  reap_stale fuel ;; sweep_typing fuel.

Definition cleanup_pass (fuel : nat) : M unit :=
  try_except (cleanup_try fuel) (λ _, mret tt).
End Operations.

(** The read-only queries. *)
Definition get_online_users (m : Manager) : list Z :=
  (map_to_list (connections m)).*1.

Definition get_room_members (m : Manager) (room_id : string) : gset Z :=
  default ∅ (rooms m !! room_id).

Definition is_user_online (m : Manager) (user_id : Z) : bool :=
  match connections m !! user_id with
  | Some conns => bool_decide (0 < size conns)%nat
  | None => false
  end.

Record Stats : Type := mkStats {
  total_users_online : nat;
  total_connections : nat;
  total_rooms : nat;
  active_typing : nat
}.

Definition get_connection_stats (m : Manager) : Stats :=
  mkStats (size (connections m))
          (sum_list (size <$> (map_to_list (connections m)).*2))
          (size (rooms m))
          (sum_list (size <$> (map_to_list (typing_status m)).*2)).

End WebSocketConnectionManager.

(** ** The chat endpoint (routers/websocket.py)

    The event loop of [websocket_chat_endpoint] for the events whose handling
    is decided by the manager.  The database calls of the MESSAGE branch
    belong to the store collaborator and are taken to succeed; READ_RECEIPT
    and REQUEST_SYNC, whose frames are made of database rows, are left out. *)

Module Router.
Import WebSocketConnectionManager.

(** What the endpoint knows about its own connection. *)
Record Session : Type := mkSession {
  session_websocket : WebSocket;
  session_connection_id : string;
  session_user_id : Z
}.

Inductive ClientEvent : Type :=
| Ping
| JoinRoom (room_id conversation_id : option Z)
| LeaveRoom (room_id conversation_id : option Z)
| TypingEvent (room_id conversation_id : option Z) (is_typing : option bool)
| MessageEvent (conversation_id : option Z) (content : option string)
| UnknownEvent (event_type : string).

(** Python's [str(n)] for an integer. *)
Definition str_of_Z (z : Z) : string := NilZero.string_of_int (Z.to_int z).

(** [f"conv_{room_id}"] *)
Definition conv_room (room_id : Z) : string := "conv_" +:+ str_of_Z room_id.

(** An id that is present and truthy. *)
Definition truthy_id (v : option Z) : option Z :=
  match v with
  | Some z => if z =? 0 then None else Some z
  | None => None
  end.

(** [event_data.get("room_id") or event_data.get("conversation_id")],
    followed by [if room_id:]. *)
Definition room_of (room_id conversation_id : option Z) : option Z :=
  match truthy_id room_id with
  | Some z => Some z
  | None => truthy_id conversation_id
  end.

Definition truthy_text (v : option string) : option string :=
  match v with
  | Some EmptyString => None
  | other => other
  end.

Section Endpoint.
Context (tr : Transport) (now : Z) (fuel : nat) (s : Session).

(** The [if / elif] chain of the event loop. *)
Definition dispatch (ev : ClientEvent) : M unit :=
  match ev with
  | Ping => handle_heartbeat tr now (session_connection_id s)
  | JoinRoom a b =>
      match room_of a b with
      | Some rid =>
          join_room (conv_room rid) (session_user_id s) ;;
          send_json tr (session_websocket s) (RoomJoined rid)
      | None => mret tt
      end
  | LeaveRoom a b =>
      match room_of a b with
      | Some rid =>
          leave_room (conv_room rid) (session_user_id s) ;;
          send_json tr (session_websocket s) (RoomLeft rid)
      | None => mret tt
      end
  | TypingEvent a b typing =>
      match room_of a b with
      | Some rid =>
          handle_typing tr now fuel (conv_room rid) (session_user_id s)
                        (default false typing)
      | None => mret tt
      end
  | MessageEvent conv content =>
      match truthy_id conv, truthy_text content with
      | Some cid, Some text =>
          broadcast_to_room tr now fuel (conv_room cid)
            (NewMessage cid (session_user_id s) text now) None ;;
          send_json tr (session_websocket s) (MessageSent cid)
      | _, _ => mret tt
      end
  | UnknownEvent _ => send_json tr (session_websocket s) (ErrorFrame "UNKNOWN_EVENT")
  end.

(** One turn of the [while True] loop: any exception of the handler is
    answered with an ERROR frame (whose own failure ends the loop). *)
Definition on_event (ev : ClientEvent) : M unit :=
  try_except (dispatch ev)
             (λ _, send_json tr (session_websocket s) (ErrorFrame "PROCESSING_ERROR")).

(** The [finally] block. *)
Definition on_close : M unit :=
  disconnect tr now fuel (session_connection_id s) (session_user_id s).
End Endpoint.

End Router.

(** ** [ChatConnectionManager] (utils/chat_manager.py)

    The second manager of the repository.  It keeps a list of sockets per
    user (no connection ids), has no heartbeat and no sweep, and its
    [disconnect] has no [try]: an exception raised while it broadcasts
    reaches the caller. *)

Module ChatConnectionManager.

(** The part of a message dict the manager reads, and the rest. *)
Record MessageData : Type := mkMessageData {
  sender_id : option Z;
  message_body : string
}.

Inductive ChatMessage : Type :=
| UserPresence (online : bool) (user_id : Z) (timestamp : Z) (last_seen : Z)
| ChatTyping (conversation_id : Z) (user_id : Z) (username : string) (is_typing : bool)
| ChatNewMessage (data : MessageData)
| ChatReadReceipt (conversation_id : Z) (message_id : Z) (user_id : Z) (read_at : Z)
| ChatPayload (body : string).

Global Instance MessageData_eq_dec : EqDecision MessageData.
Proof. solve_decision. Defined.

Global Instance ChatMessage_eq_dec : EqDecision ChatMessage.
Proof. solve_decision. Defined.

(** The dicts of [ChatConnectionManager.__init__]; [redis] tells whether a
    client has been attached with [set_redis]. *)
Record ChatManager : Type := mkChatManager {
  active_connections : gmap Z (list WebSocket);
  room_members : gmap Z (gset Z);
  typing_users : gmap Z (gmap Z Z);
  user_presence : gmap Z Z;
  redis : bool
}.

(** The manager with the frames the sockets accepted and the messages
    published to Redis, oldest first. *)
Record ChatWorld : Type := mkChatWorld {
  chat : ChatManager;
  delivered : list (WebSocket * ChatMessage);
  published : list (Z * ChatMessage)
}.

(** What the sockets and the Redis client answer. *)
Record ChatTransport : Type := mkChatTransport {
  sockets : TransportOf ChatMessage;
  publish_ok : bool
}.

Definition empty_chat_manager : ChatManager := mkChatManager ∅ ∅ ∅ ∅ false.
Definition initial_chat_world : ChatWorld := mkChatWorld empty_chat_manager [] [].

Definition with_active_connections
    (f : gmap Z (list WebSocket) → gmap Z (list WebSocket)) (m : ChatManager) : ChatManager :=
  mkChatManager (f (active_connections m)) (room_members m) (typing_users m)
                (user_presence m) (redis m).

Definition with_room_members (f : gmap Z (gset Z) → gmap Z (gset Z))
    (m : ChatManager) : ChatManager :=
  mkChatManager (active_connections m) (f (room_members m)) (typing_users m)
                (user_presence m) (redis m).

Definition with_typing_users (f : gmap Z (gmap Z Z) → gmap Z (gmap Z Z))
    (m : ChatManager) : ChatManager :=
  mkChatManager (active_connections m) (room_members m) (f (typing_users m))
                (user_presence m) (redis m).

Definition with_user_presence (f : gmap Z Z → gmap Z Z) (m : ChatManager) : ChatManager :=
  mkChatManager (active_connections m) (room_members m) (typing_users m)
                (f (user_presence m)) (redis m).

Abbreviation C := (Coroutine ChatWorld).

Definition get_chat : C ChatManager := λ w, Ok (chat w) w.
Definition modify_chat (f : ChatManager → ChatManager) : C unit := λ w,
  Ok tt (mkChatWorld (f (chat w)) (delivered w) (published w)).

(** [exclude_user and user_id == exclude_user] *)
Definition excluded (exclude_user : option Z) (user_id : Z) : bool :=
  match exclude_user with
  | Some e => negb (e =? 0) && (user_id =? e)
  | None => false
  end.

(** [list.remove(websocket)]: drops the first occurrence. *)
Fixpoint remove_first (websocket : WebSocket) (l : list WebSocket) : list WebSocket :=
  match l with
  | [] => []
  | x :: rest => if decide (x = websocket) then rest else x :: remove_first websocket rest
  end.

(** One turn of the loop that ends [disconnect] (lines 65-69). *)
Definition leave_one_room (user_id : Z) (m : ChatManager) (room_id : Z) : ChatManager :=
  match room_members m !! room_id with
  | Some members =>
      if decide (user_id ∈ members) then
        let members' := members ∖ {[user_id]} in
        if decide (members' = ∅) then with_room_members (delete room_id) m
        else with_room_members <[room_id := members']> m
      else m
  | None => m
  end.

Definition leave_all_rooms (user_id : Z) (m : ChatManager) : ChatManager :=
  foldl (leave_one_room user_id) m (map_to_list (room_members m)).*1.

Definition add_member (conversation_id user_id : Z)
    (rs : gmap Z (gset Z)) : gmap Z (gset Z) :=
  <[conversation_id := default ∅ (rs !! conversation_id) ∪ {[user_id]}]> rs.

Definition remove_member (conversation_id user_id : Z)
    (rs : gmap Z (gset Z)) : gmap Z (gset Z) :=
  match rs !! conversation_id with
  | Some members =>
      let members' := members ∖ {[user_id]} in
      if decide (members' = ∅) then delete conversation_id rs
      else <[conversation_id := members']> rs
  | None => rs
  end.

(** The two branches of [handle_typing]: the value stored is the time of
    the event. *)
Definition set_typing_flag (now : Z) (conversation_id user_id : Z) (typing : bool)
    (ts : gmap Z (gmap Z Z)) : gmap Z (gmap Z Z) :=
  if typing then
    <[conversation_id := <[user_id := now]> (default ∅ (ts !! conversation_id))]> ts
  else
    match ts !! conversation_id with
    | Some t => <[conversation_id := delete user_id t]> ts
    | None => ts
    end.

(** [self.typing_users[conversation_id].pop(sender_id, None)], guarded by
    [conversation_id in self.typing_users]; a missing sender id pops
    nothing. *)
Definition clear_sender_typing (conversation_id : Z) (sender : option Z)
    (ts : gmap Z (gmap Z Z)) : gmap Z (gmap Z Z) :=
  match ts !! conversation_id, sender with
  | Some t, Some user_id => <[conversation_id := delete user_id t]> ts
  | _, _ => ts
  end.

Section Operations.
Context (tr : ChatTransport) (now : Z).

Definition send_json (websocket : WebSocket) (message : ChatMessage) : C unit := λ w,
  if send_ok (sockets tr) websocket message
  then Ok tt (mkChatWorld (chat w) (delivered w ++ [(websocket, message)]) (published w))
  else Raised TransportError w.

(** [await self.redis.publish(channel, json.dumps(message))] *)
Definition publish (conversation_id : Z) (message : ChatMessage) : C unit := λ w,
  if publish_ok tr
  then Ok tt (mkChatWorld (chat w) (delivered w) (published w ++ [(conversation_id, message)]))
  else Raised TransportError w.

Section Open.
Variable disconnect_rec : WebSocket → Z → C unit.

Definition send_personal_message_open (message : ChatMessage) (user_id : Z) : C unit :=
  m ← get_chat;
  match active_connections m !! user_id with
  | None => mret tt
  | Some connections =>
      disconnected ←
        fold_each
          (λ dead websocket,
             try_except (send_json websocket message ;; mret dead)
                        (λ _, mret (dead ++ [websocket])))
          [] connections;
      for_each (λ ws, disconnect_rec ws user_id) disconnected
  end.

Definition broadcast_to_room_open (conversation_id : Z) (message : ChatMessage)
    (exclude_user : option Z) : C unit :=
  m ← get_chat;
  match room_members m !! conversation_id with
  | None => mret tt
  | Some members =>
      for_live
        (λ w', bool_decide
                 (size (default ∅ (room_members (chat w') !! conversation_id))
                  = size members))
        (λ user_id,
           if excluded exclude_user user_id then mret tt
           else send_personal_message_open message user_id)
        (elements members)
  end.

(** The loop walks the [room_members] dict itself. *)
Definition broadcast_presence_open (user_id : Z) (online : bool) : C unit :=
  m ← get_chat;
  let message :=
    UserPresence online user_id now (default now (user_presence m !! user_id)) in
  for_live
    (λ w', bool_decide (size (room_members (chat w')) = size (room_members m)))
    (λ room_id,
       m' ← get_chat;
       if decide (user_id ∈ default ∅ (room_members m' !! room_id))
       then broadcast_to_room_open room_id message (Some user_id)
       else mret tt)
    (map_to_list (room_members m)).*1.

(** Lines 54-62 of [disconnect]. *)
Definition drop_socket (websocket : WebSocket) (user_id : Z) : C unit :=
  m ← get_chat;
  match active_connections m !! user_id with
  | Some connections =>
      let connections' :=
        if decide (websocket ∈ connections) then remove_first websocket connections
        else connections in
      if decide (connections' = []) then
        modify_chat (with_active_connections (delete user_id)) ;;
        broadcast_presence_open user_id false
      else modify_chat (with_active_connections <[user_id := connections']>)
  | None => mret tt
  end.

Definition disconnect_body (websocket : WebSocket) (user_id : Z) : C unit :=
  drop_socket websocket user_id ;;
  modify_chat (leave_all_rooms user_id).
End Open.

Fixpoint disconnect (fuel : nat) : WebSocket → Z → C unit :=
  match fuel with
  | O => λ _ _, out_of_fuel
  | S fuel' => disconnect_body (disconnect fuel')
  end.

Definition send_personal_message (fuel : nat) : ChatMessage → Z → C unit :=
  send_personal_message_open (disconnect fuel).

Definition broadcast_to_room (fuel : nat) : Z → ChatMessage → option Z → C unit :=
  broadcast_to_room_open (disconnect fuel).

Definition broadcast_presence (fuel : nat) : Z → bool → C unit :=
  broadcast_presence_open (disconnect fuel).

Definition connect (fuel : nat) (websocket : WebSocket) (user_id : Z) : C unit := λ w,
  if accept_ok (sockets tr) websocket then
    (modify_chat
       (λ m, with_user_presence <[user_id := now]>
               (with_active_connections
                  (λ cs, <[user_id := default [] (cs !! user_id) ++ [websocket]]> cs) m)) ;;
     broadcast_presence fuel user_id true ;;
     (* the log line reads [len(self.active_connections[user_id])] *)
     m ← get_chat;
     if decide (is_Some (active_connections m !! user_id)) then mret tt
     else raise KeyError) w
  else Raised TransportError w.

Definition join_room (conversation_id user_id : Z) : C unit :=
  modify_chat (with_room_members (add_member conversation_id user_id)).

Definition leave_room (conversation_id user_id : Z) : C unit :=
  modify_chat (with_room_members (remove_member conversation_id user_id)).

Definition handle_typing (fuel : nat) (conversation_id user_id : Z) (username : string)
    (typing : bool) : C unit :=
  modify_chat (with_typing_users (set_typing_flag now conversation_id user_id typing)) ;;
  broadcast_to_room fuel conversation_id
    (ChatTyping conversation_id user_id username typing) (Some user_id).

Definition handle_new_message (fuel : nat) (conversation_id : Z)
    (message_data : MessageData) : C unit :=
  modify_chat (with_typing_users
                 (clear_sender_typing conversation_id (sender_id message_data))) ;;
  broadcast_to_room fuel conversation_id (ChatNewMessage message_data) None ;;
  m ← get_chat;
  if redis m then
    try_except (publish conversation_id (ChatNewMessage message_data)) (λ _, mret tt)
  else mret tt.

Definition handle_read_receipt (fuel : nat) (conversation_id message_id user_id : Z) :
    C unit :=
  broadcast_to_room fuel conversation_id
    (ChatReadReceipt conversation_id message_id user_id now) None.
End Operations.

Definition get_online_users (m : ChatManager) : list Z :=
  (map_to_list (active_connections m)).*1.

Definition is_user_online (m : ChatManager) (user_id : Z) : bool :=
  bool_decide (is_Some (active_connections m !! user_id)).

Definition get_room_members_count (m : ChatManager) (conversation_id : Z) : nat :=
  size (default ∅ (room_members m !! conversation_id)).

(** The expiry-free typing record of [(conversation_id, user_id)]. *)
Definition typing_since (m : ChatManager) (conversation_id user_id : Z) : option Z :=
  typing_users m !! conversation_id ≫= (.!! user_id).

End ChatConnectionManager.

(** ** The mutations the nested coroutines perform

    Whatever [send_to_user], [broadcast_to_room], [_broadcast_presence_update]
    and [disconnect] do to the manager is a sequence of the following
    updates; each one is a group of statements of [send_to_user] or
    [disconnect] between two awaits. *)

Module Steps.
Import WebSocketConnectionManager.

Inductive internal_step (now : Z) : Manager → Manager → Prop :=
| step_touch m connection_id :
    internal_step now m (touch_activity now connection_id m)
| step_last_connection m user_id conns connection_id :
    connections m !! user_id = Some conns →
    is_Some (conns !! connection_id) →
    delete connection_id conns = ∅ →
    internal_step now m
      (_update_presence now user_id false (with_connections (delete user_id) m))
| step_drop_connection m user_id conns connection_id :
    connections m !! user_id = Some conns →
    is_Some (conns !! connection_id) →
    delete connection_id conns ≠ ∅ →
    internal_step now m
      (with_connections <[user_id := delete connection_id conns]> m)
| step_meta m connection_id :
    internal_step now m (with_connection_meta (delete connection_id) m)
| step_heartbeat m connection_id :
    internal_step now m (with_heartbeats (delete connection_id) m)
| step_rooms m user_id :
    internal_step now m (remove_from_rooms user_id m).

Definition evolves (now : Z) : Manager → Manager → Prop :=
  rtc (internal_step now).

(** What the loop at the end of [disconnect] does to one member set. *)
Definition drop_member (user_id : Z) (members : gset Z) : option (gset Z) :=
  if decide (user_id ∈ members) then
    if decide (members ∖ {[user_id]} = ∅) then None
    else Some (members ∖ {[user_id]})
  else Some members.

End Steps.

(** ** Derived views, calls and reachable worlds *)

Import WebSocketConnectionManager Steps.

(** The mutations made directly by the public coroutines. *)
Inductive api_step (now : Z) : Manager → Manager → Prop :=
| step_register m websocket user_id connection_id device_info :
    api_step now m
      (register_connection now websocket user_id connection_id device_info m)
| step_join m room_id user_id :
    api_step now m (with_rooms (add_member room_id user_id) m)
| step_leave m room_id user_id :
    api_step now m (with_rooms (remove_member room_id user_id) m)
| step_typing m room_id user_id typing :
    api_step now m
      (with_typing_status (set_typing_flag now room_id user_id typing) m)
| step_ping m connection_id :
    api_step now m (touch_heartbeat now connection_id m)
| step_expire m room_id uid :
    api_step now m (expire_typing room_id uid m).

Definition manager_step (m m' : Manager) : Prop :=
  ∃ now, internal_step now m m' ∨ api_step now m m'.

(** [connections_of(identity)]: [self.connections.get(user_id, {})]. *)
Definition connections_of (m : Manager) (user_id : Z) : gmap string WebSocket :=
  default ∅ (connections m !! user_id).

Definition active_connection_count (m : Manager) (user_id : Z) : nat :=
  size (connections_of m user_id).

(** [presence[user_id]["is_online"]], false when there is no record. *)
Definition online_flag (m : Manager) (user_id : Z) : bool :=
  match presence m !! user_id with
  | Some p => is_online p
  | None => false
  end.

(** One frame per registered socket of the user. *)
Definition frames_for (m : Manager) (message : Message) (user_id : Z) :
    list (WebSocket * Message) :=
  (λ p : string * WebSocket, (p.2, message)) <$> map_to_list (connections_of m user_id).

(** The frames of one presence broadcast on a manager where every socket
    accepts: room by room over the user's rooms, one frame per registered
    socket of every member the guard does not skip. *)
Definition presence_frames (now : Z) (user_id : Z) (online : bool) (m : Manager) :
    list (WebSocket * Message) :=
  rooms_of user_id (rooms m) ≫= λ room_id,
    elements (default ∅ (rooms m !! room_id)) ≫= λ v,
      if excluded (Some user_id) v then []
      else frames_for m (PresenceUpdate user_id online now) v.

(** The expiry of the typing signal of [(room_id, user_id)], if there is one. *)
Definition typing_expiry (m : Manager) (room_id : string) (user_id : Z) : option Z :=
  typing_status m !! room_id ≫= (.!! user_id).

Definition no_empty_connection_entry (m : Manager) : Prop :=
  ∀ u conns, connections m !! u = Some conns → conns ≠ ∅.

Definition no_empty_room (m : Manager) : Prop :=
  ∀ r members, rooms m !! r = Some members → members ≠ ∅.

Definition presence_consistent (m : Manager) : Prop :=
  ∀ u, online_flag m u = true ↔ (0 < active_connection_count m u)%nat.

(** The calls a client of the manager can make. *)
Inductive Call : Type :=
| CallConnect (websocket : WebSocket) (user_id : Z) (connection_id : string)
              (device_info : option (list (string * string)))
| CallDisconnect (connection_id : string) (user_id : Z)
| CallSendToUser (user_id : Z) (message : Message)
| CallBroadcastToRoom (room_id : string) (message : Message)
                      (exclude_user_id : option Z)
| CallJoinRoom (room_id : string) (user_id : Z)
| CallLeaveRoom (room_id : string) (user_id : Z)
| CallHandleTyping (room_id : string) (user_id : Z) (typing : bool)
| CallHandleHeartbeat (connection_id : string)
| CallCleanupPass.

Definition run_call (tr : Transport) (now : Z) (fuel : nat) (call : Call) : M unit :=
  match call with
  | CallConnect ws u c dev => connect tr now fuel ws u c dev
  | CallDisconnect c u => disconnect tr now fuel c u
  | CallSendToUser u msg => send_to_user tr now fuel u msg ;; mret tt
  | CallBroadcastToRoom r msg excl => broadcast_to_room tr now fuel r msg excl
  | CallJoinRoom r u => join_room r u
  | CallLeaveRoom r u => leave_room r u
  | CallHandleTyping r u b => handle_typing tr now fuel r u b
  | CallHandleHeartbeat c => handle_heartbeat tr now c
  | CallCleanupPass => cleanup_pass tr now fuel
  end.

Inductive reachable : World → Prop :=
| reachable_init : reachable initial_world
| reachable_call w tr now fuel call w' :
    reachable w →
    final_world (run_call tr now fuel call w) = Some w' →
    reachable w'.

(** The combined effect of lines 117-128 of [disconnect] (no await
    separates them). *)
Definition forget_connection (connection_id : string) (user_id : Z)
    (m : Manager) : Manager :=
  remove_from_rooms user_id
    (with_heartbeats (delete connection_id)
       (with_connection_meta (delete connection_id) m)).

(** Successive [disconnect] calls for one user, each at its own time. *)
Definition disconnect_all (tr : Transport) (fuel : nat) (user_id : Z)
    (calls : list (string * Z)) : M unit :=
  for_each (λ call, disconnect tr call.2 fuel call.1 user_id) calls.

Definition presence_record_consistent (m : Manager) : Prop :=
  ∀ u p, presence m !! u = Some p →
    (is_online p = true ↔ (0 < connection_count p)%nat).

(** What a connection's metadata says apart from its last activity. *)
Definition meta_identity (cm : ConnMeta) : Z * Z * list (string * string) :=
  (meta_user_id cm, meta_connected_at cm, meta_device_info cm).

(** [m] is [m0] up to the [last_activity] stamps of the metadata. *)
Definition same_registry (m0 m : Manager) : Prop :=
  connections m = connections m0 ∧
  rooms m = rooms m0 ∧
  typing_status m = typing_status m0 ∧
  presence m = presence m0 ∧
  heartbeats m = heartbeats m0 ∧
  ∀ c, meta_identity <$> connection_meta m !! c =
       meta_identity <$> connection_meta m0 !! c.

(** [set_redis]: the client is stored; the subscriber task it starts
    delivers what other servers publish through [broadcast_to_room]. *)
Definition set_redis (attached : bool) : ChatConnectionManager.C unit :=
  ChatConnectionManager.modify_chat
    (λ m, ChatConnectionManager.mkChatManager
            (ChatConnectionManager.active_connections m)
            (ChatConnectionManager.room_members m)
            (ChatConnectionManager.typing_users m)
            (ChatConnectionManager.user_presence m) attached).

(** The calls a client of [ChatConnectionManager] can make. *)
Inductive ChatCall : Type :=
| ChatConnect (websocket : WebSocket) (user_id : Z)
| ChatDisconnect (websocket : WebSocket) (user_id : Z)
| ChatJoinRoom (conversation_id user_id : Z)
| ChatLeaveRoom (conversation_id user_id : Z)
| ChatSendPersonalMessage (message : ChatConnectionManager.ChatMessage) (user_id : Z)
| ChatBroadcastToRoom (conversation_id : Z) (message : ChatConnectionManager.ChatMessage)
                      (exclude_user : option Z)
| ChatHandleTyping (conversation_id user_id : Z) (username : string) (typing : bool)
| ChatHandleNewMessage (conversation_id : Z)
                       (message_data : ChatConnectionManager.MessageData)
| ChatHandleReadReceipt (conversation_id message_id user_id : Z)
| ChatSetRedis (attached : bool).

Definition run_chat_call (tr : ChatConnectionManager.ChatTransport) (now : Z)
    (fuel : nat) (call : ChatCall) : ChatConnectionManager.C unit :=
  match call with
  | ChatConnect ws u => ChatConnectionManager.connect tr now fuel ws u
  | ChatDisconnect ws u => ChatConnectionManager.disconnect tr now fuel ws u
  | ChatJoinRoom c u => ChatConnectionManager.join_room c u
  | ChatLeaveRoom c u => ChatConnectionManager.leave_room c u
  | ChatSendPersonalMessage msg u =>
      ChatConnectionManager.send_personal_message tr now fuel msg u
  | ChatBroadcastToRoom c msg excl =>
      ChatConnectionManager.broadcast_to_room tr now fuel c msg excl
  | ChatHandleTyping c u name b =>
      ChatConnectionManager.handle_typing tr now fuel c u name b
  | ChatHandleNewMessage c data =>
      ChatConnectionManager.handle_new_message tr now fuel c data
  | ChatHandleReadReceipt c m u =>
      ChatConnectionManager.handle_read_receipt tr now fuel c m u
  | ChatSetRedis b => set_redis b
  end.

Inductive chat_reachable : ChatConnectionManager.ChatWorld → Prop :=
| chat_reachable_init : chat_reachable ChatConnectionManager.initial_chat_world
| chat_reachable_call w tr now fuel call w' :
    chat_reachable w →
    final_world (run_chat_call tr now fuel call w) = Some w' →
    chat_reachable w'.

Definition chat_no_empty_connection_list (m : ChatConnectionManager.ChatManager) : Prop :=
  ∀ u l, ChatConnectionManager.active_connections m !! u = Some l → l ≠ [].

Definition chat_no_empty_room (m : ChatConnectionManager.ChatManager) : Prop :=
  ∀ r members, ChatConnectionManager.room_members m !! r = Some members → members ≠ ∅.

(** ** Termination and exceptions *)

(** At most [n] users hold connections: the measure that bounds how deep
    [disconnect] can nest. *)
Definition few_users (n : nat) (w : World) : Prop :=
  (size (connections (mgr w)) ≤ n)%nat.

(** ** Scenarios

    Concrete transports and worlds on which the statements are exercised. *)

(** Every socket accepts the handshake and every frame. *)
Definition all_accepting : Transport := mkTransport (λ _, true) (λ _ _, true).

(** Every socket but [dead] accepts frames. *)
Definition failing_socket (dead : WebSocket) : Transport :=
  mkTransport (λ _, true) (λ ws _, negb (Nat.eqb ws dead)).

Definition exec (tr : Transport) (now : Z) (call : Call) (w : World) : World :=
  after (run_call tr now 8 call) w.

(** User 7 on two devices: sockets 1 and 2 under the ids "c1" and "c2". *)
Definition two_device_world : World :=
  exec all_accepting 11 (CallConnect 2%nat 7 "c2" None)
    (exec all_accepting 10 (CallConnect 1%nat 7 "c1" None) initial_world).

(** Users 1 and 2, one socket each, both subscribed to conversation 5. *)
Definition alice : Router.Session := Router.mkSession 11 "c1" 1.
Definition bob : Router.Session := Router.mkSession 12 "c2" 2.

Definition chat_world : World :=
  exec all_accepting 7 (CallJoinRoom "conv_5" 2)
    (exec all_accepting 6 (CallJoinRoom "conv_5" 1)
       (exec all_accepting 5 (CallConnect 12%nat 2 "c2" None)
          (exec all_accepting 5 (CallConnect 11%nat 1 "c1" None) initial_world))).

(** User 1 starts typing in conversation 5 at time 1000000. *)
Definition typing_world : World :=
  exec all_accepting 1000000 (CallHandleTyping "conv_5" 1 true) chat_world.


(** User 7 on two devices and subscribed to room "r". *)
Definition two_device_room_world : World :=
  exec all_accepting 12 (CallJoinRoom "r" 7) two_device_world.

(** User 7 is subscribed to room "r" and has never connected. *)
Definition offline_member_world : World :=
  exec all_accepting 10 (CallJoinRoom "r" 7) initial_world.

(** Users 0, 1 and 2, one socket each (10, 11, 12), all subscribed to
    room "r". *)
Definition trio_world : World :=
  exec all_accepting 7 (CallJoinRoom "r" 2)
    (exec all_accepting 7 (CallJoinRoom "r" 1)
       (exec all_accepting 7 (CallJoinRoom "r" 0)
          (exec all_accepting 6 (CallConnect 12%nat 2 "c2" None)
             (exec all_accepting 6 (CallConnect 11%nat 1 "c1" None)
                (exec all_accepting 6 (CallConnect 10%nat 0 "c0" None)
                   initial_world))))).

(** The typing signals of [m] are signals of [m0], and those of [m0] that
    are not yet past [now] are all in [m]. *)
Definition swept_from (now : Z) (m0 m : Manager) : Prop :=
  (∀ r u e, typing_expiry m r u = Some e → typing_expiry m0 r u = Some e) ∧
  (∀ r u e, typing_expiry m0 r u = Some e → now ≤ e → typing_expiry m r u = Some e).

(** The same scenes on [ChatConnectionManager]: users 0, 1 and 2 (sockets
    10, 11, 12) in conversation 5, and user 1 typing there. *)
Definition chat_all_accepting : ChatConnectionManager.ChatTransport :=
  ChatConnectionManager.mkChatTransport (mkTransport (λ _, true) (λ _ _, true)) true.

Definition chat_trio_world : ChatConnectionManager.ChatWorld :=
  after (ChatConnectionManager.join_room 5 2)
    (after (ChatConnectionManager.join_room 5 1)
       (after (ChatConnectionManager.join_room 5 0)
          (after (ChatConnectionManager.connect chat_all_accepting 6 8 12%nat 2)
             (after (ChatConnectionManager.connect chat_all_accepting 6 8 11%nat 1)
                (after (ChatConnectionManager.connect chat_all_accepting 6 8 10%nat 0)
                   ChatConnectionManager.initial_chat_world))))).

Definition chat_typing_world : ChatConnectionManager.ChatWorld :=
  after (ChatConnectionManager.handle_typing chat_all_accepting 1000000 8 5 1 "alice" true)
        chat_trio_world.

(** ** The claims that fail, as the specification states them *)


(** C6 as stated: when the endpoint has closed the connection of the
    session's user, no typing signal of that user is left. *)
Definition claimed_close_clears_typing (tr : Transport) (now : Z) (fuel : nat)
    (s : Router.Session) (w : World) : Prop :=
  ∀ w' r,
    Router.on_close tr now fuel s w = Ok tt w' →
    typing_expiry (mgr w') r (Router.session_user_id s) = None.

(** C8 as stated: the rooms of a user are the same after its connections
    close and it goes offline. *)
Definition claimed_membership_survives_offline (tr : Transport) (now : Z)
    (fuel : nat) (connection_id : string) (user_id : Z) (w : World) : Prop :=
  ∀ w' r,
    disconnect tr now fuel connection_id user_id w = Ok tt w' →
    is_user_online (mgr w') user_id = false →
    user_id ∈ get_room_members (mgr w) r →
    user_id ∈ get_room_members (mgr w') r.

(** C9 as stated: [disconnect] on an id that is not registered changes
    nothing. *)
Definition claimed_disconnect_unregistered_noop (tr : Transport) (now : Z)
    (fuel : nat) (connection_id : string) (user_id : Z) (w : World) : Prop :=
  (∀ u, connections_of (mgr w) u !! connection_id = None) →
  connection_meta (mgr w) !! connection_id = None →
  heartbeats (mgr w) !! connection_id = None →
  disconnect tr now fuel connection_id user_id w = Ok tt w.

(** * Proofs *)

(** ** Rules for [preserves] *)

Lemma bind_run {S A B} (m : Coroutine S A) (k : A → Coroutine S B) s :
  (m ≫= k) s =
    match m s with
    | Ok a s' => k a s'
    | Raised e s' => Raised e s'
    | OutOfFuel => OutOfFuel
    end.
Proof. reflexivity. Qed.

Section Preserves.
Context {S : Type} (oof : Prop) (I : S → Prop).

Lemma preserves_ret {A} (a : A) : preserves oof I (mret a).
Proof. intros w Hw. exact Hw. Qed.

Lemma preserves_raise {A} (e : Exn) : preserves oof I (raise e : Coroutine S A).
Proof. intros w Hw. exact Hw. Qed.

Lemma preserves_bind {A B} (m : Coroutine S A) (k : A → Coroutine S B) :
  preserves oof I m → (∀ a, preserves oof I (k a)) → preserves oof I (m ≫= k).
Proof.
  intros Hm Hk w Hw. rewrite bind_run. specialize (Hm w Hw).
  destruct (m w) as [a w'| |]; auto. by apply Hk.
Qed.

Lemma preserves_try {A} (body : Coroutine S A) (handler : Exn → Coroutine S A) :
  preserves oof I body → (∀ e, preserves oof I (handler e)) →
  preserves oof I (try_except body handler).
Proof.
  intros Hb Hh w Hw. unfold try_except. specialize (Hb w Hw).
  destruct (body w) as [a w'|e w'|]; auto. by apply Hh.
Qed.

Lemma preserves_for_each {X} (body : X → Coroutine S unit) (xs : list X) :
  (∀ x, x ∈ xs → preserves oof I (body x)) → preserves oof I (for_each body xs).
Proof.
  induction xs as [|x xs IH]; intros Hb; simpl.
  - apply preserves_ret.
  - apply preserves_bind.
    + apply Hb. left.
    + intros _. apply IH. intros y Hy. apply Hb. by right.
Qed.

Lemma preserves_fold_each {X B} (body : B → X → Coroutine S B) (acc : B) (xs : list X) :
  (∀ b x, x ∈ xs → preserves oof I (body b x)) →
  preserves oof I (fold_each body acc xs).
Proof.
  revert acc. induction xs as [|x xs IH]; intros acc Hb; simpl.
  - apply preserves_ret.
  - apply preserves_bind.
    + apply Hb. left.
    + intros b. apply IH. intros b' y Hy. apply Hb. by right.
Qed.

Lemma preserves_for_live {X} intact (body : X → Coroutine S unit) (pending : list X) :
  (∀ x, x ∈ pending → preserves oof I (body x)) →
  preserves oof I (for_live intact body pending).
Proof.
  induction pending as [|x xs IH]; intros Hb w Hw; simpl.
  - by destruct (intact w).
  - destruct (intact w); [|done].
    apply (preserves_bind (body x) (λ _, for_live intact body xs)); [| |done].
    + apply Hb. left.
    + intros _. apply IH. intros y Hy. apply Hb. by right.
Qed.
End Preserves.

Section PreservesWorld.
Context (oof : Prop) (I : World → Prop).

Lemma preserves_get {A} (k : Manager → M A) :
  (∀ m, preserves oof I (k m)) → preserves oof I (get_mgr ≫= k).
Proof. intros Hk w Hw. rewrite bind_run. simpl. by apply Hk. Qed.

Lemma preserves_modify (f : Manager → Manager) :
  (∀ w, I w → I (mkWorld (f (mgr w)) (outbox w))) → preserves oof I (modify_mgr f).
Proof. intros Hf w Hw. simpl. by apply Hf. Qed.
End PreservesWorld.

(** ** The nested coroutines only perform internal steps *)

Section OpenCoroutines.
Import WebSocketConnectionManager.
Context (tr : Transport) (now : Z) (oof : Prop) (I : World → Prop).
Context (disconnect_rec : string → Z → M unit).
Hypothesis rec_preserves : ∀ c u, preserves oof I (disconnect_rec c u).
Hypothesis I_outbox : ∀ w ws msg,
  I w → I (mkWorld (mgr w) (outbox w ++ [(ws, msg)])).
Hypothesis I_touch : ∀ w c,
  I w → I (mkWorld (touch_activity now c (mgr w)) (outbox w)).

Lemma preserves_send_json ws msg : preserves oof I (send_json tr ws msg).
Proof.
  intros w Hw. unfold send_json. destruct (send_ok tr ws msg); auto.
Qed.

Lemma preserves_send_one msg acc item :
  preserves oof I (send_one tr now msg acc item).
Proof.
  apply preserves_try.
  - apply preserves_bind; [apply preserves_send_json|intros _].
    apply preserves_bind; [|intros _; apply preserves_ret].
    apply preserves_modify. auto.
  - intros _. apply preserves_ret.
Qed.

Lemma preserves_send_to_user_open u msg :
  preserves oof I (send_to_user_open tr now disconnect_rec u msg).
Proof.
  apply preserves_get. intros m.
  destruct (connections m !! u) as [conns|]; [|apply preserves_ret].
  apply preserves_bind.
  - apply preserves_fold_each. intros. apply preserves_send_one.
  - intros acc. apply preserves_bind; [|intros _; apply preserves_ret].
    apply preserves_for_each. intros. apply rec_preserves.
Qed.

Lemma preserves_broadcast_to_room_open r msg excl :
  preserves oof I (broadcast_to_room_open tr now disconnect_rec r msg excl).
Proof.
  apply preserves_get. intros m.
  destruct (rooms m !! r) as [members|]; [|apply preserves_ret].
  apply preserves_for_live. intros u _.
  destruct (excluded excl u); [apply preserves_ret|].
  apply preserves_bind; [apply preserves_send_to_user_open|].
  intros _. apply preserves_ret.
Qed.

Lemma preserves_broadcast_presence_open u online :
  preserves oof I (_broadcast_presence_update_open tr now disconnect_rec u online).
Proof.
  apply preserves_get. intros m.
  apply preserves_for_each. intros. apply preserves_broadcast_to_room_open.
Qed.
End OpenCoroutines.

Section DisconnectEvolves.
Import WebSocketConnectionManager Steps.
Context (tr : Transport) (now : Z).

Lemma unregister_connection_evolves rec m0 c u :
  (∀ c u, preserves True (λ w, evolves now m0 (mgr w)) (rec c u)) →
  preserves True (λ w, evolves now m0 (mgr w)) (unregister_connection tr now rec c u).
Proof.
  intros Hrec w Hw. unfold unregister_connection. rewrite bind_run. cbn [get_mgr].
  destruct (connections (mgr w) !! u) as [conns|] eqn:Hu; [|exact Hw].
  destruct (decide (is_Some (conns !! c))) as [Hc|]; [|exact Hw].
  destruct (decide (delete c conns = ∅)) as [He|Hne].
  - rewrite bind_run. cbn [modify_mgr].
    apply (preserves_broadcast_presence_open tr now True
             (λ w, evolves now m0 (mgr w)) rec); auto.
    + intros w' c' Hw'. cbn. eapply rtc_r; [exact Hw'|]. apply step_touch.
    + cbn. eapply rtc_r; [exact Hw|]. eapply step_last_connection; eauto.
  - cbn. eapply rtc_r; [exact Hw|]. eapply step_drop_connection; eauto.
Qed.

Lemma disconnect_try_evolves rec m0 c u :
  (∀ c u, preserves True (λ w, evolves now m0 (mgr w)) (rec c u)) →
  preserves True (λ w, evolves now m0 (mgr w)) (disconnect_try tr now rec c u).
Proof.
  intros Hrec. unfold disconnect_try.
  apply preserves_bind; [by apply unregister_connection_evolves|intros _].
  apply preserves_bind; [|intros _].
  { apply preserves_modify. intros w Hw. cbn. eapply rtc_r; [exact Hw|]. apply step_meta. }
  apply preserves_bind; [|intros _].
  { apply preserves_modify. intros w Hw. cbn. eapply rtc_r; [exact Hw|]. apply step_heartbeat. }
  apply preserves_modify. intros w Hw. cbn. eapply rtc_r; [exact Hw|]. apply step_rooms.
Qed.

Lemma disconnect_evolves fuel m0 c u :
  preserves True (λ w, evolves now m0 (mgr w)) (disconnect tr now fuel c u).
Proof.
  revert c u. induction fuel as [|fuel IH]; intros c u.
  - intros w _. exact Logic.I.
  - cbn [disconnect]. unfold disconnect_body.
    apply preserves_try; [|intros _; apply preserves_ret].
    by apply disconnect_try_evolves.
Qed.

Lemma send_to_user_evolves fuel m0 u msg :
  preserves True (λ w, evolves now m0 (mgr w)) (send_to_user tr now fuel u msg).
Proof.
  apply preserves_send_to_user_open; auto using disconnect_evolves.
  intros w c Hw. cbn. eapply rtc_r; [exact Hw|]. apply step_touch.
Qed.

Lemma broadcast_to_room_evolves fuel m0 r msg excl :
  preserves True (λ w, evolves now m0 (mgr w)) (broadcast_to_room tr now fuel r msg excl).
Proof.
  apply preserves_broadcast_to_room_open; auto using disconnect_evolves.
  intros w c Hw. cbn. eapply rtc_r; [exact Hw|]. apply step_touch.
Qed.
End DisconnectEvolves.

(** ** The loop that ends [disconnect] *)

Section RemoveFromRooms.
Import WebSocketConnectionManager Steps.

Lemma manager_eq m1 m2 :
  connections m1 = connections m2 → rooms m1 = rooms m2 →
  typing_status m1 = typing_status m2 → presence m1 = presence m2 →
  heartbeats m1 = heartbeats m2 → connection_meta m1 = connection_meta m2 →
  m1 = m2.
Proof. destruct m1, m2; simpl; intros; by subst. Qed.

Lemma leave_if_offline_frame u m r :
  connections (leave_if_offline u m r) = connections m ∧
  typing_status (leave_if_offline u m r) = typing_status m ∧
  presence (leave_if_offline u m r) = presence m ∧
  heartbeats (leave_if_offline u m r) = heartbeats m ∧
  connection_meta (leave_if_offline u m r) = connection_meta m.
Proof.
  unfold leave_if_offline.
  destruct (rooms m !! r); [|done].
  repeat case_decide; done.
Qed.

Lemma leave_if_offline_rooms u m r :
  rooms (leave_if_offline u m r) =
    if decide (is_Some (connections m !! u)) then rooms m
    else match rooms m !! r with
         | Some s =>
             match drop_member u s with
             | Some s' => <[r := s']> (rooms m)
             | None => delete r (rooms m)
             end
         | None => rooms m
         end.
Proof.
  unfold leave_if_offline, drop_member.
  destruct (rooms m !! r) as [s|] eqn:Hr; [|by case_decide].
  repeat case_decide; simpl; try done.
  by rewrite insert_id.
Qed.

Lemma foldl_leave_frame u ks : ∀ m,
  connections (foldl (leave_if_offline u) m ks) = connections m ∧
  typing_status (foldl (leave_if_offline u) m ks) = typing_status m ∧
  presence (foldl (leave_if_offline u) m ks) = presence m ∧
  heartbeats (foldl (leave_if_offline u) m ks) = heartbeats m ∧
  connection_meta (foldl (leave_if_offline u) m ks) = connection_meta m.
Proof.
  induction ks as [|k ks IH]; intros m; simpl; [done|].
  destruct (IH (leave_if_offline u m k)) as (-> & -> & -> & -> & ->).
  apply leave_if_offline_frame.
Qed.

Lemma foldl_leave_online u ks : ∀ m,
  is_Some (connections m !! u) →
  rooms (foldl (leave_if_offline u) m ks) = rooms m.
Proof.
  induction ks as [|k ks IH]; intros m Hon; simpl; [done|].
  rewrite IH.
  - rewrite leave_if_offline_rooms. by rewrite decide_True.
  - by destruct (leave_if_offline_frame u m k) as [-> _].
Qed.

Lemma foldl_leave_offline u ks : ∀ m,
  connections m !! u = None → NoDup ks →
  rooms (foldl (leave_if_offline u) m ks) =
    map_imap (λ r s, if decide (r ∈ ks) then drop_member u s else Some s) (rooms m).
Proof.
  induction ks as [|k ks IH]; intros m Hoff Hnd; simpl.
  - apply map_eq. intros i. rewrite map_lookup_imap.
    destruct (rooms m !! i); simpl; [|done].
    first [done | case_decide as Hin; [by apply elem_of_nil in Hin | done]].
  - apply NoDup_cons in Hnd as [Hk Hnd].
    rewrite IH; [|by destruct (leave_if_offline_frame u m k) as [-> _]|done].
    rewrite leave_if_offline_rooms.
    rewrite decide_False; [|rewrite Hoff; by intros [? ?]].
    apply map_eq. intros i. rewrite !map_lookup_imap.
    destruct (decide (i = k)) as [->|Hik].
    + destruct (rooms m !! k) as [s|] eqn:Hs; simpl.
      * rewrite (decide_True (P := k ∈ k :: ks)); [|left].
        destruct (drop_member u s) as [s'|] eqn:Hd.
        -- rewrite lookup_insert_eq. simpl. by rewrite decide_False.
        -- by rewrite lookup_delete_eq.
      * by rewrite Hs.
    + assert (Hi : ∀ rs' : gmap string (gset Z), rs' !! i = rooms m !! i →
                rs' !! i ≫= (λ s, if decide (i ∈ ks) then drop_member u s else Some s) =
                rooms m !! i ≫= (λ s, if decide (i ∈ k :: ks) then drop_member u s else Some s)).
      { intros rs' ->. destruct (rooms m !! i); simpl; [|done].
        destruct (decide (i ∈ ks)) as [Hin|Hnin].
        - rewrite decide_True; [done|by right].
        - rewrite decide_False; [done|]. intros [?|?]%elem_of_cons; done. }
      apply Hi.
      destruct (rooms m !! k) as [s|]; [|done].
      destruct (drop_member u s).
      * by rewrite lookup_insert_ne.
      * by rewrite lookup_delete_ne.
Qed.

Lemma remove_from_rooms_frame u m :
  connections (remove_from_rooms u m) = connections m ∧
  typing_status (remove_from_rooms u m) = typing_status m ∧
  presence (remove_from_rooms u m) = presence m ∧
  heartbeats (remove_from_rooms u m) = heartbeats m ∧
  connection_meta (remove_from_rooms u m) = connection_meta m.
Proof. apply foldl_leave_frame. Qed.

Lemma remove_from_rooms_rooms u m :
  rooms (remove_from_rooms u m) =
    if decide (is_Some (connections m !! u)) then rooms m
    else omap (drop_member u) (rooms m).
Proof.
  unfold remove_from_rooms. case_decide as Hon.
  - by apply foldl_leave_online.
  - rewrite foldl_leave_offline.
    + apply map_eq. intros i. rewrite map_lookup_imap, lookup_omap.
      destruct (rooms m !! i) as [s|] eqn:Hs; simpl; [|done].
      rewrite decide_True; [done|].
      apply list_elem_of_fmap. exists (i, s). split; [done|].
      by apply elem_of_map_to_list.
    + destruct (connections m !! u); [|done]. exfalso. apply Hon. eauto.
    + apply NoDup_fst_map_to_list.
Qed.
End RemoveFromRooms.

(** ** Every call is a sequence of manager steps *)

Section CallsAreSteps.
Context (tr : Transport) (now : Z).

Lemma broadcast_presence_evolves fuel m0 u online :
  preserves True (λ w, evolves now m0 (mgr w))
    (_broadcast_presence_update tr now fuel u online).
Proof.
  apply preserves_broadcast_presence_open; auto using disconnect_evolves.
  intros w c Hw. cbn. eapply rtc_r; [exact Hw|]. apply step_touch.
Qed.

Lemma evolves_stable (P : Manager → Prop) m m' :
  (∀ m m', P m → internal_step now m m' → P m') →
  evolves now m m' → P m → P m'.
Proof. intros Hst Hev. induction Hev; eauto. Qed.

Lemma nested_preserves {A} (P : Manager → Prop) (c : M A) :
  (∀ m m', P m → internal_step now m m' → P m') →
  (∀ m0, preserves True (λ w, evolves now m0 (mgr w)) c) →
  preserves True (λ w, P (mgr w)) c.
Proof.
  intros Hst Hc w Hw. specialize (Hc (mgr w) w (rtc_refl _ _)).
  destruct (c w); [| |done]; eapply evolves_stable; eauto.
Qed.

Section Stable.
Context (P : Manager → Prop).
Hypothesis P_internal : ∀ m m', P m → internal_step now m m' → P m'.
Hypothesis P_api : ∀ m m', P m → api_step now m m' → P m'.

Lemma send_json_preserves ws msg :
  preserves True (λ w, P (mgr w)) (send_json tr ws msg).
Proof. apply preserves_send_json. by intros. Qed.

Lemma disconnect_preserves fuel c u :
  preserves True (λ w, P (mgr w)) (disconnect tr now fuel c u).
Proof. apply nested_preserves; auto using disconnect_evolves. Qed.

Lemma send_to_user_preserves fuel u msg :
  preserves True (λ w, P (mgr w)) (send_to_user tr now fuel u msg).
Proof. apply nested_preserves; auto using send_to_user_evolves. Qed.

Lemma broadcast_to_room_preserves fuel r msg excl :
  preserves True (λ w, P (mgr w)) (broadcast_to_room tr now fuel r msg excl).
Proof. apply nested_preserves; auto using broadcast_to_room_evolves. Qed.

Lemma broadcast_presence_preserves fuel u online :
  preserves True (λ w, P (mgr w)) (_broadcast_presence_update tr now fuel u online).
Proof. apply nested_preserves; auto using broadcast_presence_evolves. Qed.

Lemma connect_preserves fuel ws u c dev :
  preserves True (λ w, P (mgr w)) (connect tr now fuel ws u c dev).
Proof.
  intros w Hw. unfold connect. destruct (accept_ok tr ws); [|exact Hw].
  revert w Hw. apply preserves_bind; [|intros _].
  { apply preserves_modify. intros w Hw. cbn. eapply P_api; [exact Hw|]. constructor. }
  apply preserves_bind; [apply send_json_preserves|intros _].
  apply preserves_bind; [apply broadcast_presence_preserves|intros _].
  apply preserves_get. intros m. case_decide; [apply preserves_ret|apply preserves_raise].
Qed.

Lemma handle_typing_preserves fuel r u b :
  preserves True (λ w, P (mgr w)) (handle_typing tr now fuel r u b).
Proof.
  apply preserves_bind; [|intros _; apply broadcast_to_room_preserves].
  apply preserves_modify. intros w Hw. cbn. eapply P_api; [exact Hw|]. constructor.
Qed.

Lemma handle_heartbeat_preserves c :
  preserves True (λ w, P (mgr w)) (handle_heartbeat tr now c).
Proof.
  apply preserves_get. intros m.
  destruct (connection_meta m !! c) as [meta|]; [|apply preserves_ret].
  apply preserves_bind; [|intros _].
  { apply preserves_modify. intros w Hw. cbn. eapply P_api; [exact Hw|]. constructor. }
  destruct (connections m !! meta_user_id meta ≫= _); [|apply preserves_ret].
  apply preserves_try; [apply send_json_preserves|intros _; apply preserves_ret].
Qed.

Lemma reap_stale_preserves fuel :
  preserves True (λ w, P (mgr w)) (reap_stale tr now fuel).
Proof.
  apply preserves_get. intros m. apply preserves_for_each. intros c _.
  apply preserves_get. intros m'.
  destruct (connection_meta m' !! c); [apply disconnect_preserves|apply preserves_ret].
Qed.

Lemma sweep_room_preserves fuel r :
  preserves True (λ w, P (mgr w)) (sweep_room tr now fuel r).
Proof.
  apply preserves_get. intros m. apply preserves_for_each. intros uid _.
  apply preserves_bind; [|intros _; apply broadcast_to_room_preserves].
  apply preserves_modify. intros w Hw. cbn. eapply P_api; [exact Hw|]. constructor.
Qed.

Lemma sweep_typing_preserves fuel :
  preserves True (λ w, P (mgr w)) (sweep_typing tr now fuel).
Proof.
  apply preserves_get. intros m. apply preserves_for_each. intros r _.
  apply sweep_room_preserves.
Qed.

Lemma cleanup_pass_preserves fuel :
  preserves True (λ w, P (mgr w)) (cleanup_pass tr now fuel).
Proof.
  apply preserves_try; [|intros _; apply preserves_ret].
  apply preserves_bind; [apply reap_stale_preserves|intros _].
  apply sweep_typing_preserves.
Qed.

Lemma run_call_preserves fuel call :
  preserves True (λ w, P (mgr w)) (run_call tr now fuel call).
Proof.
  destruct call; cbn [run_call].
  - apply connect_preserves.
  - apply disconnect_preserves.
  - apply preserves_bind; [apply send_to_user_preserves|intros _; apply preserves_ret].
  - apply broadcast_to_room_preserves.
  - apply preserves_modify. intros w Hw. cbn. eapply P_api; [exact Hw|]. constructor.
  - apply preserves_modify. intros w Hw. cbn. eapply P_api; [exact Hw|]. constructor.
  - apply handle_typing_preserves.
  - apply handle_heartbeat_preserves.
  - apply cleanup_pass_preserves.
Qed.
End Stable.
End CallsAreSteps.

Lemma reachable_invariant (P : Manager → Prop) :
  P empty_manager →
  (∀ m m', P m → manager_step m m' → P m') →
  ∀ w, reachable w → P (mgr w).
Proof.
  intros H0 Hst w Hw. induction Hw as [|w tr now fuel call w' _ IH Hrun]; [exact H0|].
  pose proof (run_call_preserves tr now P) as Hp.
  specialize (Hp (λ m m' Hm Hs, Hst m m' Hm (ex_intro _ now (or_introl Hs)))
                 (λ m m' Hm Hs, Hst m m' Hm (ex_intro _ now (or_intror Hs)))
                 fuel call w IH).
  destruct (run_call tr now fuel call w); simpl in Hrun; by simplify_eq.
Qed.

(** ** Invariants of the manager *)

Ltac fields :=
  unfold register_connection, touch_heartbeat, touch_activity, _update_presence,
    expire_typing, with_connections, with_rooms, with_typing_status, with_presence,
    with_heartbeats, with_connection_meta in *;
  cbn [connections rooms typing_status presence heartbeats connection_meta
       mgr outbox] in *.

Section Invariants.

Lemma internal_step_connections now m m' u conns' :
  internal_step now m m' →
  connections m' !! u = Some conns' →
  ∃ conns, connections m !! u = Some conns ∧ conns' ⊆ conns.
Proof.
  intros Hstep Hu. destruct Hstep as [m c|m v conns c Hv Hc He|m v conns c Hv Hc Hne|m c|m c|m v].
  - fields. eauto.
  - fields. apply lookup_delete_Some in Hu as [_ Hu]. eauto.
  - fields. destruct (decide (v = u)) as [->|Hvu].
    + rewrite lookup_insert_eq in Hu. simplify_eq. eexists; split; [done|].
      apply delete_subseteq.
    + rewrite lookup_insert_ne in Hu by done. eauto.
  - fields. eauto.
  - fields. eauto.
  - destruct (remove_from_rooms_frame v m) as [Hc _]. rewrite Hc in Hu. eauto.
Qed.

Lemma internal_step_typing now m m' :
  internal_step now m m' → typing_status m' = typing_status m.
Proof.
  destruct 1; try (fields; reflexivity).
  by destruct (remove_from_rooms_frame user_id m) as (_ & ? & _).
Qed.

Lemma internal_step_no_empty_connection_entry now m m' :
  no_empty_connection_entry m → internal_step now m m' → no_empty_connection_entry m'.
Proof.
  intros Hinv Hstep u conns' Hu.
  destruct Hstep as [m c|m v conns c Hv Hc He|m v conns c Hv Hc Hne|m c|m c|m v].
  - fields. eauto.
  - fields. apply lookup_delete_Some in Hu as [_ Hu]. eauto.
  - fields. destruct (decide (v = u)) as [->|Hvu].
    + rewrite lookup_insert_eq in Hu. by simplify_eq.
    + rewrite lookup_insert_ne in Hu by done. eauto.
  - fields. eauto.
  - fields. eauto.
  - destruct (remove_from_rooms_frame v m) as [Hc _]. rewrite Hc in Hu. eauto.
Qed.

Lemma api_step_no_empty_connection_entry now m m' :
  no_empty_connection_entry m → api_step now m m' → no_empty_connection_entry m'.
Proof.
  intros Hinv Hstep u conns' Hu.
  destruct Hstep as [m ws v c dev| | | | |]; fields; eauto.
  destruct (decide (v = u)) as [->|Hvu].
  - rewrite lookup_insert_eq in Hu. simplify_eq. apply insert_non_empty.
  - rewrite lookup_insert_ne in Hu by done. eauto.
Qed.

Lemma drop_member_Some u s s' :
  drop_member u s = Some s' → s ≠ ∅ → s' ≠ ∅ ∧ s' ⊆ s ∧ (u ∈ s → u ∉ s').
Proof.
  unfold drop_member. intros Hd Hs.
  destruct (decide (u ∈ s)); [destruct (decide (s ∖ {[u]} = ∅))|];
    inversion Hd; subst; clear Hd; set_solver.
Qed.

Lemma internal_step_no_empty_room now m m' :
  no_empty_room m → internal_step now m m' → no_empty_room m'.
Proof.
  intros Hinv Hstep r s' Hr.
  destruct Hstep as [m c|m v conns c Hv Hc He|m v conns c Hv Hc Hne|m c|m c|m v];
    try (fields; by eauto).
  rewrite remove_from_rooms_rooms in Hr. case_decide; [by eauto|].
  apply lookup_omap_Some in Hr as (s & Hd & Hs).
  eapply drop_member_Some; eauto.
Qed.

Lemma api_step_no_empty_room now m m' :
  no_empty_room m → api_step now m m' → no_empty_room m'.
Proof.
  intros Hinv Hstep r s' Hr.
  destruct Hstep as [m ws v c dev|m r0 v|m r0 v| | |]; fields; eauto.
  - unfold add_member in Hr. destruct (decide (r0 = r)) as [->|Hne].
    + rewrite lookup_insert_eq in Hr. simplify_eq. set_solver.
    + rewrite lookup_insert_ne in Hr by done. eauto.
  - unfold remove_member in Hr.
    destruct (rooms m !! r0) as [s|] eqn:Hs; [|by eauto].
    case_decide as He.
    + apply lookup_delete_Some in Hr as [_ Hr]. eauto.
    + destruct (decide (r0 = r)) as [->|Hne].
      * rewrite lookup_insert_eq in Hr. by simplify_eq.
      * rewrite lookup_insert_ne in Hr by done. eauto.
Qed.

Lemma presence_consistent_frame m m' :
  presence m' = presence m → connections m' = connections m →
  presence_consistent m → presence_consistent m'.
Proof.
  intros Hp Hc Hinv u. specialize (Hinv u).
  unfold online_flag, active_connection_count, connections_of in *.
  by rewrite Hp, Hc.
Qed.

Lemma internal_step_presence_consistent now m m' :
  presence_consistent m → internal_step now m m' → presence_consistent m'.
Proof.
  intros Hinv Hstep.
  destruct Hstep as [m c|m v conns c Hv Hc He|m v conns c Hv Hc Hne|m c|m c|m v];
    try (by apply (presence_consistent_frame m)).
  - intros u. specialize (Hinv u).
    unfold online_flag, active_connection_count, connections_of in *. fields.
    destruct (decide (v = u)) as [->|Hvu].
    + rewrite lookup_insert_eq, lookup_delete_eq. simpl. rewrite map_size_empty.
      split; [done|lia].
    + by rewrite lookup_insert_ne, lookup_delete_ne by done.
  - intros u. specialize (Hinv u).
    unfold online_flag, active_connection_count, connections_of in *. fields.
    destruct (decide (v = u)) as [->|Hvu].
    + rewrite lookup_insert_eq. rewrite Hv in Hinv. simpl in *.
      assert (size conns ≠ 0)%nat.
      { apply map_size_non_empty_iff. intros ->. destruct Hc as [? Hc].
        by rewrite lookup_empty in Hc. }
      assert (size (delete c conns) ≠ 0)%nat by by apply map_size_non_empty_iff.
      split; [lia|]. intros _. apply Hinv. lia.
    + by rewrite lookup_insert_ne by done.
  - destruct (remove_from_rooms_frame v m) as (? & _ & ? & _).
    by apply (presence_consistent_frame m).
Qed.

Lemma api_step_presence_consistent now m m' :
  presence_consistent m → api_step now m m' → presence_consistent m'.
Proof.
  intros Hinv Hstep.
  destruct Hstep as [m ws v c dev| | | | |];
    try (by apply (presence_consistent_frame m)).
  intros u. specialize (Hinv u).
  unfold online_flag, active_connection_count, connections_of in *. fields.
  destruct (decide (v = u)) as [->|Hvu].
  - rewrite !lookup_insert_eq. simpl. split; [|done]. intros _.
    destruct (default ∅ (connections m !! u) !! c) eqn:Hcc.
    + rewrite map_size_insert_Some by eauto.
      assert (size (default ∅ (connections m !! u)) ≠ 0)%nat; [|lia].
      apply map_size_non_empty_iff. intros Hemp. rewrite Hemp in Hcc.
      by rewrite lookup_empty in Hcc.
    + rewrite map_size_insert_None by done. lia.
  - by rewrite !lookup_insert_ne by done.
Qed.

Lemma reachable_no_empty_connection_entry w :
  reachable w → no_empty_connection_entry (mgr w).
Proof.
  apply (reachable_invariant no_empty_connection_entry).
  - intros u conns Hu. unfold empty_manager in Hu. cbn [connections] in Hu.
    by rewrite lookup_empty in Hu.
  - intros m m' Hm [now [Hs|Hs]].
    + by eapply internal_step_no_empty_connection_entry.
    + by eapply api_step_no_empty_connection_entry.
Qed.

Lemma reachable_no_empty_room w : reachable w → no_empty_room (mgr w).
Proof.
  apply (reachable_invariant no_empty_room).
  - intros r s Hr. unfold empty_manager in Hr. cbn [rooms] in Hr.
    by rewrite lookup_empty in Hr.
  - intros m m' Hm [now [Hs|Hs]].
    + by eapply internal_step_no_empty_room.
    + by eapply api_step_no_empty_room.
Qed.

Lemma reachable_presence_consistent w : reachable w → presence_consistent (mgr w).
Proof.
  apply (reachable_invariant presence_consistent).
  - intros u. unfold online_flag, active_connection_count, connections_of.
    unfold empty_manager. cbn [connections presence].
    rewrite !lookup_empty. cbn [default from_option]. rewrite map_size_empty.
    split; [done|lia].
  - intros m m' Hm [now [Hs|Hs]].
    + by eapply internal_step_presence_consistent.
    + by eapply api_step_presence_consistent.
Qed.
End Invariants.

(** ** [disconnect] and [send_to_user] return *)

Section NeverRaises.

Lemma never_raises_ret {S A} (a : A) : never_raises (mret a : Coroutine S A).
Proof. by intros w e w'. Qed.

Lemma never_raises_bind {S A B} (m : Coroutine S A) (k : A → Coroutine S B) :
  never_raises m → (∀ a, never_raises (k a)) → never_raises (m ≫= k).
Proof.
  intros Hm Hk w e w'. rewrite bind_run. specialize (Hm w).
  destruct (m w) as [a w1|e1 w1|]; [apply Hk|by destruct (Hm e1 w1)|done].
Qed.

Lemma never_raises_try {S A} (body : Coroutine S A) (handler : Exn → Coroutine S A) :
  (∀ e, never_raises (handler e)) → never_raises (try_except body handler).
Proof.
  intros Hh w e w'. unfold try_except.
  destruct (body w) as [a w1|e1 w1|]; [done|apply Hh|done].
Qed.

Lemma never_raises_for_each {S X} (body : X → Coroutine S unit) (xs : list X) :
  (∀ x, never_raises (body x)) → never_raises (for_each body xs).
Proof.
  intros Hb. induction xs as [|x xs IH]; simpl.
  - apply never_raises_ret.
  - apply never_raises_bind; auto.
Qed.

Lemma never_raises_fold_each {S X B} (body : B → X → Coroutine S B) (acc : B)
    (xs : list X) :
  (∀ b x, never_raises (body b x)) → never_raises (fold_each body acc xs).
Proof.
  intros Hb. revert acc. induction xs as [|x xs IH]; intros acc; simpl.
  - apply never_raises_ret.
  - apply never_raises_bind; auto.
Qed.

Lemma disconnect_never_raises tr now fuel c u :
  never_raises (disconnect tr now fuel c u).
Proof.
  destruct fuel as [|fuel]; [by intros w e w'|].
  cbn [disconnect]. apply never_raises_try. intros _. apply never_raises_ret.
Qed.

Lemma send_to_user_never_raises tr now fuel u msg :
  never_raises (send_to_user tr now fuel u msg).
Proof.
  unfold send_to_user, send_to_user_open.
  apply never_raises_bind; [by intros w e w'|intros m].
  destruct (connections m !! u); [|apply never_raises_ret].
  apply never_raises_bind.
  - apply never_raises_fold_each. intros b x. apply never_raises_try.
    intros _. apply never_raises_ret.
  - intros acc. apply never_raises_bind; [|intros _; apply never_raises_ret].
    apply never_raises_for_each. intros c. apply disconnect_never_raises.
Qed.
End NeverRaises.

Section Termination.
Context (tr : Transport) (now : Z).

Lemma few_users_outbox n w ws msg :
  few_users n w → few_users n (mkWorld (mgr w) (outbox w ++ [(ws, msg)])).
Proof. done. Qed.

Lemma few_users_touch n w c :
  few_users n w → few_users n (mkWorld (touch_activity now c (mgr w)) (outbox w)).
Proof. done. Qed.

Lemma unregister_connection_terminates rec n c u :
  (∀ n', (S n' ≤ n)%nat → ∀ c u, preserves False (few_users n') (rec c u)) →
  preserves False (few_users n) (unregister_connection tr now rec c u).
Proof.
  intros Hrec w Hw. unfold unregister_connection. rewrite bind_run. cbn [get_mgr].
  destruct (connections (mgr w) !! u) as [conns|] eqn:Hu; [|exact Hw].
  destruct (decide (is_Some (conns !! c))) as [Hc|]; [|exact Hw].
  destruct (decide (delete c conns = ∅)) as [He|Hne].
  - rewrite bind_run. cbn [modify_mgr].
    set (w1 := mkWorld _ _).
    assert (Hsz : S (size (connections (mgr w1))) = size (connections (mgr w))).
    { subst w1. fields. rewrite map_size_delete_Some by eauto.
      assert (size (connections (mgr w)) ≠ 0)%nat; [|lia].
      apply map_size_non_empty_iff. intros Hemp. rewrite Hemp in Hu.
      by rewrite lookup_empty in Hu. }
    unfold few_users in Hw.
    destruct n as [|n']; [lia|].
    pose proof (preserves_broadcast_presence_open tr now False (few_users n') rec
                  (Hrec n' (le_n _)) (few_users_outbox n') (few_users_touch n')
                  u false w1) as Hb.
    destruct (_broadcast_presence_update_open tr now rec u false w1);
      unfold few_users in *; [| |apply Hb; lia]; specialize (Hb ltac:(lia)); lia.
  - cbn. unfold few_users in *. fields.
    rewrite map_size_insert_Some by eauto. done.
Qed.

Lemma disconnect_terminates fuel : ∀ n c u,
  (n < fuel)%nat → preserves False (few_users n) (disconnect tr now fuel c u).
Proof.
  induction fuel as [|fuel IH]; intros n c u Hn; [lia|].
  cbn [disconnect]. unfold disconnect_body.
  apply preserves_try; [|intros _; apply preserves_ret].
  unfold disconnect_try.
  apply preserves_bind; [|intros _].
  { apply unregister_connection_terminates. intros n' Hn' c' u'. apply IH. lia. }
  apply preserves_bind; [by apply preserves_modify|intros _].
  apply preserves_bind; [by apply preserves_modify|intros _].
  apply preserves_modify. intros w Hw. unfold few_users in *. cbn.
  by destruct (remove_from_rooms_frame u (mgr w)) as [-> _].
Qed.

Lemma send_to_user_terminates fuel n u msg :
  (n < fuel)%nat → preserves False (few_users n) (send_to_user tr now fuel u msg).
Proof.
  intros Hn. apply preserves_send_to_user_open;
    auto using disconnect_terminates, few_users_outbox, few_users_touch.
Qed.

Lemma broadcast_to_room_terminates fuel n r msg excl :
  (n < fuel)%nat →
  preserves False (few_users n) (broadcast_to_room tr now fuel r msg excl).
Proof.
  intros Hn. apply preserves_broadcast_to_room_open;
    auto using disconnect_terminates, few_users_outbox, few_users_touch.
Qed.

Lemma disconnect_returns fuel c u w :
  (size (connections (mgr w)) < fuel)%nat →
  ∃ w', disconnect tr now fuel c u w = Ok tt w'.
Proof.
  intros Hf.
  pose proof (disconnect_terminates fuel _ c u Hf w (le_n _)) as Ht.
  pose proof (disconnect_never_raises tr now fuel c u w) as Hr.
  destruct (disconnect tr now fuel c u w) as [[] w'|e w'|]; [eauto| |done].
  by destruct (Hr e w').
Qed.

Lemma send_to_user_returns fuel u msg w :
  (size (connections (mgr w)) < fuel)%nat →
  ∃ b w', send_to_user tr now fuel u msg w = Ok b w'.
Proof.
  intros Hf.
  pose proof (send_to_user_terminates fuel _ u msg Hf w (le_n _)) as Ht.
  pose proof (send_to_user_never_raises tr now fuel u msg w) as Hr.
  destruct (send_to_user tr now fuel u msg w) as [b w'|e w'|]; [eauto| |done].
  by destruct (Hr e w').
Qed.
End Termination.

(** ** The three cases of [disconnect] *)

Section DisconnectCases.
Context (tr : Transport) (now : Z).

Lemma forget_connection_run c u w :
  (modify_mgr (with_connection_meta (delete c)) ;;
   modify_mgr (with_heartbeats (delete c)) ;;
   modify_mgr (remove_from_rooms u)) w =
  Ok tt (mkWorld (forget_connection c u (mgr w)) (outbox w)).
Proof. reflexivity. Qed.

Lemma forget_connection_evolves c u m0 m :
  evolves now m0 m → evolves now m0 (forget_connection c u m).
Proof.
  intros H. unfold forget_connection.
  eapply rtc_r; [|apply step_rooms].
  eapply rtc_r; [|apply step_heartbeat].
  eapply rtc_r; [exact H|apply step_meta].
Qed.

Lemma disconnect_unregistered fuel c u w :
  connections_of (mgr w) u !! c = None →
  disconnect tr now (S fuel) c u w =
    Ok tt (mkWorld (forget_connection c u (mgr w)) (outbox w)).
Proof.
  intros Hc. cbn [disconnect]. unfold disconnect_body, try_except, disconnect_try.
  rewrite bind_run. unfold unregister_connection. rewrite bind_run. cbn [get_mgr].
  unfold connections_of in Hc.
  destruct (connections (mgr w) !! u) as [conns|]; simpl in Hc.
  - rewrite decide_False; [|rewrite Hc; by intros [? ?]].
    cbn [mret Coroutine_ret]. by rewrite forget_connection_run.
  - cbn [mret Coroutine_ret]. by rewrite forget_connection_run.
Qed.

Lemma disconnect_not_last fuel c u w conns :
  connections (mgr w) !! u = Some conns →
  is_Some (conns !! c) →
  delete c conns ≠ ∅ →
  disconnect tr now (S fuel) c u w =
    Ok tt (mkWorld (forget_connection c u
                      (with_connections <[u := delete c conns]> (mgr w)))
                   (outbox w)).
Proof.
  intros Hu Hc Hne. cbn [disconnect]. unfold disconnect_body, try_except, disconnect_try.
  rewrite bind_run. unfold unregister_connection. rewrite bind_run. cbn [get_mgr].
  rewrite Hu. rewrite decide_True by done. rewrite decide_False by done.
  cbn [modify_mgr]. by rewrite forget_connection_run.
Qed.

Lemma disconnect_last fuel c u w conns w' :
  connections (mgr w) !! u = Some conns →
  is_Some (conns !! c) →
  delete c conns = ∅ →
  final_world (disconnect tr now fuel c u w) = Some w' →
  evolves now (_update_presence now u false (with_connections (delete u) (mgr w)))
              (mgr w').
Proof.
  intros Hu Hc He. destruct fuel as [|fuel]; [done|].
  cbn [disconnect]. unfold disconnect_body, try_except, disconnect_try.
  rewrite bind_run. unfold unregister_connection. rewrite bind_run. cbn [get_mgr].
  rewrite Hu. rewrite decide_True by done. rewrite decide_True by done.
  rewrite bind_run. cbn [modify_mgr].
  set (w1 := mkWorld _ (outbox w)).
  pose proof (broadcast_presence_evolves tr now fuel (mgr w1) u false w1
                (rtc_refl _ _)) as Hb.
  unfold _broadcast_presence_update in Hb.
  destruct (_broadcast_presence_update_open tr now (disconnect tr now fuel) u false w1)
    as [[] w2|e w2|]; [| |done].
  - rewrite forget_connection_run. cbn [final_world]. intros [= <-].
    cbn [mgr]. by apply forget_connection_evolves.
  - cbn. by intros [= <-].
Qed.
End DisconnectCases.

Lemma reachable_exec tr now call w : reachable w → reachable (exec tr now call w).
Proof.
  intros Hw. unfold exec, after.
  destruct (run_call tr now 8 call w) as [a w'|e w'|] eqn:Hrun; [| |done].
  - eapply reachable_call; [exact Hw|]. by rewrite Hrun.
  - eapply reachable_call; [exact Hw|]. by rewrite Hrun.
Qed.

(** ** Presence records *)

Section Presence.

Lemma forget_connection_frame c u m :
  connections (forget_connection c u m) = connections m ∧
  typing_status (forget_connection c u m) = typing_status m ∧
  presence (forget_connection c u m) = presence m.
Proof.
  unfold forget_connection.
  destruct (remove_from_rooms_frame u
              (with_heartbeats (delete c) (with_connection_meta (delete c) m)))
    as (-> & -> & -> & _).
  done.
Qed.

Lemma internal_step_presence_record now m m' :
  presence_record_consistent m → internal_step now m m' →
  presence_record_consistent m'.
Proof.
  intros Hinv Hstep u p Hp.
  destruct Hstep as [m c|m v conns c Hv Hc He|m v conns c Hv Hc Hne|m c|m c|m v];
    try (fields; by eauto).
  - fields. destruct (decide (v = u)) as [->|Hvu].
    + rewrite lookup_insert_eq in Hp. simplify_eq. cbn.
      rewrite lookup_delete_eq. cbn. rewrite map_size_empty. split; [done|lia].
    + rewrite lookup_insert_ne in Hp by done. eauto.
  - destruct (remove_from_rooms_frame v m) as (_ & _ & Hpr & _).
    rewrite Hpr in Hp. eauto.
Qed.

Lemma api_step_presence_record now m m' :
  presence_record_consistent m → api_step now m m' →
  presence_record_consistent m'.
Proof.
  intros Hinv Hstep u p Hp.
  destruct Hstep as [m ws v c dev| | | | |]; fields; eauto.
  destruct (decide (v = u)) as [->|Hvu].
  - rewrite lookup_insert_eq in Hp. simplify_eq. cbn.
    rewrite lookup_insert_eq. cbn. split; [|done]. intros _.
    assert (size (<[c:=ws]> (default ∅ (connections m !! u))) ≠ 0)%nat; [|lia].
    apply map_size_non_empty_iff, insert_non_empty.
  - rewrite lookup_insert_ne in Hp by done. eauto.
Qed.

Lemma reachable_presence_record w :
  reachable w → presence_record_consistent (mgr w).
Proof.
  apply (reachable_invariant presence_record_consistent).
  - intros u p Hp. unfold empty_manager in Hp. cbn [presence] in Hp.
    by rewrite lookup_empty in Hp.
  - intros m m' Hm [now [Hs|Hs]].
    + by eapply internal_step_presence_record.
    + by eapply api_step_presence_record.
Qed.

(** Once a user is offline, the nested coroutines leave its presence record
    alone. *)
Lemma internal_step_offline_record now I p m m' :
  connections m !! I = None ∧ presence m !! I = Some p →
  internal_step now m m' →
  connections m' !! I = None ∧ presence m' !! I = Some p.
Proof.
  intros [Hc Hp] Hstep.
  destruct Hstep as [m c|m v conns c Hv Hcc He|m v conns c Hv Hcc Hne|m c|m c|m v];
    try (fields; by eauto).
  - assert (v ≠ I) by (intros ->; congruence).
    fields. by rewrite lookup_delete_ne, lookup_insert_ne.
  - assert (v ≠ I) by (intros ->; congruence).
    fields. by rewrite lookup_insert_ne.
  - by destruct (remove_from_rooms_frame v m) as (-> & _ & -> & _).
Qed.

Lemma disconnect_all_offline tr fuel I : ∀ calls w conns c_last t_last,
  connections (mgr w) !! I = Some conns →
  calls.*1 ≡ₚ (map_to_list conns).*1 →
  last calls = Some (c_last, t_last) →
  (size (connections (mgr w)) < fuel)%nat →
  ∃ w', disconnect_all tr fuel I calls w = Ok tt w' ∧
        connections (mgr w') !! I = None ∧
        presence (mgr w') !! I = Some (mkPresence false t_last 0).
Proof.
  induction calls as [|[c t] rest IH]; intros w conns c_last t_last HI Hperm Hlast Hfuel;
    [done|].
  assert (Hc : is_Some (conns !! c)).
  { assert (c ∈ (map_to_list conns).*1) as Hin by (rewrite <-Hperm; left).
    apply list_elem_of_fmap in Hin as [[c' ws] [-> Hin]].
    apply elem_of_map_to_list in Hin. eauto. }
  destruct Hc as [ws Hc].
  assert (Hkeys : rest.*1 ≡ₚ (map_to_list (delete c conns)).*1).
  { apply (Permutation_cons_inv (a := c)).
    etrans; [exact Hperm|].
    rewrite <-(map_to_list_delete conns c ws Hc). done. }
  unfold disconnect_all. cbn [for_each]. rewrite bind_run. cbn [fst snd].
  destruct rest as [|call2 rest'].
  - cbn in Hlast. simplify_eq.
    assert (He : delete c_last conns = ∅).
    { apply map_to_list_empty_iff. apply Permutation_nil_l in Hkeys.
      symmetry in Hkeys. by apply fmap_nil_inv in Hkeys. }
    destruct (disconnect_returns tr t_last fuel c_last I w Hfuel) as [w' Hrun].
    rewrite Hrun. eexists. split; [reflexivity|].
    eapply (evolves_stable t_last
              (λ m, connections m !! I = None ∧
                    presence m !! I = Some (mkPresence false t_last 0))).
    + intros m m'. apply internal_step_offline_record.
    + eapply disconnect_last; eauto. by rewrite Hrun.
    + fields. rewrite lookup_delete_eq, lookup_insert_eq. cbn.
      by rewrite map_size_empty.
  - assert (Hne : delete c conns ≠ ∅).
    { intros He. rewrite He, map_to_list_empty in Hkeys.
      by apply Permutation_nil_r in Hkeys. }
    destruct fuel as [|fuel]; [lia|].
    rewrite (disconnect_not_last tr t fuel c I w conns) by eauto.
    set (w1 := mkWorld _ _).
    destruct (forget_connection_frame c I
                (with_connections <[I := delete c conns]> (mgr w))) as (Hcs & _ & _).
    destruct (IH w1 (delete c conns) c_last t_last) as (w' & Hrun & Hres); try done.
    + subst w1. cbn [mgr]. rewrite Hcs. fields. by rewrite lookup_insert_eq.
    + subst w1. cbn [mgr]. rewrite Hcs. fields.
      rewrite map_size_insert_Some by eauto. done.
    + exists w'. split; [exact Hrun|exact Hres].
Qed.
End Presence.

(** ** The two loops of [send_to_user] *)

Section SendToUser.
Context (tr : Transport) (now : Z).

Lemma fold_send_one msg : ∀ items acc w,
  ∃ w1,
    fold_each (send_one tr now msg) acc items w =
      Ok (acc.1 ++ (filter (λ p : string * WebSocket, send_ok tr p.2 msg = false) items).*1,
          (acc.2 + length (filter (λ p : string * WebSocket, send_ok tr p.2 msg = true) items))%nat)
         w1 ∧
    connections (mgr w1) = connections (mgr w) ∧
    typing_status (mgr w1) = typing_status (mgr w) ∧
    rooms (mgr w1) = rooms (mgr w) ∧
    presence (mgr w1) = presence (mgr w).
Proof.
  induction items as [|[c ws] items IH]; intros [dead n] w; cbn [fold_each fst snd].
  - exists w. rewrite filter_nil. cbn. by rewrite app_nil_r, Nat.add_0_r.
  - rewrite bind_run. unfold send_one at 1. unfold try_except.
    rewrite bind_run. unfold send_json. cbn [fst snd].
    destruct (send_ok tr ws msg) eqn:Hs.
    + rewrite bind_run. cbn [modify_mgr mret Coroutine_ret].
      set (w2 := mkWorld _ _).
      destruct (IH (dead, S n) w2) as (w1 & -> & Hc & Ht & Hr & Hp).
      exists w1. rewrite filter_cons_False by (cbn; congruence).
      rewrite filter_cons_True by done. cbn [fst snd length].
      split; [do 2 f_equal; lia|]. by rewrite Hc, Ht, Hr, Hp.
    + cbn [mret Coroutine_ret].
      destruct (IH (dead ++ [c], n) w) as (w1 & -> & Hc).
      exists w1. rewrite filter_cons_True by done.
      rewrite filter_cons_False by (cbn; congruence).
      cbn [fst snd]. rewrite fmap_cons, <-app_assoc. done.
Qed.

Lemma evolves_connection_absent m m' u c :
  evolves now m m' →
  connections_of m u !! c = None → connections_of m' u !! c = None.
Proof.
  intros Hev. induction Hev as [|m1 m2 m3 Hstep _ IH]; [done|].
  intros Habs. apply IH. unfold connections_of in *.
  destruct (connections m2 !! u) as [conns2|] eqn:H2; [|done]. simpl.
  destruct (internal_step_connections _ _ _ _ _ Hstep H2) as (conns1 & H1 & Hsub).
  rewrite H1 in Habs. simpl in Habs.
  destruct (conns2 !! c) eqn:Hc; [|done].
  eapply lookup_weaken in Hc; [|exact Hsub]. congruence.
Qed.

Lemma disconnect_removes fuel c u w w' :
  disconnect tr now fuel c u w = Ok tt w' →
  connections_of (mgr w') u !! c = None.
Proof.
  intros Hrun. destruct fuel as [|fuel]; [done|].
  destruct (connections_of (mgr w) u !! c) as [ws|] eqn:Hreg.
  - unfold connections_of in Hreg.
    destruct (connections (mgr w) !! u) as [conns|] eqn:Hu; [|done]. simpl in Hreg.
    destruct (decide (delete c conns = ∅)) as [He|Hne].
    + eapply evolves_connection_absent.
      * eapply (disconnect_last tr now (S fuel) c u w conns w'); eauto.
        by rewrite Hrun.
      * unfold connections_of. fields. by rewrite lookup_delete_eq.
    + rewrite (disconnect_not_last tr now fuel c u w conns) in Hrun by eauto.
      injection Hrun as <-. unfold connections_of. cbn [mgr].
      destruct (forget_connection_frame c u
                  (with_connections <[u := delete c conns]> (mgr w))) as (-> & _).
      fields. rewrite lookup_insert_eq. simpl. apply lookup_delete_eq.
  - rewrite disconnect_unregistered in Hrun by done.
    injection Hrun as <-. unfold connections_of in *. cbn [mgr].
    by destruct (forget_connection_frame c u (mgr w)) as (-> & _).
Qed.


End SendToUser.

(** ** Who touches [typing_status] *)

Section TypingFrame.
Context (tr : Transport) (now : Z).

Lemma typing_stable ts m m' :
  typing_status m = ts → internal_step now m m' → typing_status m' = ts.
Proof. intros <- Hstep. by eapply internal_step_typing. Qed.

Lemma broadcast_to_room_leaves_typing fuel r msg excl ts :
  preserves True (λ w, typing_status (mgr w) = ts)
    (broadcast_to_room tr now fuel r msg excl).
Proof.
  apply (broadcast_to_room_preserves tr now (λ m, typing_status m = ts)).
  intros m m'. apply typing_stable.
Qed.


Lemma disconnect_leaves_typing fuel c u ts :
  preserves True (λ w, typing_status (mgr w) = ts) (disconnect tr now fuel c u).
Proof.
  apply (disconnect_preserves tr now (λ m, typing_status m = ts)).
  intros m m'. apply typing_stable.
Qed.

(** The MESSAGE branch of the endpoint never touches [typing_status]. *)
Lemma message_event_leaves_typing fuel s conv content ts :
  preserves True (λ w, typing_status (mgr w) = ts)
    (Router.on_event tr now fuel s (Router.MessageEvent conv content)).
Proof.
  unfold Router.on_event. apply preserves_try.
  - cbn [Router.dispatch].
    destruct (Router.truthy_id conv); [|apply preserves_ret].
    destruct (Router.truthy_text content); [|apply preserves_ret].
    apply preserves_bind; [apply broadcast_to_room_leaves_typing|intros _].
    apply preserves_send_json. by intros.
  - intros _. apply preserves_send_json. by intros.
Qed.
End TypingFrame.

(** ** The final cleanup of [disconnect] *)

Section DisconnectCleanup.
Context (tr : Transport) (now : Z).

Lemma forget_connection_fields c u m :
  forget_connection c u m =
    mkManager (connections m)
      (if decide (is_Some (connections m !! u)) then rooms m
       else omap (drop_member u) (rooms m))
      (typing_status m) (presence m)
      (delete c (heartbeats m)) (delete c (connection_meta m)).
Proof.
  unfold forget_connection.
  set (m1 := with_heartbeats _ _).
  destruct (remove_from_rooms_frame u m1) as (Hc & Ht & Hp & Hh & Hm).
  apply manager_eq; cbn [connections rooms typing_status presence heartbeats
                          connection_meta]; try done.
  by rewrite remove_from_rooms_rooms.
Qed.

Lemma drop_member_not_in u s s' : drop_member u s = Some s' → u ∉ s'.
Proof.
  unfold drop_member. intros Hd.
  destruct (decide (u ∈ s)) as [Hin|Hnin];
    [destruct (decide (s ∖ {[u]} = ∅))|]; inversion Hd; subst; clear Hd.
  - intros [_ Hn]%elem_of_difference. apply Hn. by apply elem_of_singleton.
  - done.
Qed.

Lemma drop_member_absent u s : u ∉ s → drop_member u s = Some s.
Proof. intros Hn. unfold drop_member. by rewrite decide_False. Qed.

Lemma omap_drop_member_absent u (rs : gmap string (gset Z)) :
  (∀ r s, rs !! r = Some s → u ∉ s) → omap (drop_member u) rs = rs.
Proof.
  intros Habs. apply map_eq. intros r. rewrite lookup_omap.
  destruct (rs !! r) as [s|] eqn:Hr; [|done]. cbn.
  apply drop_member_absent. eauto.
Qed.

Lemma forget_connection_noop c u m :
  connection_meta m !! c = None →
  heartbeats m !! c = None →
  is_Some (connections m !! u) ∨ (∀ r s, rooms m !! r = Some s → u ∉ s) →
  forget_connection c u m = m.
Proof.
  intros Hm Hh Hr. rewrite forget_connection_fields.
  apply manager_eq; cbn [connections rooms typing_status presence heartbeats
                          connection_meta]; try done.
  - case_decide as Hon; [done|]. destruct Hr as [Hr|Hr]; [done|].
    by apply omap_drop_member_absent.
  - by apply delete_id.
  - by apply delete_id.
Qed.

Lemma forget_connection_settled c u m :
  forget_connection c u (forget_connection c u m) = forget_connection c u m.
Proof.
  apply forget_connection_noop.
  - rewrite forget_connection_fields. cbn [connection_meta]. apply lookup_delete_eq.
  - rewrite forget_connection_fields. cbn [heartbeats]. apply lookup_delete_eq.
  - rewrite forget_connection_fields. cbn [connections rooms].
    case_decide as Hon; [by left|right].
    intros r s' (s & Hs & Hd)%lookup_omap_Some. by eapply drop_member_not_in.
Qed.

(** When the [try] block of [disconnect] runs to its end, the world it
    leaves has been through the final cleanup of lines 117-128. *)
Lemma disconnect_try_complete rec c u w w' :
  disconnect_try tr now rec c u w = Ok tt w' →
  ∃ w2, unregister_connection tr now rec c u w = Ok tt w2 ∧
        w' = mkWorld (forget_connection c u (mgr w2)) (outbox w2).
Proof.
  unfold disconnect_try. rewrite bind_run.
  destruct (unregister_connection tr now rec c u w) as [[] w2|e w2|]; [|done|done].
  rewrite forget_connection_run. intros [= <-]. eauto.
Qed.

Lemma disconnect_of_try fuel c u w w' :
  disconnect_try tr now (disconnect tr now fuel) c u w = Ok tt w' →
  disconnect tr now (S fuel) c u w = Ok tt w'.
Proof.
  intros Htry. cbn [disconnect]. unfold disconnect_body, try_except. by rewrite Htry.
Qed.

Lemma disconnect_again fuel c u w w' :
  disconnect_try tr now (disconnect tr now fuel) c u w = Ok tt w' →
  ∀ tr' now' fuel', disconnect tr' now' (S fuel') c u w' = Ok tt w'.
Proof.
  intros Htry tr' now' fuel'.
  pose proof (disconnect_removes tr now (S fuel) c u w w' (disconnect_of_try _ _ _ _ _ Htry))
    as Habs.
  apply disconnect_try_complete in Htry as (w2 & _ & ->).
  rewrite disconnect_unregistered by exact Habs.
  cbn [mgr outbox]. by rewrite forget_connection_settled.
Qed.

Lemma disconnect_still_online fuel c u w c' ws :
  c' ≠ c →
  connections_of (mgr w) u !! c' = Some ws →
  ∃ w', disconnect tr now (S fuel) c u w = Ok tt w' ∧
        rooms (mgr w') = rooms (mgr w) ∧
        is_user_online (mgr w') u = true.
Proof.
  intros Hne Hc'. unfold connections_of in Hc'.
  destruct (connections (mgr w) !! u) as [conns|] eqn:Hu; [|done]. simpl in Hc'.
  destruct (conns !! c) as [ws0|] eqn:Hreg.
  - assert (delete c conns ≠ ∅) as Hnemp.
    { intros He. assert (delete c conns !! c' = Some ws) as Hl
        by by rewrite lookup_delete_ne.
      by rewrite He, lookup_empty in Hl. }
    rewrite (disconnect_not_last tr now fuel c u w conns) by eauto.
    eexists. split; [reflexivity|]. cbn [mgr].
    rewrite forget_connection_fields. cbn [rooms connections]. fields.
    rewrite lookup_insert_eq. rewrite decide_True by eauto. split; [done|].
    unfold is_user_online. cbn [connections]. rewrite lookup_insert_eq.
    apply bool_decide_eq_true. apply map_size_non_empty_iff in Hnemp. lia.
  - rewrite disconnect_unregistered by (unfold connections_of; by rewrite Hu).
    eexists. split; [reflexivity|]. cbn [mgr].
    rewrite forget_connection_fields. cbn [rooms connections].
    rewrite Hu. rewrite decide_True by eauto. split; [done|].
    unfold is_user_online. cbn [connections]. rewrite Hu.
    apply bool_decide_eq_true.
    assert (size conns ≠ 0)%nat; [|lia].
    apply map_size_non_empty_iff. intros ->. by rewrite lookup_empty in Hc'.
Qed.

Lemma disconnect_complete_offline fuel c u w w' :
  disconnect_try tr now (disconnect tr now fuel) c u w = Ok tt w' →
  connections (mgr w') !! u = None →
  ∀ R, u ∉ get_room_members (mgr w') R.
Proof.
  intros Htry Hoff R.
  apply disconnect_try_complete in Htry as (w2 & _ & ->).
  cbn [mgr] in *. rewrite forget_connection_fields in *.
  cbn [connections rooms] in *. unfold get_room_members. cbn [rooms].
  rewrite decide_False by (rewrite Hoff; by intros [? ?]).
  destruct (omap (drop_member u) (rooms (mgr w2)) !! R) as [s'|] eqn:HR; simpl.
  - apply lookup_omap_Some in HR as (s & Hs & Hd). by eapply drop_member_not_in.
  - apply not_elem_of_empty.
Qed.
End DisconnectCleanup.

(** ** [ChatConnectionManager]: typing records and room cleanup *)

Section ChatFacts.
Import ChatConnectionManager.
Context (tr : ChatTransport) (now : Z).

Lemma chat_preserves_get {A} oof (I : ChatWorld → Prop) (k : ChatManager → C A) :
  (∀ m, preserves oof I (k m)) → preserves oof I (get_chat ≫= k).
Proof. intros Hk w Hw. rewrite bind_run. simpl. by apply Hk. Qed.

Lemma chat_preserves_modify oof (I : ChatWorld → Prop) (f : ChatManager → ChatManager) :
  (∀ w, I w → I (mkChatWorld (f (chat w)) (delivered w) (published w))) →
  preserves oof I (modify_chat f).
Proof. intros Hf w Hw. simpl. by apply Hf. Qed.

Lemma leave_one_room_typing u m r :
  typing_users (leave_one_room u m r) = typing_users m.
Proof.
  unfold leave_one_room. destruct (room_members m !! r); [|done].
  by repeat case_decide.
Qed.

Lemma leave_all_rooms_typing u m :
  typing_users (leave_all_rooms u m) = typing_users m.
Proof.
  unfold leave_all_rooms.
  generalize ((map_to_list (room_members m)).*1). intros ks. revert m.
  induction ks as [|k ks IH]; intros m; simpl; [done|].
  by rewrite IH, leave_one_room_typing.
Qed.

Lemma leave_one_room_members u m r :
  room_members (leave_one_room u m r) =
    match room_members m !! r with
    | Some s =>
        match drop_member u s with
        | Some s' => <[r := s']> (room_members m)
        | None => delete r (room_members m)
        end
    | None => room_members m
    end.
Proof.
  unfold leave_one_room, drop_member.
  destruct (room_members m !! r) as [s|] eqn:Hr; [|done].
  repeat case_decide; simpl; try done. by rewrite insert_id.
Qed.

Lemma foldl_leave_one_room u ks : ∀ m,
  NoDup ks →
  room_members (foldl (leave_one_room u) m ks) =
    map_imap (λ r s, if decide (r ∈ ks) then drop_member u s else Some s) (room_members m).
Proof.
  induction ks as [|k ks IH]; intros m Hnd; simpl.
  - apply map_eq. intros i. rewrite map_lookup_imap.
    destruct (room_members m !! i); simpl; [|done].
    first [done | case_decide as Hin; [by apply elem_of_nil in Hin | done]].
  - apply NoDup_cons in Hnd as [Hk Hnd].
    rewrite IH by done. rewrite leave_one_room_members.
    apply map_eq. intros i. rewrite !map_lookup_imap.
    destruct (decide (i = k)) as [->|Hik].
    + destruct (room_members m !! k) as [s|] eqn:Hs; simpl.
      * rewrite (decide_True (P := k ∈ k :: ks)); [|left].
        destruct (drop_member u s) as [s'|] eqn:Hd.
        -- rewrite lookup_insert_eq. simpl. by rewrite decide_False.
        -- by rewrite lookup_delete_eq.
      * by rewrite Hs.
    + assert (Hi : ∀ rs' : gmap Z (gset Z), rs' !! i = room_members m !! i →
                rs' !! i ≫= (λ s, if decide (i ∈ ks) then drop_member u s else Some s) =
                room_members m !! i ≫=
                  (λ s, if decide (i ∈ k :: ks) then drop_member u s else Some s)).
      { intros rs' ->. destruct (room_members m !! i); simpl; [|done].
        destruct (decide (i ∈ ks)) as [Hin|Hnin].
        - rewrite decide_True; [done|by right].
        - rewrite decide_False; [done|]. intros [?|?]%elem_of_cons; done. }
      apply Hi.
      destruct (room_members m !! k) as [s|]; [|done].
      destruct (drop_member u s).
      * by rewrite lookup_insert_ne.
      * by rewrite lookup_delete_ne.
Qed.

Lemma leave_all_rooms_members u m :
  room_members (leave_all_rooms u m) = omap (drop_member u) (room_members m).
Proof.
  unfold leave_all_rooms. rewrite foldl_leave_one_room by apply NoDup_fst_map_to_list.
  apply map_eq. intros i. rewrite map_lookup_imap, lookup_omap.
  destruct (room_members m !! i) as [s|] eqn:Hs; simpl; [|done].
  rewrite decide_True; [done|].
  apply list_elem_of_fmap. exists (i, s). split; [done|]. by apply elem_of_map_to_list.
Qed.

(** A [disconnect] that returns ends with the loop over the rooms. *)
Lemma chat_disconnect_leaves_all_rooms fuel ws u w w' :
  disconnect tr now fuel ws u w = Ok tt w' →
  ∀ R, u ∉ default ∅ (room_members (chat w') !! R).
Proof.
  destruct fuel as [|fuel]; [done|].
  cbn [disconnect]. unfold disconnect_body. rewrite bind_run.
  destruct (drop_socket tr now (disconnect tr now fuel) ws u w) as [[] w2|e w2|];
    [|done|done].
  cbn [modify_chat]. intros [= <-] R. cbn [chat].
  rewrite leave_all_rooms_members.
  destruct (omap (drop_member u) (room_members (chat w2)) !! R) as [s'|] eqn:HR; simpl.
  - apply lookup_omap_Some in HR as (s & Hs & Hd). by eapply drop_member_not_in.
  - apply not_elem_of_empty.
Qed.

Section ChatTyping.
Context (ts : gmap Z (gmap Z Z)).
Let I : ChatWorld → Prop := λ w, typing_users (chat w) = ts.

Lemma chat_send_json_typing ws msg : preserves True I (send_json tr ws msg).
Proof. intros w Hw. unfold send_json. by destruct (send_ok _ _ _). Qed.

Section ChatOpen.
Context (rec : WebSocket → Z → C unit).
Hypothesis rec_typing : ∀ ws u, preserves True I (rec ws u).

Lemma chat_send_personal_message_typing msg u :
  preserves True I (send_personal_message_open tr rec msg u).
Proof.
  apply chat_preserves_get. intros m.
  destruct (active_connections m !! u); [|apply preserves_ret].
  apply preserves_bind.
  - apply preserves_fold_each. intros dead ws _. apply preserves_try.
    + apply preserves_bind; [apply chat_send_json_typing|intros _; apply preserves_ret].
    + intros _. apply preserves_ret.
  - intros dead. apply preserves_for_each. intros ws _. apply rec_typing.
Qed.

Lemma chat_broadcast_to_room_typing conv msg excl :
  preserves True I (broadcast_to_room_open tr rec conv msg excl).
Proof.
  apply chat_preserves_get. intros m.
  destruct (room_members m !! conv); [|apply preserves_ret].
  apply preserves_for_live. intros u _.
  destruct (excluded excl u); [apply preserves_ret|].
  apply chat_send_personal_message_typing.
Qed.

Lemma chat_broadcast_presence_typing u online :
  preserves True I (broadcast_presence_open tr now rec u online).
Proof.
  apply chat_preserves_get. intros m. apply preserves_for_live. intros r _.
  apply chat_preserves_get. intros m'.
  case_decide; [apply chat_broadcast_to_room_typing|apply preserves_ret].
Qed.

Lemma chat_disconnect_body_typing ws u :
  preserves True I (disconnect_body tr now rec ws u).
Proof.
  unfold disconnect_body. apply preserves_bind; [|intros _].
  - apply chat_preserves_get. intros m.
    destruct (active_connections m !! u) as [l|]; [|apply preserves_ret].
    cbv zeta. destruct (decide (_ = [])).
    + apply preserves_bind; [by apply chat_preserves_modify|intros _].
      apply chat_broadcast_presence_typing.
    + by apply chat_preserves_modify.
  - apply chat_preserves_modify. intros w Hw. unfold I in *. cbn [chat].
    by rewrite leave_all_rooms_typing.
Qed.
End ChatOpen.

Lemma chat_disconnect_typing fuel ws u :
  preserves True I (disconnect tr now fuel ws u).
Proof.
  revert ws u. induction fuel as [|fuel IH]; intros ws u.
  - intros w _. exact Logic.I.
  - cbn [disconnect]. by apply chat_disconnect_body_typing.
Qed.

Lemma chat_broadcast_typing fuel conv msg excl :
  preserves True I (broadcast_to_room tr now fuel conv msg excl).
Proof. apply chat_broadcast_to_room_typing. apply chat_disconnect_typing. Qed.
End ChatTyping.


End ChatFacts.

(** ** The sweep of the typing signals *)

Section Sweep.
Context (tr : Transport) (now : Z).

Lemma expire_typing_expiry r uid m r' u :
  typing_expiry (expire_typing r uid m) r' u =
    if decide (r' = r ∧ u = uid) then None else typing_expiry m r' u.
Proof.
  unfold typing_expiry, expire_typing. fields.
  destruct (decide (r = r')) as [<-|Hr].
  - rewrite lookup_alter_eq.
    destruct (typing_status m !! r) as [t|]; simpl.
    + destruct (decide (u = uid)) as [->|Hu].
      * rewrite lookup_delete_eq. by rewrite decide_True.
      * rewrite lookup_delete_ne by done. rewrite decide_False; [done|]. by intros [_ ?].
    + by case_decide.
  - rewrite lookup_alter_ne by done. rewrite decide_False; [done|].
    intros [-> _]. done.
Qed.

Lemma expired_users_spec t u :
  u ∈ expired_users now t ↔ ∃ e, t !! u = Some e ∧ e < now.
Proof.
  unfold expired_users. rewrite list_elem_of_fmap. split.
  - intros [[u' e] [-> [He Hin]%list_elem_of_filter]].
    apply elem_of_map_to_list in Hin. eauto.
  - intros (e & Hu & He). exists (u, e). split; [done|].
    apply list_elem_of_filter. split; [done|]. by apply elem_of_map_to_list.
Qed.

Lemma expired_in_room w r uid :
  uid ∈ expired_users now (default ∅ (typing_status (mgr w) !! r)) →
  ∃ e, typing_expiry (mgr w) r uid = Some e ∧ e < now.
Proof.
  intros (e & Hu & He)%expired_users_spec. exists e. split; [|done].
  unfold typing_expiry. destruct (typing_status (mgr w) !! r); simpl in *; [done|].
  by rewrite lookup_empty in Hu.
Qed.

Lemma swept_from_internal m0 m m' :
  swept_from now m0 m → internal_step now m m' → swept_from now m0 m'.
Proof.
  intros Hs Hstep. apply internal_step_typing in Hstep.
  unfold swept_from, typing_expiry in *. by rewrite Hstep.
Qed.

Lemma swept_from_expire m0 m r uid e :
  swept_from now m0 m →
  typing_expiry m0 r uid = Some e → e < now →
  swept_from now m0 (expire_typing r uid m).
Proof.
  intros [Hsub Hkeep] H0 He. split.
  - intros r' u e'. rewrite expire_typing_expiry. case_decide; [done|]. apply Hsub.
  - intros r' u e' H0' He'. rewrite expire_typing_expiry.
    rewrite decide_False; [by apply Hkeep|].
    intros [-> ->]. rewrite H0 in H0'. simplify_eq. lia.
Qed.

Lemma sweep_room_swept fuel m0 r :
  preserves True (λ w, swept_from now m0 (mgr w)) (sweep_room tr now fuel r).
Proof.
  intros w Hw. unfold sweep_room. rewrite bind_run. cbn [get_mgr].
  refine (preserves_for_each True (λ w, swept_from now m0 (mgr w)) _ _ _ w Hw).
  intros uid Hin.
  apply expired_in_room in Hin as (e & Hin & He).
  apply (proj1 Hw) in Hin.
  apply preserves_bind; [|intros _].
  - apply preserves_modify. intros w1 Hw1. cbn [mgr]. by eapply swept_from_expire.
  - apply (broadcast_to_room_preserves tr now (swept_from now m0)).
    intros m m'. apply swept_from_internal.
Qed.

Lemma sweep_typing_swept fuel m0 :
  preserves True (λ w, swept_from now m0 (mgr w)) (sweep_typing tr now fuel).
Proof.
  apply preserves_get. intros m. apply preserves_for_each. intros r _.
  apply sweep_room_swept.
Qed.

Lemma swept_from_refl m : swept_from now m m.
Proof. by split. Qed.







Lemma sweep_typing_terminates fuel n :
  (n < fuel)%nat → preserves False (few_users n) (sweep_typing tr now fuel).
Proof.
  intros Hn. apply preserves_get. intros m. apply preserves_for_each. intros r _.
  apply preserves_get. intros m'. apply preserves_for_each. intros uid _.
  apply preserves_bind; [by apply preserves_modify|intros _].
  by apply broadcast_to_room_terminates.
Qed.
End Sweep.

(** ** A room broadcast that meets no dead socket *)

Section BroadcastDelivered.
Context (tr : Transport) (now : Z).

Lemma fold_send_one_outbox msg : ∀ items acc w acc' w1,
  fold_each (send_one tr now msg) acc items w = Ok acc' w1 →
  outbox w1 = outbox w ++
    ((λ p : string * WebSocket, (p.2, msg)) <$>
       filter (λ p : string * WebSocket, send_ok tr p.2 msg = true) items).
Proof.
  induction items as [|[c ws] items IH]; intros acc w acc' w1; cbn [fold_each].
  - intros [= _ <-]. by rewrite filter_nil, app_nil_r.
  - rewrite bind_run. unfold send_one at 1. unfold try_except.
    rewrite bind_run. unfold send_json. cbn [fst snd].
    destruct (send_ok tr ws msg) eqn:Hs.
    + rewrite bind_run. cbn [modify_mgr mret Coroutine_ret].
      intros Hrest. apply IH in Hrest. rewrite Hrest. cbn [outbox].
      rewrite filter_cons_True by done. by rewrite fmap_cons, <-app_assoc.
    + cbn [mret Coroutine_ret]. intros Hrest. apply IH in Hrest. rewrite Hrest.
      by rewrite filter_cons_False by (cbn; congruence).
Qed.

Lemma filter_all {A} (P : A → Prop) `{∀ x, Decision (P x)} (l : list A) :
  (∀ x, x ∈ l → P x) → filter P l = l.
Proof.
  induction l as [|x l IH]; intros Hall; [done|].
  rewrite filter_cons_True by (apply Hall; left).
  f_equal. apply IH. intros y Hy. apply Hall. by right.
Qed.

Lemma filter_none {A} (P : A → Prop) `{∀ x, Decision (P x)} (l : list A) :
  (∀ x, x ∈ l → ¬ P x) → filter P l = [].
Proof.
  induction l as [|x l IH]; intros Hall; [done|].
  rewrite filter_cons_False by (apply Hall; left).
  apply IH. intros y Hy. apply Hall. by right.
Qed.

Lemma send_to_user_all_accept fuel u msg w :
  (∀ c ws, connections_of (mgr w) u !! c = Some ws → send_ok tr ws msg = true) →
  ∃ delivered w',
    send_to_user tr now fuel u msg w = Ok delivered w' ∧
    outbox w' = outbox w ++ frames_for (mgr w) msg u ∧
    connections (mgr w') = connections (mgr w) ∧
    rooms (mgr w') = rooms (mgr w).
Proof.
  intros Hacc. unfold send_to_user, send_to_user_open, frames_for, connections_of in *.
  rewrite bind_run. cbn [get_mgr].
  destruct (connections (mgr w) !! u) as [conns|] eqn:Hu; simpl in *.
  - rewrite bind_run.
    destruct (fold_send_one tr now msg (map_to_list conns) ([], 0%nat) w)
      as (w1 & Hrun & Hc & _ & Hr & _).
    pose proof (fold_send_one_outbox _ _ _ _ _ _ Hrun) as Hout.
    assert (Hdead : filter (λ p : string * WebSocket, send_ok tr p.2 msg = false)
                      (map_to_list conns) = []).
    { apply filter_none. intros [c ws] Hin. apply elem_of_map_to_list in Hin. cbn.
      rewrite (Hacc c ws Hin). done. }
    assert (Halive : filter (λ p : string * WebSocket, send_ok tr p.2 msg = true)
                       (map_to_list conns) = map_to_list conns).
    { apply filter_all. intros [c ws] Hin. apply elem_of_map_to_list in Hin. cbn. eauto. }
    rewrite Hdead in Hrun. rewrite Halive in Hout.
    rewrite Hrun. cbn [fst snd for_each fmap list_fmap app].
    rewrite bind_run. cbn [mret Coroutine_ret].
    eexists _, w1. split; [reflexivity|]. split; [|done]. exact Hout.
  - cbn [mret Coroutine_ret]. eexists _, w. split; [reflexivity|].
    rewrite map_to_list_empty. cbn. by rewrite app_nil_r.
Qed.

Lemma broadcast_loop_all_accept fuel r msg excl n (m0 : Manager) : ∀ pending w,
  connections (mgr w) = connections m0 →
  rooms (mgr w) = rooms m0 →
  size (default ∅ (rooms m0 !! r)) = n →
  (∀ u, u ∈ pending → excluded excl u = false →
        ∀ c ws, connections_of m0 u !! c = Some ws → send_ok tr ws msg = true) →
  ∃ w',
    for_live
      (λ w', bool_decide (size (default ∅ (rooms (mgr w') !! r)) = n))
      (λ user_id,
         if excluded excl user_id then mret tt
         else send_to_user_open tr now (disconnect tr now fuel) user_id msg ;; mret tt)
      pending w = Ok tt w' ∧
    outbox w' = outbox w ++
      (pending ≫= λ u, if excluded excl u then [] else frames_for m0 msg u) ∧
    connections (mgr w') = connections m0 ∧
    rooms (mgr w') = rooms m0.
Proof.
  induction pending as [|u pending IH]; intros w Hc Hr Hn Hacc; cbn [for_live].
  - rewrite Hr, bool_decide_true by done.
    exists w. cbn. by rewrite app_nil_r.
  - rewrite Hr, bool_decide_true by done. rewrite bind_run.
    destruct (excluded excl u) eqn:Hex.
    + cbn [mret Coroutine_ret].
      destruct (IH w Hc Hr Hn) as (w' & Hrun & Hout & Hc' & Hr').
      { intros v Hv. apply Hacc. by right. }
      exists w'. split; [exact Hrun|]. split; [|done].
      rewrite Hout. cbn [mbind list_bind]. by rewrite Hex.
    + rewrite bind_run.
      destruct (send_to_user_all_accept fuel u msg w) as (b & w1 & Hsend & Hout1 & Hc1 & Hr1).
      { intros c ws Hcw. apply (Hacc u ltac:(left) Hex c ws).
        unfold connections_of in *. by rewrite <-Hc. }
      unfold send_to_user in Hsend. rewrite Hsend. cbn [mret Coroutine_ret].
      destruct (IH w1) as (w' & Hrun & Hout & Hc' & Hr'); try congruence.
      { intros v Hv. apply Hacc. by right. }
      exists w'. split; [exact Hrun|]. split; [|done].
      rewrite Hout, Hout1. cbn [mbind list_bind]. rewrite Hex, <-app_assoc.
      do 2 f_equal. unfold frames_for, connections_of. by rewrite Hc.
Qed.

(** When no socket of the members concerned refuses the frame, the
    broadcast returns and has sent the frame once to every socket of every
    member that the guard does not skip, and nothing else. *)
Lemma broadcast_to_room_all_accept fuel r msg excl w members :
  rooms (mgr w) !! r = Some members →
  (∀ u, u ∈ members → excluded excl u = false →
        ∀ c ws, connections_of (mgr w) u !! c = Some ws → send_ok tr ws msg = true) →
  ∃ w',
    broadcast_to_room tr now fuel r msg excl w = Ok tt w' ∧
    outbox w' = outbox w ++
      (elements members ≫= λ u, if excluded excl u then [] else frames_for (mgr w) msg u) ∧
    connections (mgr w') = connections (mgr w) ∧
    rooms (mgr w') = rooms (mgr w).
Proof.
  intros Hroom Hacc. unfold broadcast_to_room, broadcast_to_room_open.
  rewrite bind_run. cbn [get_mgr]. rewrite Hroom.
  apply (broadcast_loop_all_accept fuel r msg excl (size members) (mgr w)); try done.
  - by rewrite Hroom.
  - intros u Hu. apply Hacc. by apply elem_of_elements.
Qed.

(** For an excluded identity other than 0 the guard works: the frames sent
    are exactly one per socket of the other members. *)
Lemma broadcast_to_room_skips_nonzero fuel r msg E w members :
  rooms (mgr w) !! r = Some members →
  E ≠ 0 →
  (∀ u, u ∈ members → u ≠ E →
        ∀ c ws, connections_of (mgr w) u !! c = Some ws → send_ok tr ws msg = true) →
  ∃ w' sent,
    broadcast_to_room tr now fuel r msg (Some E) w = Ok tt w' ∧
    outbox w' = outbox w ++ sent ∧
    ∀ frame, frame ∈ sent ↔
      frame.2 = msg ∧
      ∃ u c, u ∈ members ∧ u ≠ E ∧ connections_of (mgr w) u !! c = Some frame.1.
Proof.
  intros Hroom HE Hacc.
  assert (Hex : ∀ u, excluded (Some E) u = bool_decide (u = E)).
  { intros u. unfold excluded.
    destruct (Z.eqb_spec E 0) as [|_]; [done|]. cbn.
    destruct (Z.eqb_spec u E) as [->|Hne].
    - by rewrite bool_decide_true.
    - by rewrite bool_decide_false. }
  destruct (broadcast_to_room_all_accept fuel r msg (Some E) w members Hroom)
    as (w' & Hrun & Hout & _).
  { intros u Hu Hexu. apply Hacc; [done|]. rewrite Hex in Hexu.
    by apply bool_decide_eq_false in Hexu. }
  eexists w', _. split; [exact Hrun|]. split; [exact Hout|].
  intros [ws msg']. rewrite list_elem_of_bind. cbn [fst snd]. split.
  - intros (u & Hin & Hu). apply elem_of_elements in Hu.
    rewrite Hex in Hin. case_bool_decide as HuE; [by apply elem_of_nil in Hin|].
    unfold frames_for in Hin. apply list_elem_of_fmap in Hin as ([c ws'] & [= -> ->] & Hin).
    apply elem_of_map_to_list in Hin. split; [done|]. by exists u, c.
  - intros (-> & u & c & Hu & HuE & Hc). exists u. split; [|by apply elem_of_elements].
    rewrite Hex, bool_decide_false by done.
    unfold frames_for. apply list_elem_of_fmap. exists (c, ws). split; [done|].
    by apply elem_of_map_to_list.
Qed.
End BroadcastDelivered.

(** ** [ChatConnectionManager]: what the nested coroutines preserve *)

Section ChatNested.
Import ChatConnectionManager.
Context (tr : ChatTransport) (now : Z) (I : ChatWorld → Prop).
Hypothesis I_deliver : ∀ w ws msg,
  I w → I (mkChatWorld (chat w) (delivered w ++ [(ws, msg)]) (published w)).
Hypothesis I_delete : ∀ w u,
  I w → I (mkChatWorld (with_active_connections (delete u) (chat w))
                       (delivered w) (published w)).
Hypothesis I_set : ∀ w u l,
  l ≠ [] → I w →
  I (mkChatWorld (with_active_connections <[u := l]> (chat w)) (delivered w) (published w)).
Hypothesis I_rooms : ∀ w u,
  I w → I (mkChatWorld (leave_all_rooms u (chat w)) (delivered w) (published w)).

Lemma chat_send_json_preserves oof ws msg : preserves oof I (send_json tr ws msg).
Proof. intros w Hw. unfold send_json. destruct (send_ok _ _ _); auto. Qed.

Section ChatNestedOpen.
Context (oof : Prop) (rec : WebSocket → Z → C unit).
Hypothesis rec_preserves : ∀ ws u, preserves oof I (rec ws u).

Lemma chat_send_personal_message_open_preserves msg u :
  preserves oof I (send_personal_message_open tr rec msg u).
Proof.
  apply chat_preserves_get. intros m.
  destruct (active_connections m !! u); [|apply preserves_ret].
  apply preserves_bind.
  - apply preserves_fold_each. intros dead ws _. apply preserves_try.
    + apply preserves_bind; [apply chat_send_json_preserves|intros _; apply preserves_ret].
    + intros _. apply preserves_ret.
  - intros dead. apply preserves_for_each. intros ws _. apply rec_preserves.
Qed.

Lemma chat_broadcast_to_room_open_preserves conv msg excl :
  preserves oof I (broadcast_to_room_open tr rec conv msg excl).
Proof.
  apply chat_preserves_get. intros m.
  destruct (room_members m !! conv); [|apply preserves_ret].
  apply preserves_for_live. intros u _.
  destruct (excluded excl u); [apply preserves_ret|].
  apply chat_send_personal_message_open_preserves.
Qed.

Lemma chat_broadcast_presence_open_preserves u online :
  preserves oof I (broadcast_presence_open tr now rec u online).
Proof.
  apply chat_preserves_get. intros m. apply preserves_for_live. intros r _.
  apply chat_preserves_get. intros m'.
  case_decide; [apply chat_broadcast_to_room_open_preserves|apply preserves_ret].
Qed.

Lemma chat_disconnect_body_preserves ws u :
  preserves oof I (disconnect_body tr now rec ws u).
Proof.
  unfold disconnect_body. apply preserves_bind; [|intros _].
  - apply chat_preserves_get. intros m.
    destruct (active_connections m !! u) as [l|]; [|apply preserves_ret].
    cbv zeta. destruct (decide (_ = [])).
    + apply preserves_bind; [apply chat_preserves_modify; auto|intros _].
      apply chat_broadcast_presence_open_preserves.
    + apply chat_preserves_modify; auto.
  - apply chat_preserves_modify; auto.
Qed.
End ChatNestedOpen.

Lemma chat_disconnect_preserves fuel : ∀ ws u,
  preserves True I (disconnect tr now fuel ws u).
Proof.
  induction fuel as [|fuel IH]; intros ws u.
  - intros w _. exact Logic.I.
  - cbn [disconnect]. by apply chat_disconnect_body_preserves.
Qed.

Lemma chat_send_personal_message_preserves fuel msg u :
  preserves True I (send_personal_message tr now fuel msg u).
Proof.
  apply chat_send_personal_message_open_preserves, chat_disconnect_preserves.
Qed.

Lemma chat_broadcast_to_room_preserves fuel conv msg excl :
  preserves True I (broadcast_to_room tr now fuel conv msg excl).
Proof.
  apply chat_broadcast_to_room_open_preserves, chat_disconnect_preserves.
Qed.

Lemma chat_broadcast_presence_preserves fuel u online :
  preserves True I (broadcast_presence tr now fuel u online).
Proof.
  apply chat_broadcast_presence_open_preserves, chat_disconnect_preserves.
Qed.
End ChatNested.

Section ChatInvariants.
Import ChatConnectionManager.

Lemma leave_one_room_frame u m r :
  active_connections (leave_one_room u m r) = active_connections m ∧
  user_presence (leave_one_room u m r) = user_presence m ∧
  redis (leave_one_room u m r) = redis m.
Proof.
  unfold leave_one_room. destruct (room_members m !! r); [|done].
  repeat case_decide; done.
Qed.

Lemma leave_all_rooms_frame u m :
  active_connections (leave_all_rooms u m) = active_connections m ∧
  user_presence (leave_all_rooms u m) = user_presence m ∧
  redis (leave_all_rooms u m) = redis m.
Proof.
  unfold leave_all_rooms. generalize (map_to_list (room_members m)).*1. intros ks.
  revert m. induction ks as [|k ks IH]; intros m; cbn [foldl]; [done|].
  destruct (IH (leave_one_room u m k)) as (-> & -> & ->).
  apply leave_one_room_frame.
Qed.

Lemma leave_all_rooms_no_empty_room u m :
  chat_no_empty_room m → chat_no_empty_room (leave_all_rooms u m).
Proof.
  intros Hinv r s'. rewrite leave_all_rooms_members, lookup_omap.
  destruct (room_members m !! r) as [s|] eqn:Hr; cbn; [|done].
  intros Hd. by destruct (drop_member_Some u s s' Hd (Hinv r s Hr)).
Qed.
End ChatInvariants.

(** ** One pass of the sweep and the typing signals *)

Section CleanupSwept.
Context (tr : Transport) (now : Z).

Lemma cleanup_pass_swept fuel m0 :
  preserves True (λ w, swept_from now m0 (mgr w)) (cleanup_pass tr now fuel).
Proof.
  apply preserves_try; [|intros _; apply preserves_ret].
  apply preserves_bind; [|intros _; apply sweep_typing_swept].
  apply reap_stale_preserves. intros m m'. apply swept_from_internal.
Qed.
End CleanupSwept.

(** ** Which calls remove a typing signal *)

Section TypingRemoval.
Context (tr : Transport) (now : Z).

Lemma set_typing_flag_expiry r u b (ts : gmap string (gmap Z Z)) r' u' :
  set_typing_flag now r u b ts !! r' ≫= (.!! u') =
    if decide (r' = r ∧ u' = u) then (if b then Some (now + typing_ttl) else None)
    else ts !! r' ≫= (.!! u').
Proof.
  unfold set_typing_flag. case_decide as Heq.
  - destruct Heq as [-> ->]. destruct b.
    + rewrite lookup_insert_eq. simpl. by rewrite lookup_insert_eq.
    + destruct (ts !! r) as [t|] eqn:Hr.
      * rewrite lookup_insert_eq. simpl. by rewrite lookup_delete_eq.
      * by rewrite Hr.
  - destruct (decide (r' = r)) as [->|Hr'].
    + assert (u' ≠ u) by (intros ->; by apply Heq).
      destruct b.
      * rewrite lookup_insert_eq. simpl. rewrite lookup_insert_ne by done.
        by destruct (ts !! r).
      * destruct (ts !! r) as [t|] eqn:Hr; [|by rewrite Hr].
        rewrite lookup_insert_eq. simpl. by rewrite lookup_delete_ne.
    + destruct b.
      * by rewrite lookup_insert_ne.
      * destruct (ts !! r) as [t|] eqn:Hr; [|done].
        by rewrite lookup_insert_ne.
Qed.

Lemma final_world_preserved {S A} (I : S → Prop) (c : Coroutine S A) w w' :
  preserves True I c → I w → final_world (c w) = Some w' → I w'.
Proof.
  intros Hc Hw Hfin. specialize (Hc w Hw).
  destruct (c w); cbn in Hfin; by simplify_eq.
Qed.

Lemma send_json_leaves_typing ws msg ts :
  preserves True (λ w, typing_status (mgr w) = ts) (send_json tr ws msg).
Proof. apply preserves_send_json. by intros. Qed.

Lemma handle_typing_final fuel r u b w w' :
  final_world (handle_typing tr now fuel r u b w) = Some w' →
  typing_status (mgr w') = set_typing_flag now r u b (typing_status (mgr w)).
Proof.
  intros Hrun. unfold handle_typing in Hrun. rewrite bind_run in Hrun.
  cbn [modify_mgr] in Hrun.
  pose proof (broadcast_to_room_leaves_typing tr now fuel r (Typing r u b now) (Some u)
                (set_typing_flag now r u b (typing_status (mgr w)))
                (mkWorld (with_typing_status (set_typing_flag now r u b) (mgr w))
                         (outbox w)) eq_refl) as Hts.
  destruct (broadcast_to_room _ _ _ _ _ _ _); simpl in Hrun; by simplify_eq.
Qed.

Lemma connect_leaves_typing fuel ws u c dev ts :
  preserves True (λ w, typing_status (mgr w) = ts) (connect tr now fuel ws u c dev).
Proof.
  intros w Hw. unfold connect. destruct (accept_ok tr ws); [|exact Hw].
  revert w Hw. apply preserves_bind; [by apply preserves_modify|intros _].
  apply preserves_bind; [apply send_json_leaves_typing|intros _].
  apply preserves_bind.
  - apply (broadcast_presence_preserves tr now (λ m, typing_status m = ts)).
    intros m m'. apply typing_stable.
  - intros _. apply preserves_get. intros m.
    case_decide; [apply preserves_ret|apply preserves_raise].
Qed.

Lemma handle_heartbeat_leaves_typing c ts :
  preserves True (λ w, typing_status (mgr w) = ts) (handle_heartbeat tr now c).
Proof.
  apply preserves_get. intros m.
  destruct (connection_meta m !! c) as [meta|]; [|apply preserves_ret].
  apply preserves_bind; [by apply preserves_modify|intros _].
  destruct (connections m !! meta_user_id meta ≫= _); [|apply preserves_ret].
  apply preserves_try; [apply send_json_leaves_typing|intros _; apply preserves_ret].
Qed.

(** Every call but [handle_typing] and the sweep leaves the typing signals
    as they are. *)
Lemma run_call_leaves_typing fuel call ts :
  (∀ r u b, call ≠ CallHandleTyping r u b) →
  call ≠ CallCleanupPass →
  preserves True (λ w, typing_status (mgr w) = ts) (run_call tr now fuel call).
Proof.
  intros Hty Hcl. destruct call; cbn [run_call].
  - apply connect_leaves_typing.
  - apply disconnect_leaves_typing.
  - apply preserves_bind; [|intros _; apply preserves_ret].
    apply (send_to_user_preserves tr now (λ m, typing_status m = ts)).
    intros m m'. apply typing_stable.
  - apply broadcast_to_room_leaves_typing.
  - by apply preserves_modify.
  - by apply preserves_modify.
  - by destruct (Hty room_id user_id typing).
  - apply handle_heartbeat_leaves_typing.
  - done.
Qed.

(** What one turn of the endpoint's loop does to the typing signals. *)
Lemma on_event_typing_final fuel s ev w w' :
  final_world (Router.on_event tr now fuel s ev w) = Some w' →
  typing_status (mgr w') =
    match ev with
    | Router.TypingEvent a b t =>
        match Router.room_of a b with
        | Some rid =>
            set_typing_flag now (Router.conv_room rid) (Router.session_user_id s)
              (default false t) (typing_status (mgr w))
        | None => typing_status (mgr w)
        end
    | _ => typing_status (mgr w)
    end.
Proof.
  intros Hrun.
  assert (Hdisp : ∃ w2, final_world (Router.dispatch tr now fuel s ev w) = Some w2 ∧
                        typing_status (mgr w') = typing_status (mgr w2)).
  { unfold Router.on_event, try_except in Hrun.
    destruct (Router.dispatch tr now fuel s ev w) as [[] w2|e w2|]; [| |done].
    - cbn in Hrun. simplify_eq. eauto.
    - exists w2. split; [done|]. unfold send_json in Hrun.
      destruct (send_ok tr _ _); cbn in Hrun; by simplify_eq. }
  destruct Hdisp as (w2 & Hdisp & ->). clear Hrun.
  assert (Hsame : ∀ c : M unit,
            preserves True (λ w0, typing_status (mgr w0) = typing_status (mgr w)) c →
            final_world (c w) = Some w2 → typing_status (mgr w2) = typing_status (mgr w)).
  { intros c Hc Hfin.
    exact (final_world_preserved
             (λ w0, typing_status (mgr w0) = typing_status (mgr w)) c w w2
             Hc eq_refl Hfin). }
  destruct ev as [|a b|a b|a b t|conv content|name]; cbn [Router.dispatch] in Hdisp.
  - eapply Hsame; [|exact Hdisp]. apply handle_heartbeat_leaves_typing.
  - eapply Hsame; [|exact Hdisp]. destruct (Router.room_of a b); [|apply preserves_ret].
    apply preserves_bind; [by apply preserves_modify|intros _].
    apply send_json_leaves_typing.
  - eapply Hsame; [|exact Hdisp]. destruct (Router.room_of a b); [|apply preserves_ret].
    apply preserves_bind; [by apply preserves_modify|intros _].
    apply send_json_leaves_typing.
  - destruct (Router.room_of a b) as [rid|].
    + by apply handle_typing_final in Hdisp.
    + cbn in Hdisp. by simplify_eq.
  - eapply Hsame; [|exact Hdisp].
    destruct (Router.truthy_id conv); [|apply preserves_ret].
    destruct (Router.truthy_text content); [|apply preserves_ret].
    apply preserves_bind; [apply broadcast_to_room_leaves_typing|intros _].
    apply send_json_leaves_typing.
  - eapply Hsame; [|exact Hdisp]. apply send_json_leaves_typing.
Qed.
End TypingRemoval.

Section ChatTypingRemoval.
Import ChatConnectionManager.
Context (tr : ChatTransport) (now : Z).

Lemma chat_set_typing_flag_since conv u b (ts : gmap Z (gmap Z Z)) conv' u' :
  set_typing_flag now conv u b ts !! conv' ≫= (.!! u') =
    if decide (conv' = conv ∧ u' = u) then (if b then Some now else None)
    else ts !! conv' ≫= (.!! u').
Proof.
  unfold set_typing_flag. case_decide as Heq.
  - destruct Heq as [-> ->]. destruct b.
    + rewrite lookup_insert_eq. simpl. by rewrite lookup_insert_eq.
    + destruct (ts !! conv) as [t|] eqn:Hr.
      * rewrite lookup_insert_eq. simpl. by rewrite lookup_delete_eq.
      * by rewrite Hr.
  - destruct (decide (conv' = conv)) as [->|Hr'].
    + assert (u' ≠ u) by (intros ->; by apply Heq).
      destruct b.
      * rewrite lookup_insert_eq. simpl. rewrite lookup_insert_ne by done.
        by destruct (ts !! conv).
      * destruct (ts !! conv) as [t|] eqn:Hr; [|by rewrite Hr].
        rewrite lookup_insert_eq. simpl. by rewrite lookup_delete_ne.
    + destruct b.
      * by rewrite lookup_insert_ne.
      * destruct (ts !! conv) as [t|] eqn:Hr; [|done].
        by rewrite lookup_insert_ne.
Qed.

Lemma clear_sender_typing_since conv sender (ts : gmap Z (gmap Z Z)) conv' u' :
  clear_sender_typing conv sender ts !! conv' ≫= (.!! u') =
    if decide (conv' = conv ∧ sender = Some u') then None
    else ts !! conv' ≫= (.!! u').
Proof.
  unfold clear_sender_typing.
  destruct (ts !! conv) as [t|] eqn:Hr; [destruct sender as [v|]|].
  - case_decide as Heq.
    + destruct Heq as [-> [= ->]].
      rewrite lookup_insert_eq. simpl. by rewrite lookup_delete_eq.
    + destruct (decide (conv' = conv)) as [->|Hne].
      * assert (v ≠ u') by (intros ->; by apply Heq).
        rewrite lookup_insert_eq, Hr. simpl. by rewrite lookup_delete_ne.
      * by rewrite lookup_insert_ne.
  - case_decide as Heq; [by destruct Heq|done].
  - case_decide as Heq; [|done]. destruct Heq as [-> _]. by rewrite Hr.
Qed.

Lemma chat_typing_kept_rooms ts w u :
  typing_users (chat w) = ts →
  typing_users (chat (mkChatWorld (leave_all_rooms u (chat w)) (delivered w) (published w)))
    = ts.
Proof. intros <-. cbn. apply leave_all_rooms_typing. Qed.

(** What each call does to the typing records. *)
Lemma run_chat_call_typing_final fuel call w w' :
  final_world (run_chat_call tr now fuel call w) = Some w' →
  typing_users (chat w') =
    match call with
    | ChatHandleTyping conv u _ b =>
        set_typing_flag now conv u b (typing_users (chat w))
    | ChatHandleNewMessage conv data =>
        clear_sender_typing conv (sender_id data) (typing_users (chat w))
    | _ => typing_users (chat w)
    end.
Proof.
  intros Hrun.
  assert (Hb : ∀ ts conv msg excl,
            preserves True (λ w0, typing_users (chat w0) = ts)
              (broadcast_to_room tr now fuel conv msg excl)).
  { intros ts conv msg excl. apply chat_broadcast_to_room_preserves; try done.
    intros w0 u. apply chat_typing_kept_rooms. }
  assert (Hsame : ∀ c : C unit,
            preserves True (λ w0, typing_users (chat w0) = typing_users (chat w)) c →
            final_world (c w) = Some w' → typing_users (chat w') = typing_users (chat w)).
  { intros c Hc Hfin.
    exact (final_world_preserved
             (λ w0, typing_users (chat w0) = typing_users (chat w)) c w w'
             Hc eq_refl Hfin). }
  destruct call; cbn [run_chat_call] in Hrun.
  - eapply Hsame; [|exact Hrun]. intros w0 Hw0. unfold connect.
    destruct (accept_ok _ _); [|exact Hw0]. revert w0 Hw0.
    apply preserves_bind; [by apply chat_preserves_modify|intros _].
    apply preserves_bind.
    + apply chat_broadcast_presence_preserves; try done.
      intros w0 u. apply chat_typing_kept_rooms.
    + intros _. apply chat_preserves_get. intros m.
      case_decide; [apply preserves_ret|apply preserves_raise].
  - eapply Hsame; [|exact Hrun]. apply chat_disconnect_preserves; try done.
    intros w0 u. apply chat_typing_kept_rooms.
  - cbn in Hrun. by simplify_eq.
  - cbn in Hrun. by simplify_eq.
  - eapply Hsame; [|exact Hrun]. apply chat_send_personal_message_preserves; try done.
    intros w0 u. apply chat_typing_kept_rooms.
  - eapply Hsame; [|exact Hrun]. apply Hb.
  - unfold handle_typing in Hrun. rewrite bind_run in Hrun.
    cbn [modify_chat] in Hrun.
    remember (mkChatWorld _ _ _) as w0 eqn:Hw0.
    refine (final_world_preserved
              (λ w1, typing_users (chat w1) =
                     set_typing_flag now conversation_id user_id typing
                       (typing_users (chat w))) _ w0 w' (Hb _ _ _ _) _ Hrun).
    by subst w0.
  - unfold handle_new_message in Hrun. rewrite bind_run in Hrun.
    cbn [modify_chat] in Hrun.
    remember (mkChatWorld _ _ _) as w0 eqn:Hw0.
    refine (final_world_preserved
              (λ w1, typing_users (chat w1) =
                     clear_sender_typing conversation_id (sender_id message_data)
                       (typing_users (chat w))) _ w0 w' _ _ Hrun); [|by subst w0].
    apply preserves_bind; [apply Hb|intros _].
    apply chat_preserves_get. intros m. destruct (redis m); [|apply preserves_ret].
    apply preserves_try; [|intros _; apply preserves_ret].
    intros w1 Hw1. unfold publish. by destruct (publish_ok tr).
  - unfold handle_read_receipt in Hrun. eapply Hsame; [|exact Hrun]. apply Hb.
  - cbn in Hrun. by simplify_eq.
Qed.
End ChatTypingRemoval.

(** ** Rooms whose only member goes away, and explicit leave *)

Section RoomRemoval.

Lemma drop_member_singleton v u :
  drop_member v {[u]} = if decide (v = u) then None else Some {[u]}.
Proof.
  unfold drop_member. destruct (decide (v = u)) as [->|Hv].
  - rewrite decide_True by set_solver.
    rewrite decide_True; [done|]. set_solver.
  - rewrite decide_False; [done|]. set_solver.
Qed.

Lemma sole_member_lookup v u (rs : option (gset Z)) :
  rs = Some {[u]} ∨ rs = None →
  rs ≫= drop_member v = Some {[u]} ∨ rs ≫= drop_member v = None.
Proof.
  intros [->| ->]; cbn; [|by right].
  rewrite drop_member_singleton. case_decide; [by right|by left].
Qed.

Lemma internal_step_sole_member now R u m m' :
  rooms m !! R = Some {[u]} ∨ rooms m !! R = None →
  internal_step now m m' →
  rooms m' !! R = Some {[u]} ∨ rooms m' !! R = None.
Proof.
  intros Hinv Hstep.
  destruct Hstep as [m c|m v conns c Hv Hc He|m v conns c Hv Hc Hne|m c|m c|m v];
    try (fields; done).
  rewrite remove_from_rooms_rooms. case_decide; [done|].
  rewrite lookup_omap. by apply sole_member_lookup.
Qed.

Lemma disconnect_deletes_own_room tr now fuel c u w w' R :
  disconnect_try tr now (disconnect tr now fuel) c u w = Ok tt w' →
  connections (mgr w') !! u = None →
  rooms (mgr w) !! R = Some {[u]} →
  rooms (mgr w') !! R = None.
Proof.
  intros Htry Hoff HR.
  destruct (disconnect_try_complete tr now _ c u w w' Htry) as (w2 & Hun & ->).
  pose proof (unregister_connection_evolves tr now (disconnect tr now fuel) (mgr w) c u
                (λ c' u', disconnect_evolves tr now fuel (mgr w) c' u') w (rtc_refl _ _))
    as Hev.
  rewrite Hun in Hev.
  assert (Hinv : rooms (mgr w2) !! R = Some {[u]} ∨ rooms (mgr w2) !! R = None).
  { eapply (evolves_stable now (λ m, rooms m !! R = Some {[u]} ∨ rooms m !! R = None));
      [|exact Hev|by left].
    intros m m'. apply internal_step_sole_member. }
  cbn [mgr] in *. rewrite forget_connection_fields in *. cbn [connections rooms] in *.
  rewrite decide_False; [|rewrite Hoff; by intros [? ?]].
  rewrite lookup_omap.
  destruct (sole_member_lookup u u _ Hinv) as [Hs|Hn]; [|done].
  destruct Hinv as [Hi|Hi]; rewrite Hi in Hs; cbn in Hs; [|done].
  rewrite drop_member_singleton, decide_True in Hs by done. done.
Qed.

Lemma leave_room_effect R u w :
  ∃ w', leave_room R u w = Ok tt w' ∧
        get_room_members (mgr w') R = get_room_members (mgr w) R ∖ {[u]} ∧
        (get_room_members (mgr w) R ∖ {[u]} = ∅ → rooms (mgr w') !! R = None) ∧
        (∀ R', R' ≠ R → rooms (mgr w') !! R' = rooms (mgr w) !! R') ∧
        connections (mgr w') = connections (mgr w).
Proof.
  unfold leave_room, modify_mgr. eexists. split; [reflexivity|].
  unfold get_room_members, remove_member. fields.
  destruct (rooms (mgr w) !! R) as [members|] eqn:HR; cbn.
  - case_decide as He.
    + rewrite lookup_delete_eq. cbn. rewrite He. repeat split; auto.
      intros R' Hne. by rewrite lookup_delete_ne.
    + rewrite lookup_insert_eq. cbn. repeat split; auto; [done|].
      intros R' Hne. by rewrite lookup_insert_ne.
  - rewrite HR. cbn. repeat split; auto. set_solver.
Qed.

Lemma chat_sole_member_kept ctr now fuel R u : ∀ ws v,
  preserves True
    (λ w, ChatConnectionManager.room_members (ChatConnectionManager.chat w) !! R
            = Some {[u]} ∨
          ChatConnectionManager.room_members (ChatConnectionManager.chat w) !! R = None)
    (ChatConnectionManager.disconnect ctr now fuel ws v).
Proof.
  intros ws v. apply chat_disconnect_preserves; try done.
  intros w v' Hinv. cbn. rewrite leave_all_rooms_members, lookup_omap.
  by apply sole_member_lookup.
Qed.

Lemma chat_disconnect_deletes_own_room ctr now fuel ws u cw cw' R :
  ChatConnectionManager.disconnect ctr now fuel ws u cw = Ok tt cw' →
  ChatConnectionManager.room_members (ChatConnectionManager.chat cw) !! R = Some {[u]} →
  ChatConnectionManager.room_members (ChatConnectionManager.chat cw') !! R = None.
Proof.
  intros Hrun HR.
  pose proof (chat_sole_member_kept ctr now fuel R u ws u cw (or_introl HR)) as Hinv.
  rewrite Hrun in Hinv.
  pose proof (chat_disconnect_leaves_all_rooms ctr now fuel ws u cw cw' Hrun R) as Hnot.
  destruct Hinv as [Hs|Hn]; [|done].
  rewrite Hs in Hnot. cbn in Hnot. set_solver.
Qed.

Lemma chat_leave_room_effect conv u cw :
  ∃ cw', ChatConnectionManager.leave_room conv u cw = Ok tt cw' ∧
    default ∅ (ChatConnectionManager.room_members (ChatConnectionManager.chat cw') !! conv)
      = default ∅ (ChatConnectionManager.room_members
                     (ChatConnectionManager.chat cw) !! conv) ∖ {[u]} ∧
    (default ∅ (ChatConnectionManager.room_members
                  (ChatConnectionManager.chat cw) !! conv) ∖ {[u]} = ∅ →
     ChatConnectionManager.room_members (ChatConnectionManager.chat cw') !! conv = None).
Proof.
  unfold ChatConnectionManager.leave_room, ChatConnectionManager.modify_chat.
  eexists. split; [reflexivity|]. cbn.
  unfold ChatConnectionManager.remove_member.
  destruct (ChatConnectionManager.room_members (ChatConnectionManager.chat cw) !! conv)
    as [members|] eqn:HR; cbn.
  - case_decide as He.
    + rewrite lookup_delete_eq. cbn. by rewrite He.
    + rewrite lookup_insert_eq. cbn. by split.
  - rewrite HR. cbn. split; [set_solver|done].
Qed.
End RoomRemoval.

(** * The claims *)

(** ** C10: entries of [connections] are never empty *)

(** C10.  In every reachable world each key of [connections] maps to a
    non-empty dict of sockets; hence [is_user_online] holds exactly for the
    keys, [get_online_users] lists (once each) exactly the identities with at
    least one live connection, and [total_users_online] is their number. *)
Theorem connection_entries_never_empty (w : World) :
  reachable w →
  no_empty_connection_entry (mgr w) ∧
  (∀ I, is_user_online (mgr w) I = true ↔ is_Some (connections (mgr w) !! I)) ∧
  (∀ I, I ∈ get_online_users (mgr w) ↔ (0 < active_connection_count (mgr w) I)%nat) ∧
  NoDup (get_online_users (mgr w)) ∧
  total_users_online (get_connection_stats (mgr w)) = length (get_online_users (mgr w)).
Proof.
  intros Hw. pose proof (reachable_no_empty_connection_entry w Hw) as Hinv.
  assert (Hpos : ∀ I conns, connections (mgr w) !! I = Some conns → (0 < size conns)%nat).
  { intros I conns HI. specialize (Hinv I conns HI).
    apply map_size_non_empty_iff in Hinv. lia. }
  split; [exact Hinv|]. split; [|split; [|split]].
  - intros I. unfold is_user_online.
    destruct (connections (mgr w) !! I) as [conns|] eqn:HI.
    + rewrite bool_decide_eq_true. split; [eauto|]. intros _. eauto.
    + split; [done|]. by intros [? ?].
  - intros I. unfold get_online_users, active_connection_count, connections_of.
    rewrite list_elem_of_fmap. split.
    + intros [[u conns] [-> Hin]]. apply elem_of_map_to_list in Hin. simpl.
      rewrite Hin. simpl. eauto.
    + destruct (connections (mgr w) !! I) as [conns|] eqn:HI; simpl.
      * intros _. exists (I, conns). split; [done|]. by apply elem_of_map_to_list.
      * rewrite map_size_empty. lia.
  - apply NoDup_fst_map_to_list.
  - unfold get_connection_stats, get_online_users. cbn [total_users_online].
    by rewrite length_fmap, length_map_to_list.
Qed.

Lemma connection_entries_never_empty_witness :
  reachable (exec all_accepting 10 (CallConnect 1%nat 7 "c1" None) initial_world) ∧
  total_users_online
    (get_connection_stats
       (mgr (exec all_accepting 10 (CallConnect 1%nat 7 "c1" None) initial_world))) =
  length
    (get_online_users
       (mgr (exec all_accepting 10 (CallConnect 1%nat 7 "c1" None) initial_world))).
Proof.
  split.
  - apply (reachable_call initial_world all_accepting 10 8
             (CallConnect 1%nat 7 "c1" None)); [apply reachable_init|].
    vm_compute. reflexivity.
  - apply (connection_entries_never_empty
             (exec all_accepting 10 (CallConnect 1%nat 7 "c1" None) initial_world)).
    apply (reachable_call initial_world all_accepting 10 8
             (CallConnect 1%nat 7 "c1" None)); [apply reachable_init|].
    vm_compute. reflexivity.
Defined.

(** ** C5: a room without members is deleted *)

(** C5.  A [leave_room] that removes the final member of room [R] deletes the
    entry of [R]: afterwards [get_room_members] is the empty set and [rooms]
    has no key [R]; and in every reachable world no room maps to an empty
    member set. *)
Theorem empty_rooms_are_deleted (w : World) (R : string) (I : Z) :
  (rooms (mgr w) !! R = Some {[I]} →
   ∃ w', leave_room R I w = Ok tt w' ∧
         get_room_members (mgr w') R = ∅ ∧
         rooms (mgr w') !! R = None) ∧
  (reachable w → no_empty_room (mgr w)).
Proof.
  split; [|apply reachable_no_empty_room].
  intros HR. eexists. split; [reflexivity|].
  unfold get_room_members. cbn [mgr]. fields. unfold remove_member. rewrite HR.
  rewrite difference_diag_L.
  rewrite decide_True by done. by rewrite lookup_delete_eq.
Qed.

Lemma empty_rooms_are_deleted_witness :
  rooms (mgr (exec all_accepting 10 (CallJoinRoom "r" 7) initial_world)) !! "r"
    = Some {[7]} ∧
  reachable (exec all_accepting 10 (CallJoinRoom "r" 7) initial_world) ∧
  (∃ w', leave_room "r" 7 (exec all_accepting 10 (CallJoinRoom "r" 7) initial_world)
           = Ok tt w' ∧
         get_room_members (mgr w') "r" = ∅ ∧
         rooms (mgr w') !! "r" = None) ∧
  no_empty_room (mgr (exec all_accepting 10 (CallJoinRoom "r" 7) initial_world)).
Proof.
  assert (H1 : rooms (mgr (exec all_accepting 10 (CallJoinRoom "r" 7) initial_world))
                 !! "r" = Some {[7]}) by (vm_compute; reflexivity).
  assert (H2 : reachable (exec all_accepting 10 (CallJoinRoom "r" 7) initial_world)).
  { apply (reachable_call initial_world all_accepting 10 8 (CallJoinRoom "r" 7));
      [apply reachable_init|vm_compute; reflexivity]. }
  split; [exact H1|]. split; [exact H2|].
  destruct (empty_rooms_are_deleted
              (exec all_accepting 10 (CallJoinRoom "r" 7) initial_world) "r" 7)
    as [Hleave Hinv].
  split; [exact (Hleave H1)|exact (Hinv H2)].
Defined.

(** ** C4: the online flag follows the number of connections *)

(** C4.  In every reachable world the online flag of the presence record of
    [I] is set exactly when [I] has at least one registered connection (and
    exactly when the record's own [connection_count] is positive); an
    identity with [n ≥ 1] registered connections is online; and after all of
    them are disconnected, one call per connection id, the identity is
    offline and its record carries the time of the last call as
    [last_seen]. *)
Theorem online_flag_tracks_connections (w : World) (I : Z) :
  (reachable w →
   (online_flag (mgr w) I = true ↔ (0 < active_connection_count (mgr w) I)%nat) ∧
   (∀ p, presence (mgr w) !! I = Some p →
         (is_online p = true ↔ (0 < connection_count p)%nat))) ∧
  ((1 ≤ active_connection_count (mgr w) I)%nat → is_user_online (mgr w) I = true) ∧
  (∀ tr fuel calls c_last t_last,
     (1 ≤ active_connection_count (mgr w) I)%nat →
     calls.*1 ≡ₚ (map_to_list (connections_of (mgr w) I)).*1 →
     last calls = Some (c_last, t_last) →
     (size (connections (mgr w)) < fuel)%nat →
     ∃ w', disconnect_all tr fuel I calls w = Ok tt w' ∧
           is_user_online (mgr w') I = false ∧
           presence (mgr w') !! I = Some (mkPresence false t_last 0)).
Proof.
  split; [|split].
  - intros Hw. split.
    + by apply reachable_presence_consistent.
    + intros p Hp. by eapply reachable_presence_record.
  - unfold active_connection_count, connections_of, is_user_online.
    destruct (connections (mgr w) !! I) as [conns|]; simpl.
    + intros Hn. apply bool_decide_eq_true. lia.
    + rewrite map_size_empty. lia.
  - intros tr fuel calls c_last t_last Hn Hperm Hlast Hfuel.
    unfold active_connection_count, connections_of in *.
    destruct (connections (mgr w) !! I) as [conns|] eqn:HI; simpl in *.
    + destruct (disconnect_all_offline tr fuel I calls w conns c_last t_last)
        as (w' & Hrun & Hoff & Hp); try done.
      exists w'. split; [exact Hrun|]. split; [|exact Hp].
      unfold is_user_online. by rewrite Hoff.
    + rewrite map_size_empty in Hn. lia.
Qed.

Lemma two_device_world_reachable : reachable two_device_world.
Proof. unfold two_device_world. do 2 apply reachable_exec. apply reachable_init. Qed.

Lemma online_flag_tracks_connections_witness :
  reachable two_device_world ∧
  (1 ≤ active_connection_count (mgr two_device_world) 7)%nat ∧
  [("c1", 20); ("c2", 30)].*1 ≡ₚ
    (map_to_list (connections_of (mgr two_device_world) 7)).*1 ∧
  last [("c1", 20); ("c2", 30)] = Some ("c2", 30) ∧
  (size (connections (mgr two_device_world)) < 8)%nat ∧
  (online_flag (mgr two_device_world) 7 = true ↔
   (0 < active_connection_count (mgr two_device_world) 7)%nat) ∧
  is_user_online (mgr two_device_world) 7 = true ∧
  ∃ w', disconnect_all all_accepting 8 7 [("c1", 20); ("c2", 30)] two_device_world
          = Ok tt w' ∧
        is_user_online (mgr w') 7 = false ∧
        presence (mgr w') !! 7 = Some (mkPresence false 30 0).
Proof.
  assert (H1 : (1 ≤ active_connection_count (mgr two_device_world) 7)%nat)
    by (vm_compute; lia).
  assert (H2 : [("c1", 20); ("c2", 30)].*1 ≡ₚ
               (map_to_list (connections_of (mgr two_device_world) 7)).*1)
    by (vm_compute; reflexivity).
  assert (H3 : (size (connections (mgr two_device_world)) < 8)%nat)
    by (vm_compute; lia).
  destruct (online_flag_tracks_connections two_device_world 7) as (Ha & Hb & Hc).
  split; [exact two_device_world_reachable|].
  split; [exact H1|]. split; [exact H2|]. split; [reflexivity|]. split; [exact H3|].
  split; [exact (proj1 (Ha two_device_world_reachable))|].
  split; [exact (Hb H1)|].
  exact (Hc all_accepting 8%nat [("c1", 20); ("c2", 30)] "c2" 30 H1 H2 eq_refl H3).
Defined.

(** ** C1: [send_to_user] under partial failure *)



(** ** C2: a new message and the sender's typing signal *)


(** ** C6: typing signals at disconnect *)

(** C6 is false as stated: after the endpoint has closed the only connection
    of user 1, the typing signal of user 1 in conversation 5 is still there. *)
Lemma close_keeps_typing_signal :
  ¬ claimed_close_clears_typing all_accepting 3000000 8 alice typing_world.
Proof.
  intros Hclaim.
  assert (Hrun : Router.on_close all_accepting 3000000 8 alice typing_world =
                 Ok tt (after (Router.on_close all_accepting 3000000 8 alice) typing_world)).
  { vm_compute. reflexivity. }
  pose proof (Hclaim _ "conv_5" Hrun) as H.
  vm_compute in H. discriminate.
Qed.

(** C6, amended.  [disconnect], and with it the [finally] block of the
    endpoint, returns and leaves every typing signal as it was: the signal
    of [(R, I)] outlives the disconnect of [I] with its expiry unchanged.
    [ChatConnectionManager.disconnect] leaves the typing records alone as
    well, however it ends.  A typing signal goes away only as follows: in
    [WebSocketConnectionManager] through [handle_typing] with
    [is_typing = False] for that room and identity (at the endpoint: a
    TYPING event of that identity for that room whose [is_typing] is false
    or missing) or through the sweep, and then only once [now > expiry];
    in [ChatConnectionManager], which has no sweep, through [handle_typing]
    with [is_typing = False] or through [handle_new_message] for a message
    of that identity in that conversation. *)
Theorem disconnect_leaves_typing_signals (tr : Transport) (now : Z) (fuel : nat)
    (s : Router.Session) (w : World) :
  (size (connections (mgr w)) < fuel)%nat →
  (∃ w', Router.on_close tr now fuel s w = Ok tt w' ∧
         typing_status (mgr w') = typing_status (mgr w) ∧
         ∀ R I, typing_expiry (mgr w') R I = typing_expiry (mgr w) R I) ∧
  (∀ ctr ws u cw cw',
     final_world (ChatConnectionManager.disconnect ctr now fuel ws u cw) = Some cw' →
     ChatConnectionManager.typing_users (ChatConnectionManager.chat cw') =
     ChatConnectionManager.typing_users (ChatConnectionManager.chat cw)) ∧
  (∀ tr' now' fuel' call w0 w1 R I e,
     final_world (run_call tr' now' fuel' call w0) = Some w1 →
     typing_expiry (mgr w0) R I = Some e →
     typing_expiry (mgr w1) R I = None →
     call = CallHandleTyping R I false ∨ (call = CallCleanupPass ∧ e < now')) ∧
  (∀ tr' now' fuel' s' ev w0 w1 R I e,
     final_world (Router.on_event tr' now' fuel' s' ev w0) = Some w1 →
     typing_expiry (mgr w0) R I = Some e →
     typing_expiry (mgr w1) R I = None →
     ∃ a b t rid,
       ev = Router.TypingEvent a b t ∧
       Router.room_of a b = Some rid ∧
       R = Router.conv_room rid ∧
       I = Router.session_user_id s' ∧
       default false t = false) ∧
  (∀ ctr now' fuel' call cw cw' conv u t,
     final_world (run_chat_call ctr now' fuel' call cw) = Some cw' →
     ChatConnectionManager.typing_since (ChatConnectionManager.chat cw) conv u = Some t →
     ChatConnectionManager.typing_since (ChatConnectionManager.chat cw') conv u = None →
     (∃ name, call = ChatHandleTyping conv u name false) ∨
     (∃ data, call = ChatHandleNewMessage conv data ∧
              ChatConnectionManager.sender_id data = Some u)).
Proof.
  intros Hfuel. split; [|split; [|split; [|split]]].
  - unfold Router.on_close.
    destruct (disconnect_returns tr now fuel (Router.session_connection_id s)
                (Router.session_user_id s) w Hfuel) as [w' Hrun].
    exists w'. split; [exact Hrun|].
    pose proof (disconnect_leaves_typing tr now fuel (Router.session_connection_id s)
                  (Router.session_user_id s) (typing_status (mgr w)) w eq_refl) as Ht.
    rewrite Hrun in Ht. split; [exact Ht|].
    intros R I. unfold typing_expiry. by rewrite Ht.
  - intros ctr ws u cw cw' Hfin.
    pose proof (chat_disconnect_typing ctr now
                  (ChatConnectionManager.typing_users (ChatConnectionManager.chat cw))
                  fuel ws u cw eq_refl) as Ht.
    destruct (ChatConnectionManager.disconnect ctr now fuel ws u cw);
      simpl in Hfin; by simplify_eq.
  - intros tr' now' fuel' call w0 w1 R I e Hrun Hsome Hnone.
    assert (Hother : (∀ r u b, call ≠ CallHandleTyping r u b) →
                     call ≠ CallCleanupPass → False).
    { intros H1 H2.
      pose proof (final_world_preserved
                    (λ w2, typing_status (mgr w2) = typing_status (mgr w0)) _ w0 w1
                    (run_call_leaves_typing tr' now' fuel' call _ H1 H2) eq_refl Hrun)
        as Hts.
      unfold typing_expiry in *. rewrite Hts in Hnone. congruence. }
    destruct call as [| | | | | |r u b| |];
      try (exfalso; apply Hother; [intros ? ? ?; discriminate|discriminate]).
    + apply handle_typing_final in Hrun. unfold typing_expiry in *.
      rewrite Hrun, set_typing_flag_expiry in Hnone.
      case_decide as Heq; [|congruence].
      destruct Heq as [-> ->]. destruct b; [done|]. by left.
    + right. split; [done|].
      pose proof (cleanup_pass_swept tr' now' fuel' (mgr w0) w0
                    (swept_from_refl now' _)) as Hs.
      cbn [run_call] in Hrun.
      destruct (cleanup_pass tr' now' fuel' w0) as [[] w2|e2 w2|];
        cbn in Hrun; simplify_eq.
      * destruct Hs as [_ Hkeep]. destruct (decide (now' ≤ e)) as [Hle|]; [|lia].
        rewrite (Hkeep R I e Hsome Hle) in Hnone. done.
      * destruct Hs as [_ Hkeep]. destruct (decide (now' ≤ e)) as [Hle|]; [|lia].
        rewrite (Hkeep R I e Hsome Hle) in Hnone. done.
  - intros tr' now' fuel' s' ev w0 w1 R I e Hrun Hsome Hnone.
    apply on_event_typing_final in Hrun. unfold typing_expiry in *.
    rewrite Hrun in Hnone.
    destruct ev as [|a b|a b|a b t|conv content|name]; try congruence.
    destruct (Router.room_of a b) as [rid|] eqn:Hroom; [|congruence].
    rewrite set_typing_flag_expiry in Hnone.
    case_decide as Heq; [|congruence]. destruct Heq as [-> ->].
    exists a, b, t, rid. repeat split; auto.
    by destruct (default false t).
  - intros ctr now' fuel' call cw cw' conv u t Hrun Hsome Hnone.
    apply run_chat_call_typing_final in Hrun.
    unfold ChatConnectionManager.typing_since in *. rewrite Hrun in Hnone.
    destruct call as [| | | | | |c0 u0 name b|c0 data| |]; try congruence.
    + rewrite chat_set_typing_flag_since in Hnone.
      case_decide as Heq; [|congruence]. destruct Heq as [-> ->].
      destruct b; [done|]. left. by exists name.
    + rewrite clear_sender_typing_since in Hnone.
      case_decide as Heq; [|congruence]. destruct Heq as [-> Hsender].
      right. by exists data.
Qed.

Lemma disconnect_leaves_typing_signals_witness :
  (size (connections (mgr typing_world)) < 8)%nat ∧
  ∃ w', Router.on_close all_accepting 3000000 8 alice typing_world = Ok tt w' ∧
        typing_status (mgr w') = typing_status (mgr typing_world) ∧
        ∀ R I, typing_expiry (mgr w') R I = typing_expiry (mgr typing_world) R I.
Proof.
  assert (H : (size (connections (mgr typing_world)) < 8)%nat) by (vm_compute; lia).
  split; [exact H|].
  exact (proj1 (disconnect_leaves_typing_signals all_accepting 3000000 8 alice
                  typing_world H)).
Defined.

(** ** C8 and C9: what [disconnect] does to the rooms, and repeating it *)

(** C8 is false as stated: users 1 and 2 share conversation 5; when the only
    connection of user 1 is disconnected the user is offline and no longer a
    member of the room. *)
Lemma membership_lost_when_offline :
  ¬ claimed_membership_survives_offline all_accepting 3000000 8 "c1" 1 chat_world.
Proof.
  intros Hclaim.
  assert (Hrun : disconnect all_accepting 3000000 8 "c1" 1 chat_world =
                 Ok tt (after (disconnect all_accepting 3000000 8 "c1" 1) chat_world)).
  { vm_compute. reflexivity. }
  pose proof (Hclaim _ "conv_5" Hrun) as H.
  assert (Hoff : is_user_online
                   (mgr (after (disconnect all_accepting 3000000 8 "c1" 1) chat_world)) 1
                 = false) by (vm_compute; reflexivity).
  assert (Hin : 1 ∈ get_room_members (mgr chat_world) "conv_5").
  { apply (bool_decide_unpack _). by vm_compute. }
  specialize (H Hoff Hin).
  apply (bool_decide_pack _) in H. by vm_compute in H.
Qed.

(** C8, amended.  Room membership follows the connections: a [disconnect]
    that leaves the identity with another registered connection changes no
    room (and the identity stays online); a [disconnect] whose cleanup runs
    to its end and leaves the identity without connection has removed it
    from every room, and a room in which it was the only member is deleted.
    [ChatConnectionManager.disconnect], whenever it returns, has removed
    the identity from every room (deleting the rooms it was alone in).
    Explicit leave removes the membership as well, in both managers: after
    [leave_room] the identity is not a member, the other members stay,
    no other room changes, and a room left empty is deleted. *)
Theorem membership_follows_connections (tr : Transport) (now : Z) (fuel : nat)
    (c : string) (u : Z) (w : World) :
  (∀ c' ws, c' ≠ c → connections_of (mgr w) u !! c' = Some ws →
     ∃ w', disconnect tr now (S fuel) c u w = Ok tt w' ∧
           rooms (mgr w') = rooms (mgr w) ∧
           is_user_online (mgr w') u = true) ∧
  (∀ w', disconnect_try tr now (disconnect tr now fuel) c u w = Ok tt w' →
     disconnect tr now (S fuel) c u w = Ok tt w' ∧
     (connections (mgr w') !! u = None → ∀ R, u ∉ get_room_members (mgr w') R)) ∧
  (∀ ctr ws cw cw',
     ChatConnectionManager.disconnect ctr now fuel ws u cw = Ok tt cw' →
     ∀ R, u ∉ default ∅ (ChatConnectionManager.room_members
                            (ChatConnectionManager.chat cw') !! R)) ∧
  (∀ w' R,
     disconnect_try tr now (disconnect tr now fuel) c u w = Ok tt w' →
     connections (mgr w') !! u = None →
     rooms (mgr w) !! R = Some {[u]} →
     rooms (mgr w') !! R = None) ∧
  (∀ ctr ws cw cw' R,
     ChatConnectionManager.disconnect ctr now fuel ws u cw = Ok tt cw' →
     ChatConnectionManager.room_members (ChatConnectionManager.chat cw) !! R
       = Some {[u]} →
     ChatConnectionManager.room_members (ChatConnectionManager.chat cw') !! R = None) ∧
  (∀ R, ∃ w',
     leave_room R u w = Ok tt w' ∧
     (u ∉ get_room_members (mgr w') R) ∧
     get_room_members (mgr w') R = get_room_members (mgr w) R ∖ {[u]} ∧
     (get_room_members (mgr w) R ∖ {[u]} = ∅ → rooms (mgr w') !! R = None) ∧
     (∀ R', R' ≠ R → rooms (mgr w') !! R' = rooms (mgr w) !! R') ∧
     connections (mgr w') = connections (mgr w)) ∧
  (∀ conv cw, ∃ cw',
     ChatConnectionManager.leave_room conv u cw = Ok tt cw' ∧
     (u ∉ default ∅ (ChatConnectionManager.room_members
                       (ChatConnectionManager.chat cw') !! conv)) ∧
     default ∅ (ChatConnectionManager.room_members
                  (ChatConnectionManager.chat cw') !! conv)
       = default ∅ (ChatConnectionManager.room_members
                      (ChatConnectionManager.chat cw) !! conv) ∖ {[u]} ∧
     (default ∅ (ChatConnectionManager.room_members
                   (ChatConnectionManager.chat cw) !! conv) ∖ {[u]} = ∅ →
      ChatConnectionManager.room_members (ChatConnectionManager.chat cw') !! conv
        = None)).
Proof.
  split; [|split; [|split; [|split; [|split; [|split]]]]].
  - intros c' ws Hne Hc'. by eapply disconnect_still_online.
  - intros w' Htry. split; [by apply disconnect_of_try|].
    by apply (disconnect_complete_offline tr now fuel c u w w').
  - intros ctr ws cw cw' Hrun. by eapply chat_disconnect_leaves_all_rooms.
  - intros w' R. apply disconnect_deletes_own_room.
  - intros ctr ws cw cw' R. apply chat_disconnect_deletes_own_room.
  - intros R. destruct (leave_room_effect R u w) as (w' & Hrun & Hm & Hdel & Hoth & Hc).
    exists w'. split; [exact Hrun|]. split; [rewrite Hm; set_solver|].
    by repeat split.
  - intros conv cw.
    destruct (chat_leave_room_effect conv u cw) as (cw' & Hrun & Hm & Hdel).
    exists cw'. split; [exact Hrun|]. split; [rewrite Hm; set_solver|]. by split.
Qed.

Lemma membership_follows_connections_witness :
  (∃ w', disconnect all_accepting 20 8 "c1" 7 two_device_room_world = Ok tt w' ∧
         rooms (mgr w') = rooms (mgr two_device_room_world) ∧
         is_user_online (mgr w') 7 = true) ∧
  (∃ w', disconnect all_accepting 20 8 "c1" 1 chat_world = Ok tt w' ∧
         ∀ R, 1 ∉ get_room_members (mgr w') R) ∧
  (∃ cw', ChatConnectionManager.disconnect chat_all_accepting 20 7 11%nat 1
            chat_trio_world = Ok tt cw' ∧
          ∀ R, 1 ∉ default ∅ (ChatConnectionManager.room_members
                                 (ChatConnectionManager.chat cw') !! R)).
Proof.
  split; [|split].
  - apply (proj1 (membership_follows_connections all_accepting 20 7 "c1" 7
                    two_device_room_world) "c2" 2%nat).
    + done.
    + vm_compute. reflexivity.
  - assert (Htry : disconnect_try all_accepting 20 (disconnect all_accepting 20 7) "c1" 1
                     chat_world =
                   Ok tt (after (disconnect all_accepting 20 8 "c1" 1) chat_world)).
    { vm_compute. reflexivity. }
    destruct (proj1 (proj2 (membership_follows_connections all_accepting 20 7 "c1" 1
                              chat_world)) _ Htry) as [Hrun Hrooms].
    eexists. split; [exact Hrun|]. apply Hrooms. vm_compute. reflexivity.
  - assert (Hrun : ChatConnectionManager.disconnect chat_all_accepting 20 7 11%nat 1
                     chat_trio_world =
                   Ok tt (after (ChatConnectionManager.disconnect chat_all_accepting 20 7
                                   11%nat 1) chat_trio_world)).
    { vm_compute. reflexivity. }
    eexists. split; [exact Hrun|].
    exact (proj1 (proj2 (proj2 (membership_follows_connections all_accepting 20 7 "c1" 1
                                  chat_world)))
             chat_all_accepting 11%nat chat_trio_world _ Hrun).
Defined.

(** C9 is false as stated: user 7 is subscribed to room "r" and has no
    connection; [disconnect] on the unknown id "ghost" removes the user from
    the room, and the room with it. *)
Lemma disconnect_unregistered_changes_rooms :
  ¬ claimed_disconnect_unregistered_noop all_accepting 20 8 "ghost" 7
      offline_member_world.
Proof.
  intros Hclaim.
  assert (H : disconnect all_accepting 20 8 "ghost" 7 offline_member_world =
              Ok tt offline_member_world).
  { apply Hclaim.
    - intros u. vm_compute. reflexivity.
    - vm_compute. reflexivity.
    - vm_compute. reflexivity. }
  vm_compute in H. discriminate.
Qed.

(** The second half of C9 fails as well when the first call is cut short:
    the socket of user 2 is dead, so the presence broadcast of the first
    [disconnect] of user 1 fails inside the loop over the room; a second
    call then finishes the cleanup. *)
Example disconnect_twice_differs :
  after (disconnect (failing_socket 12) 21 8 "c1" 1)
        (after (disconnect (failing_socket 12) 20 8 "c1" 1) chat_world)
  ≠ after (disconnect (failing_socket 12) 20 8 "c1" 1) chat_world.
Proof. vm_compute. discriminate. Qed.

(** C9, amended.  [disconnect] returns without raising.  On a connection id
    that is not registered for the user it sends nothing and leaves
    connections, presence and typing signals untouched, but it still deletes
    the metadata and the heartbeat of the id and, when the user has no
    connection, takes the user out of every room (deleting the rooms it was
    alone in); with a connection of the user left, no room changes.  Such a
    call changes nothing at all if and only if the id has no metadata and no
    heartbeat and the user either has a connection or is a member of no
    room.  When the first call ran to the end of its cleanup, calling it
    again changes nothing. *)
Theorem disconnect_repeatable (tr : Transport) (now : Z) (fuel : nat)
    (c : string) (u : Z) (w : World) :
  ((size (connections (mgr w)) < fuel)%nat →
   ∃ w', disconnect tr now fuel c u w = Ok tt w') ∧
  (connections_of (mgr w) u !! c = None →
   disconnect tr now (S fuel) c u w =
     Ok tt (mkWorld (forget_connection c u (mgr w)) (outbox w)) ∧
   connections (forget_connection c u (mgr w)) = connections (mgr w) ∧
   presence (forget_connection c u (mgr w)) = presence (mgr w) ∧
   typing_status (forget_connection c u (mgr w)) = typing_status (mgr w) ∧
   (connection_meta (mgr w) !! c = None →
    heartbeats (mgr w) !! c = None →
    is_Some (connections (mgr w) !! u) ∨ (∀ R, u ∉ get_room_members (mgr w) R) →
    disconnect tr now (S fuel) c u w = Ok tt w) ∧
   ∃ w', disconnect tr now (S fuel) c u w = Ok tt w' ∧
     outbox w' = outbox w ∧
     connections (mgr w') = connections (mgr w) ∧
     presence (mgr w') = presence (mgr w) ∧
     typing_status (mgr w') = typing_status (mgr w) ∧
     connection_meta (mgr w') = delete c (connection_meta (mgr w)) ∧
     heartbeats (mgr w') = delete c (heartbeats (mgr w)) ∧
     (is_Some (connections (mgr w) !! u) → rooms (mgr w') = rooms (mgr w)) ∧
     (connections (mgr w) !! u = None →
      ∀ R, get_room_members (mgr w') R = get_room_members (mgr w) R ∖ {[u]} ∧
           (u ∈ get_room_members (mgr w) R →
            get_room_members (mgr w) R ∖ {[u]} = ∅ →
            rooms (mgr w') !! R = None)) ∧
     (w' = w ↔
      connection_meta (mgr w) !! c = None ∧
      heartbeats (mgr w) !! c = None ∧
      (is_Some (connections (mgr w) !! u) ∨ (∀ R, u ∉ get_room_members (mgr w) R)))) ∧
  (∀ w', disconnect_try tr now (disconnect tr now fuel) c u w = Ok tt w' →
     disconnect tr now (S fuel) c u w = Ok tt w' ∧
     ∀ tr' now' fuel', disconnect tr' now' (S fuel') c u w' = Ok tt w') ∧
  (∀ e w', disconnect tr now fuel c u w ≠ Raised e w').
Proof.
  split; [|split; [|split]].
  - apply disconnect_returns.
  - intros Hc. rewrite disconnect_unregistered by done.
    destruct (forget_connection_frame c u (mgr w)) as (Hcs & Ht & Hp).
    assert (Hnoop : connection_meta (mgr w) !! c = None →
              heartbeats (mgr w) !! c = None →
              is_Some (connections (mgr w) !! u) ∨ (∀ R, u ∉ get_room_members (mgr w) R) →
              mkWorld (forget_connection c u (mgr w)) (outbox w) = w).
    { intros Hm Hh Hr. rewrite forget_connection_noop; [by destruct w|done|done|].
      destruct Hr as [Hr|Hr]; [by left|right].
      intros r s Hs Hin. apply (Hr r). unfold get_room_members. by rewrite Hs. }
    split; [done|]. split; [done|]. split; [done|]. split; [done|].
    split; [intros Hm Hh Hr; by rewrite Hnoop|].
    eexists. split; [reflexivity|]. cbn [mgr outbox].
    assert (Hmeta : connection_meta (forget_connection c u (mgr w))
                    = delete c (connection_meta (mgr w)))
      by by rewrite forget_connection_fields.
    assert (Hhb : heartbeats (forget_connection c u (mgr w))
                  = delete c (heartbeats (mgr w)))
      by by rewrite forget_connection_fields.
    assert (Hrooms : rooms (forget_connection c u (mgr w)) =
                     if decide (is_Some (connections (mgr w) !! u)) then rooms (mgr w)
                     else omap (drop_member u) (rooms (mgr w)))
      by by rewrite forget_connection_fields.
    split; [done|]. split; [done|]. split; [done|]. split; [done|].
    split; [done|]. split; [done|]. split; [|split].
    + intros Hon. rewrite Hrooms. by rewrite decide_True.
    + intros Hoff R. unfold get_room_members. rewrite Hrooms.
      rewrite decide_False; [|rewrite Hoff; by intros [? ?]].
      rewrite lookup_omap.
      destruct (rooms (mgr w) !! R) as [members|];
        cbn [mbind option_bind default from_option id].
      2: { split; [|done]. clear. set_solver. }
      clear Hrooms. unfold drop_member.
      destruct (decide (u ∈ members)) as [Hin|Hin].
      * destruct (decide (members ∖ {[u]} = ∅)) as [He|He];
          cbn [default from_option id]; [by rewrite He|]. by split.
      * cbn [default from_option id]. split; [clear -Hin; set_solver|done].
    + split.
      * intros Heq. apply (f_equal mgr) in Heq. cbn [mgr] in Heq.
        split; [|split].
        -- rewrite <- Heq, Hmeta. apply lookup_delete_eq.
        -- rewrite <- Heq, Hhb. apply lookup_delete_eq.
        -- destruct (decide (is_Some (connections (mgr w) !! u))) as [Hon|Hoff];
             [by left|right].
           intros R Hin. unfold get_room_members in Hin.
           destruct (rooms (mgr w) !! R) as [members|] eqn:HR; cbn in Hin; [|set_solver].
           assert (Hd : rooms (forget_connection c u (mgr w)) !! R = Some members)
             by by rewrite Heq.
           rewrite Hrooms, lookup_omap, HR in Hd. cbn in Hd.
           by apply drop_member_not_in in Hd.
      * intros (Hm & Hh & Hr). by apply Hnoop.
  - intros w' Htry. split; [by apply disconnect_of_try|].
    by eapply disconnect_again.
  - intros e w'. apply disconnect_never_raises.
Qed.

Lemma disconnect_repeatable_witness :
  (size (connections (mgr chat_world)) < 8)%nat ∧
  connections_of (mgr chat_world) 1 !! "ghost" = None ∧
  disconnect all_accepting 20 8 "ghost" 1 chat_world = Ok tt chat_world ∧
  ∃ w', disconnect all_accepting 20 8 "c1" 1 chat_world = Ok tt w' ∧
        disconnect all_accepting 21 8 "c1" 1 w' = Ok tt w'.
Proof.
  assert (H1 : (size (connections (mgr chat_world)) < 8)%nat) by (vm_compute; lia).
  assert (H2 : connections_of (mgr chat_world) 1 !! "ghost" = None)
    by (vm_compute; reflexivity).
  split; [exact H1|]. split; [exact H2|]. split.
  - destruct (disconnect_repeatable all_accepting 20 7 "ghost" 1 chat_world)
      as (_ & Hun & _).
    destruct (Hun H2) as (_ & _ & _ & _ & Hnoop & _).
    apply Hnoop.
    + vm_compute. reflexivity.
    + vm_compute. reflexivity.
    + left. vm_compute. eauto.
  - assert (Htry : disconnect_try all_accepting 20 (disconnect all_accepting 20 7) "c1" 1
                     chat_world =
                   Ok tt (after (disconnect all_accepting 20 8 "c1" 1) chat_world)).
    { vm_compute. reflexivity. }
    destruct (disconnect_repeatable all_accepting 20 7 "c1" 1 chat_world)
      as (_ & _ & Hrep & _).
    destruct (Hrep _ Htry) as [Hrun Hagain].
    eexists. split; [exact Hrun|]. apply Hagain.
Defined.

(** ** C3: the sweep of the typing signals *)




(** ** C7: the excluded identity of a room broadcast *)

(** C7, on the failing input.  Users 0, 1 and 2 (sockets 10, 11, 12) are the
    members of room "r".  A broadcast that excludes user 0 still delivers the
    payload to the socket of user 0, whereas one that excludes user 1 skips
    the socket of user 1.  [ChatConnectionManager.broadcast_to_room] has the
    same guard and does the same. *)
Theorem broadcast_does_not_exclude_user_zero :
  excluded (Some 0) 0 = false ∧
  (∃ w', broadcast_to_room all_accepting 20 8 "r" (Payload "hi") (Some 0) trio_world
           = Ok tt w' ∧
         ((10%nat, Payload "hi") ∈ outbox w') ∧
         ((11%nat, Payload "hi") ∈ outbox w') ∧
         ((12%nat, Payload "hi") ∈ outbox w')) ∧
  (∃ w', broadcast_to_room all_accepting 20 8 "r" (Payload "hi") (Some 1) trio_world
           = Ok tt w' ∧
         ((10%nat, Payload "hi") ∈ outbox w') ∧
         ((11%nat, Payload "hi") ∉ outbox w') ∧
         ((12%nat, Payload "hi") ∈ outbox w')) ∧
  (∃ cw', ChatConnectionManager.broadcast_to_room chat_all_accepting 20 8 5
            (ChatConnectionManager.ChatPayload "hi") (Some 0) chat_trio_world
            = Ok tt cw' ∧
          ((10%nat, ChatConnectionManager.ChatPayload "hi")
             ∈ ChatConnectionManager.delivered cw')).
Proof.
  split; [reflexivity|]. split; [|split].
  - exists (after (broadcast_to_room all_accepting 20 8 "r" (Payload "hi") (Some 0))
                  trio_world).
    split; [vm_compute; reflexivity|].
    split; [apply (bool_decide_unpack _); by vm_compute|].
    split; apply (bool_decide_unpack _); by vm_compute.
  - exists (after (broadcast_to_room all_accepting 20 8 "r" (Payload "hi") (Some 1))
                  trio_world).
    split; [vm_compute; reflexivity|].
    split; [apply (bool_decide_unpack _); by vm_compute|].
    split; [|apply (bool_decide_unpack _); by vm_compute].
    intros Hin. apply (bool_decide_pack _) in Hin. by vm_compute in Hin.
  - exists (after (ChatConnectionManager.broadcast_to_room chat_all_accepting 20 8 5
                     (ChatConnectionManager.ChatPayload "hi") (Some 0))
                  chat_trio_world).
    split; [vm_compute; reflexivity|].
    apply (bool_decide_unpack _); by vm_compute.
Qed.

(** * Further properties of the code *)

(** ** Rooms: [join_room] and [leave_room] *)

(** X1.  In a manager without empty rooms, a user who is not a member of
    room [r] can join it and leave it again and the manager is as before;
    joining twice is joining once, and leaving a room one is not a member of
    changes nothing. *)
Theorem join_then_leave_restores (w : World) (r : string) (u : Z) :
  no_empty_room (mgr w) →
  u ∉ get_room_members (mgr w) r →
  ∃ w1,
    join_room r u w = Ok tt w1 ∧
    get_room_members (mgr w1) r = get_room_members (mgr w) r ∪ {[u]} ∧
    join_room r u w1 = Ok tt w1 ∧
    leave_room r u w1 = Ok tt w ∧
    leave_room r u w = Ok tt w.
Proof.
  intros Hinv Hnot. unfold join_room, leave_room, modify_mgr, get_room_members in *.
  eexists. split; [reflexivity|]. cbn [mgr outbox]. fields.
  assert (Hw : ∀ rs, rs = rooms (mgr w) →
            mkWorld (mkManager (connections (mgr w)) rs (typing_status (mgr w))
                       (presence (mgr w)) (heartbeats (mgr w)) (connection_meta (mgr w)))
                    (outbox w) = w).
  { intros rs ->. by destruct w as [[] ?]. }
  split; [|split; [|split]].
  - unfold add_member. by rewrite lookup_insert_eq.
  - do 2 f_equal. f_equal. unfold add_member.
    rewrite lookup_insert_eq. cbn [default from_option]. rewrite insert_insert_eq.
    f_equal. set_solver.
  - f_equal. apply Hw. unfold remove_member, add_member.
    rewrite lookup_insert_eq. cbv zeta.
    destruct (rooms (mgr w) !! r) as [s|] eqn:Hr; simpl in *.
    + assert ((s ∪ {[u]}) ∖ {[u]} = s) as -> by set_solver.
      rewrite decide_False by eauto. rewrite insert_insert_eq. by apply insert_id.
    + assert (((∅ : gset Z) ∪ {[u]}) ∖ {[u]} = ∅) as -> by set_solver.
      rewrite decide_True by done. rewrite delete_insert_eq. by apply delete_id.
  - f_equal. apply Hw. unfold remove_member.
    destruct (rooms (mgr w) !! r) as [s|] eqn:Hr; simpl in *; [|done].
    assert (s ∖ {[u]} = s) as -> by set_solver.
    rewrite decide_False by eauto. by apply insert_id.
Qed.

Lemma join_then_leave_restores_witness :
  no_empty_room (mgr chat_world) ∧
  (7 ∉ get_room_members (mgr chat_world) "conv_5") ∧
  ∃ w1, join_room "conv_5" 7 chat_world = Ok tt w1 ∧
        leave_room "conv_5" 7 w1 = Ok tt chat_world.
Proof.
  assert (H1 : no_empty_room (mgr chat_world)).
  { apply reachable_no_empty_room. unfold chat_world.
    do 4 apply reachable_exec. apply reachable_init. }
  assert (H2 : 7 ∉ get_room_members (mgr chat_world) "conv_5").
  { intros Hin. apply (bool_decide_pack _) in Hin. by vm_compute in Hin. }
  split; [exact H1|]. split; [exact H2|].
  destruct (join_then_leave_restores chat_world "conv_5" 7 H1 H2)
    as (w1 & Hjoin & _ & _ & Hleave & _).
  exists w1. split; [exact Hjoin|exact Hleave].
Defined.

(** ** Typing signals: [handle_typing] *)

(** X2.  Whatever becomes of the broadcast that follows (it may meet dead
    sockets or raise), [handle_typing] leaves the typing signal of
    [(room, user)] at [now + 5 s] when the user starts typing and absent when
    the user stops, and changes no other typing signal. *)
Theorem handle_typing_sets_only_own_signal (tr : Transport) (now : Z) (fuel : nat)
    (r : string) (u : Z) (typing : bool) (w w' : World) :
  final_world (handle_typing tr now fuel r u typing w) = Some w' →
  typing_expiry (mgr w') r u = (if typing then Some (now + typing_ttl) else None) ∧
  ∀ r' u', (r', u') ≠ (r, u) →
    typing_expiry (mgr w') r' u' = typing_expiry (mgr w) r' u'.
Proof.
  intros Hrun. unfold handle_typing in Hrun. rewrite bind_run in Hrun.
  cbn [modify_mgr] in Hrun.
  pose proof (broadcast_to_room_leaves_typing tr now fuel r
                (Typing r u typing now) (Some u)
                (set_typing_flag now r u typing (typing_status (mgr w)))
                (mkWorld (with_typing_status (set_typing_flag now r u typing) (mgr w))
                         (outbox w)) eq_refl) as Hts.
  assert (Hw' : typing_status (mgr w') =
                set_typing_flag now r u typing (typing_status (mgr w))).
  { destruct (broadcast_to_room _ _ _ _ _ _ _); simpl in Hrun; by simplify_eq. }
  unfold typing_expiry. rewrite Hw'. clear. unfold set_typing_flag.
  split.
  - destruct typing.
    + rewrite lookup_insert_eq. simpl. by rewrite lookup_insert_eq.
    + destruct (typing_status (mgr w) !! r) as [t|] eqn:Hr.
      * rewrite lookup_insert_eq. simpl. by rewrite lookup_delete_eq.
      * by rewrite Hr.
  - intros r' u' Hne. destruct (decide (r' = r)) as [->|Hr'].
    + assert (u' ≠ u) by congruence.
      destruct typing.
      * rewrite lookup_insert_eq. simpl. rewrite lookup_insert_ne by done.
        by destruct (typing_status (mgr w) !! r).
      * destruct (typing_status (mgr w) !! r) as [t|] eqn:Hr; [|by rewrite Hr].
        rewrite lookup_insert_eq. simpl. by rewrite lookup_delete_ne.
    + destruct typing.
      * by rewrite lookup_insert_ne.
      * destruct (typing_status (mgr w) !! r) as [t|] eqn:Hr; [|done].
        by rewrite lookup_insert_ne.
Qed.

Lemma handle_typing_sets_only_own_signal_witness :
  final_world (handle_typing all_accepting 2000000 8 "conv_5" 1 false typing_world)
    = Some (after (handle_typing all_accepting 2000000 8 "conv_5" 1 false) typing_world) ∧
  typing_expiry (mgr typing_world) "conv_5" 1 = Some 6000000 ∧
  typing_expiry
    (mgr (after (handle_typing all_accepting 2000000 8 "conv_5" 1 false) typing_world))
    "conv_5" 1 = None.
Proof.
  assert (H : final_world (handle_typing all_accepting 2000000 8 "conv_5" 1 false typing_world)
    = Some (after (handle_typing all_accepting 2000000 8 "conv_5" 1 false) typing_world)).
  { vm_compute. reflexivity. }
  split; [exact H|]. split; [vm_compute; reflexivity|].
  exact (proj1 (handle_typing_sets_only_own_signal _ _ _ _ _ _ _ _ H)).
Defined.

(** ** Heartbeats: [handle_heartbeat] *)

(** X3.  [handle_heartbeat] always returns.  For a connection id without
    metadata it does nothing at all.  Otherwise it sets the heartbeat and
    the last activity of that id to [now], leaves every other dict alone,
    and sends one PONG to the socket registered under the id for the user
    named in the metadata; a PONG the socket refuses is dropped silently,
    and no PONG is sent when the id is not registered for that user. *)
Theorem handle_heartbeat_effect (tr : Transport) (now : Z) (c : string) (w : World) :
  ∃ w', handle_heartbeat tr now c w = Ok tt w' ∧
    match connection_meta (mgr w) !! c with
    | None => w' = w
    | Some meta =>
        heartbeats (mgr w') = <[c := now]> (heartbeats (mgr w)) ∧
        connection_meta (mgr w') =
          <[c := mkConnMeta (meta_user_id meta) (meta_connected_at meta)
                            (meta_device_info meta) now]> (connection_meta (mgr w)) ∧
        connections (mgr w') = connections (mgr w) ∧
        rooms (mgr w') = rooms (mgr w) ∧
        typing_status (mgr w') = typing_status (mgr w) ∧
        presence (mgr w') = presence (mgr w) ∧
        outbox w' = outbox w ++
          match connections_of (mgr w) (meta_user_id meta) !! c with
          | Some ws => if send_ok tr ws (Pong now) then [(ws, Pong now)] else []
          | None => []
          end
    end.
Proof.
  unfold handle_heartbeat. rewrite bind_run. cbn [get_mgr].
  destruct (connection_meta (mgr w) !! c) as [meta|] eqn:Hmeta.
  - rewrite bind_run. cbn [modify_mgr].
    assert (Hm : alter (λ cm, mkConnMeta (meta_user_id cm) (meta_connected_at cm)
                                (meta_device_info cm) now) c (connection_meta (mgr w))
                 = <[c := mkConnMeta (meta_user_id meta) (meta_connected_at meta)
                            (meta_device_info meta) now]> (connection_meta (mgr w))).
    { apply map_eq. intros i. destruct (decide (i = c)) as [->|Hne].
      - by rewrite lookup_alter_eq, lookup_insert_eq, Hmeta.
      - by rewrite lookup_alter_ne, lookup_insert_ne. }
    unfold connections_of.
    destruct (connections (mgr w) !! meta_user_id meta) as [conns|]; simpl.
    + destruct (conns !! c) as [ws|]; simpl.
      * unfold try_except, send_json. cbn [mgr outbox].
        destruct (send_ok tr ws (Pong now)); eexists; (split; [reflexivity|]);
          fields; rewrite ?app_nil_r; by repeat split.
      * eexists; split; [reflexivity|]. fields. rewrite app_nil_r. by repeat split.
    + rewrite lookup_empty. eexists; split; [reflexivity|]. fields.
      rewrite app_nil_r. by repeat split.
  - by eexists.
Qed.

(** ** What the delivery coroutines never do *)

Section NestedWorld.
Context (tr : Transport) (now : Z) (I : World → Prop).
Hypothesis I_outbox : ∀ w ws msg, I w → I (mkWorld (mgr w) (outbox w ++ [(ws, msg)])).
Hypothesis I_mgr : ∀ w m', I w → I (mkWorld m' (outbox w)).

Lemma disconnect_preserves_world fuel : ∀ c u,
  preserves True I (disconnect tr now fuel c u).
Proof.
  induction fuel as [|fuel IH]; intros c u.
  - intros w _. exact Logic.I.
  - cbn [disconnect]. unfold disconnect_body, disconnect_try.
    apply preserves_try; [|intros _; apply preserves_ret].
    apply preserves_bind.
    + apply preserves_get. intros m.
      destruct (connections m !! u) as [conns|]; [|apply preserves_ret].
      case_decide; [|apply preserves_ret]. cbv zeta.
      case_decide.
      * apply preserves_bind; [apply preserves_modify; auto|intros _].
        apply preserves_broadcast_presence_open; auto.
      * apply preserves_modify; auto.
    + intros _. repeat (apply preserves_bind; [apply preserves_modify; auto|intros _]).
      apply preserves_modify; auto.
Qed.

Lemma send_to_user_preserves_world fuel u msg :
  preserves True I (send_to_user tr now fuel u msg).
Proof.
  apply preserves_send_to_user_open; auto using disconnect_preserves_world.
Qed.

Lemma broadcast_to_room_preserves_world fuel r msg excl :
  preserves True I (broadcast_to_room tr now fuel r msg excl).
Proof.
  apply preserves_broadcast_to_room_open; auto using disconnect_preserves_world.
Qed.

Lemma broadcast_presence_preserves_world fuel u online :
  preserves True I (_broadcast_presence_update tr now fuel u online).
Proof.
  apply preserves_broadcast_presence_open; auto using disconnect_preserves_world.
Qed.
End NestedWorld.

Lemma internal_step_rooms now m m' r s' :
  internal_step now m m' → rooms m' !! r = Some s' →
  ∃ s, rooms m !! r = Some s ∧ s' ⊆ s.
Proof.
  intros Hstep Hr.
  destruct Hstep as [m c|m v conns c Hv Hc He|m v conns c Hv Hc Hne|m c|m c|m v];
    try (fields; eauto; fail).
  rewrite remove_from_rooms_rooms in Hr. case_decide; [eauto|].
  rewrite lookup_omap in Hr.
  destruct (rooms m !! r) as [s|]; simpl in Hr; [|done].
  exists s. split; [done|]. unfold drop_member in Hr.
  repeat case_decide; simplify_eq; set_solver.
Qed.

Lemma internal_step_heartbeats now m m' :
  internal_step now m m' → heartbeats m' ⊆ heartbeats m.
Proof.
  destruct 1 as [m c|m v conns c Hv Hc He|m v conns c Hv Hc Hne|m c|m c|m v];
    try (fields; done).
  - fields. apply delete_subseteq.
  - by destruct (remove_from_rooms_frame v m) as (_ & _ & _ & -> & _).
Qed.

Lemma internal_step_meta now m m' c meta' :
  internal_step now m m' → connection_meta m' !! c = Some meta' →
  ∃ meta, connection_meta m !! c = Some meta ∧
          meta_user_id meta' = meta_user_id meta.
Proof.
  intros Hstep Hc.
  destruct Hstep as [m c0|m v conns c0 Hv Hc0 He|m v conns c0 Hv Hc0 Hne|m c0|m c0|m v];
    try (fields; eauto; fail).
  - fields. destruct (decide (c0 = c)) as [->|Hne].
    + rewrite lookup_alter_eq in Hc.
      destruct (connection_meta m !! c) as [meta|]; simpl in Hc; [|done].
      simplify_eq. eauto.
    + rewrite lookup_alter_ne in Hc by done. eauto.
  - fields. apply lookup_delete_Some in Hc as [_ Hc]. eauto.
  - destruct (remove_from_rooms_frame v m) as (_ & _ & _ & _ & Hm).
    rewrite Hm in Hc. eauto.
Qed.

Lemma evolves_shrinks now m m' :
  evolves now m m' →
  (∀ u c ws, connections_of m' u !! c = Some ws → connections_of m u !! c = Some ws) ∧
  (∀ r u, u ∈ get_room_members m' r → u ∈ get_room_members m r) ∧
  typing_status m' = typing_status m ∧
  heartbeats m' ⊆ heartbeats m ∧
  (∀ c meta', connection_meta m' !! c = Some meta' →
     ∃ meta, connection_meta m !! c = Some meta ∧
             meta_user_id meta' = meta_user_id meta).
Proof.
  induction 1 as [m|m1 m2 m3 Hstep _ IH].
  - repeat split; eauto.
  - destruct IH as (IHc & IHr & IHt & IHh & IHm).
    split; [|split; [|split; [|split]]].
    + intros u c ws Hc. apply IHc in Hc. unfold connections_of in *.
      destruct (connections m2 !! u) as [conns'|] eqn:Hu; simpl in Hc; [|done].
      destruct (internal_step_connections _ _ _ _ _ Hstep Hu) as (conns & -> & Hsub).
      simpl. eapply lookup_weaken; eauto.
    + intros r u Hu. apply IHr in Hu. unfold get_room_members in *.
      destruct (rooms m2 !! r) as [s'|] eqn:Hr; simpl in Hu; [|set_solver].
      destruct (internal_step_rooms _ _ _ _ _ Hstep Hr) as (s & -> & Hsub).
      simpl. set_solver.
    + rewrite IHt. eapply internal_step_typing; eauto.
    + etrans; [exact IHh|]. eapply internal_step_heartbeats; eauto.
    + intros c meta' Hc. destruct (IHm _ _ Hc) as (meta2 & Hc2 & Hu2).
      destruct (internal_step_meta _ _ _ _ _ Hstep Hc2) as (meta & ? & ?).
      exists meta. split; [done|]. congruence.
Qed.

(** X4.  [disconnect], [send_to_user] and [broadcast_to_room], however they
    end, never register a connection, never add a member to a room, never
    touch a typing signal and never create a heartbeat or metadata entry:
    the registry can only shrink.  The frames already sent stay in place;
    new frames are appended. *)
Theorem delivery_only_shrinks_registry (tr : Transport) (now : Z) (fuel : nat)
    (c : string) (u : Z) (r : string) (msg : Message) (excl : option Z) (w w' : World) :
  final_world (disconnect tr now fuel c u w) = Some w' ∨
  final_world (send_to_user tr now fuel u msg w) = Some w' ∨
  final_world (broadcast_to_room tr now fuel r msg excl w) = Some w' →
  (∀ v c' ws, connections_of (mgr w') v !! c' = Some ws →
              connections_of (mgr w) v !! c' = Some ws) ∧
  (∀ r' v, v ∈ get_room_members (mgr w') r' → v ∈ get_room_members (mgr w) r') ∧
  typing_status (mgr w') = typing_status (mgr w) ∧
  heartbeats (mgr w') ⊆ heartbeats (mgr w) ∧
  (∀ c' meta', connection_meta (mgr w') !! c' = Some meta' →
     ∃ meta, connection_meta (mgr w) !! c' = Some meta ∧
             meta_user_id meta' = meta_user_id meta) ∧
  ∃ sent, outbox w' = outbox w ++ sent.
Proof.
  intros Hrun.
  set (J := λ w1 : World, evolves now (mgr w) (mgr w1) ∧ ∃ sent, outbox w1 = outbox w ++ sent).
  assert (HJ : J w').
  { assert (Hout : ∀ w1 ws m, J w1 → J (mkWorld (mgr w1) (outbox w1 ++ [(ws, m)]))).
    { intros w1 ws m [Hev [sent Hs]]. split; [exact Hev|].
      exists (sent ++ [(ws, m)]). cbn. by rewrite Hs, app_assoc. }
    assert (Htouch : ∀ w1 c1, J w1 → J (mkWorld (touch_activity now c1 (mgr w1)) (outbox w1))).
    { intros w1 c1 [Hev Hs]. split; [|exact Hs].
      cbn. eapply rtc_r; [exact Hev|]. apply step_touch. }
    assert (Hdisc : ∀ fuel c u, preserves True J (disconnect tr now fuel c u)).
    { intros fuel0 c0 u0 w1 [Hev Hs].
      pose proof (disconnect_evolves tr now fuel0 (mgr w) c0 u0 w1 Hev) as H1.
      pose proof (disconnect_preserves_world tr now
                    (λ w1, ∃ sent, outbox w1 = outbox w ++ sent)) as H2.
      specialize (H2 (λ w2 ws m '(ex_intro _ sent Hs),
                        ex_intro _ (sent ++ [(ws, m)])
                          (eq_trans (f_equal (λ l, l ++ [(ws, m)]) Hs)
                                    (eq_sym (app_assoc _ _ _))))
                     (λ w2 m' H, H) fuel0 c0 u0 w1 Hs).
      destruct (disconnect tr now fuel0 c0 u0 w1); done. }
    assert (J w) as Hw by (split; [apply rtc_refl|exists []; by rewrite app_nil_r]).
    destruct Hrun as [Hrun|[Hrun|Hrun]].
    - specialize (Hdisc fuel c u w Hw).
      destruct (disconnect tr now fuel c u w); simpl in Hrun; by simplify_eq.
    - pose proof (preserves_send_to_user_open tr now True J (disconnect tr now fuel)
                    (Hdisc fuel) Hout Htouch u msg w Hw) as H.
      fold (send_to_user tr now fuel u msg) in H.
      destruct (send_to_user tr now fuel u msg w); simpl in Hrun; by simplify_eq.
    - pose proof (preserves_broadcast_to_room_open tr now True J (disconnect tr now fuel)
                    (Hdisc fuel) Hout Htouch r msg excl w Hw) as H.
      fold (broadcast_to_room tr now fuel r msg excl) in H.
      destruct (broadcast_to_room tr now fuel r msg excl w); simpl in Hrun; by simplify_eq. }
  destruct HJ as [Hev Hsent].
  destruct (evolves_shrinks _ _ _ Hev) as (H1 & H2 & H3 & H4 & H5).
  repeat split; auto.
Qed.

Lemma delivery_only_shrinks_registry_witness :
  final_world (disconnect all_accepting 20 8 "c1" 1 chat_world)
    = Some (after (disconnect all_accepting 20 8 "c1" 1) chat_world) ∧
  typing_status (mgr (after (disconnect all_accepting 20 8 "c1" 1) chat_world))
    = typing_status (mgr chat_world).
Proof.
  assert (H : final_world (disconnect all_accepting 20 8 "c1" 1 chat_world)
    = Some (after (disconnect all_accepting 20 8 "c1" 1) chat_world)).
  { vm_compute. reflexivity. }
  split; [exact H|].
  exact (proj1 (proj2 (proj2
    (delivery_only_shrinks_registry all_accepting 20 8 "c1" 1 "conv_5" (Payload "x") None
       chat_world _ (or_introl H))))).
Defined.

(** ** Broadcasts that meet no dead socket *)

Section QuietBroadcast.
Context (tr : Transport) (now : Z).

Lemma broadcast_rooms_all_accept fuel msg excl (m0 : Manager) : ∀ rs w,
  connections (mgr w) = connections m0 →
  rooms (mgr w) = rooms m0 →
  (∀ v c ws, excluded excl v = false → connections_of m0 v !! c = Some ws →
             send_ok tr ws msg = true) →
  ∃ w', for_each (λ r, broadcast_to_room_open tr now (disconnect tr now fuel) r msg excl)
          rs w = Ok tt w' ∧
        connections (mgr w') = connections m0 ∧
        rooms (mgr w') = rooms m0 ∧
        ∃ sent, outbox w' = outbox w ++ sent.
Proof.
  induction rs as [|r rs IH]; intros w Hc Hr Hok.
  - exists w. repeat split; auto. exists []. by rewrite app_nil_r.
  - cbn [for_each]. rewrite bind_run.
    assert (Hone : ∃ w1, broadcast_to_room tr now fuel r msg excl w = Ok tt w1 ∧
                         connections (mgr w1) = connections m0 ∧
                         rooms (mgr w1) = rooms m0 ∧
                         ∃ sent, outbox w1 = outbox w ++ sent).
    { destruct (rooms (mgr w) !! r) as [members|] eqn:Hm.
      - destruct (broadcast_to_room_all_accept tr now fuel r msg excl w members Hm)
          as (w1 & Hrun & Hout & Hc1 & Hr1).
        { intros v _ Hex c ws Hv. apply (Hok v c ws Hex).
          unfold connections_of in *. by rewrite <- Hc. }
        exists w1. rewrite Hc1, Hr1. repeat split; eauto.
      - exists w. unfold broadcast_to_room, broadcast_to_room_open.
        rewrite bind_run. cbn [get_mgr]. rewrite Hm.
        repeat split; auto. exists []. by rewrite app_nil_r. }
    destruct Hone as (w1 & Hrun & Hc1 & Hr1 & sent1 & Hs1).
    unfold broadcast_to_room in Hrun. rewrite Hrun.
    destruct (IH w1 Hc1 Hr1 Hok) as (w' & Hrun' & Hc' & Hr' & sent & Hs).
    exists w'. repeat split; auto.
    exists (sent1 ++ sent). by rewrite Hs, Hs1, app_assoc.
Qed.

Lemma broadcast_presence_all_accept fuel u online w :
  (∀ v c ws, excluded (Some u) v = false → connections_of (mgr w) v !! c = Some ws →
             send_ok tr ws (PresenceUpdate u online now) = true) →
  ∃ w', _broadcast_presence_update tr now fuel u online w = Ok tt w' ∧
        connections (mgr w') = connections (mgr w) ∧
        rooms (mgr w') = rooms (mgr w) ∧
        ∃ sent, outbox w' = outbox w ++ sent.
Proof.
  intros Hok. unfold _broadcast_presence_update, _broadcast_presence_update_open.
  rewrite bind_run. cbn [get_mgr].
  by apply broadcast_rooms_all_accept.
Qed.
End QuietBroadcast.

(** ** Accepting a connection: [connect] *)

Lemma internal_step_online_record now u p m m' :
  connections m !! u = None ∨
    (presence m !! u = Some p ∧ ∀ conns, connections m !! u = Some conns → conns ≠ ∅) →
  internal_step now m m' →
  connections m' !! u = None ∨
    (presence m' !! u = Some p ∧ ∀ conns, connections m' !! u = Some conns → conns ≠ ∅).
Proof.
  intros Hinv Hstep.
  destruct Hstep as [m c|m v conns c Hv Hc He|m v conns c Hv Hc Hne|m c|m c|m v];
    try (fields; done).
  - fields. destruct (decide (v = u)) as [->|Hvu].
    + left. apply lookup_delete_eq.
    + rewrite lookup_delete_ne, lookup_insert_ne by done. exact Hinv.
  - fields. destruct (decide (v = u)) as [->|Hvu].
    + right. destruct Hinv as [Hn|[Hp _]]; [congruence|].
      split; [done|]. intros conns'. rewrite lookup_insert_eq. by intros [= <-].
    + rewrite lookup_insert_ne by done. exact Hinv.
  - destruct (remove_from_rooms_frame v m) as (-> & _ & -> & _). exact Hinv.
Qed.

(** X5.  The three ways [connect] ends.  A refused handshake raises and
    leaves the world untouched.  When the socket refuses the
    CONNECTION_SUCCESS frame, [connect] raises with the connection already
    registered (connection, metadata, heartbeat and presence), so the caller
    has to [disconnect] it.  When [connect] returns, the user is online, its
    presence record is the one written at registration, and the first frame
    sent by the call is CONNECTION_SUCCESS on the new socket. *)
Theorem connect_outcomes (tr : Transport) (now : Z) (fuel : nat) (ws : WebSocket)
    (u : Z) (c : string) (dev : option (list (string * string))) (w : World) :
  (accept_ok tr ws = false →
   connect tr now fuel ws u c dev w = Raised TransportError w) ∧
  (accept_ok tr ws = true →
   send_ok tr ws (ConnectionSuccess c u now) = false →
   connect tr now fuel ws u c dev w =
     Raised TransportError
       (mkWorld (register_connection now ws u c dev (mgr w)) (outbox w))) ∧
  (∀ w', connect tr now fuel ws u c dev w = Ok tt w' →
     accept_ok tr ws = true ∧
     is_user_online (mgr w') u = true ∧
     presence (mgr w') !! u =
       Some (mkPresence true now (size (<[c := ws]> (connections_of (mgr w) u)))) ∧
     ∃ sent, outbox w' = outbox w ++ (ws, ConnectionSuccess c u now) :: sent).
Proof.
  split; [|split].
  - intros Ha. unfold connect. by rewrite Ha.
  - intros Ha Hs. unfold connect. rewrite Ha. rewrite bind_run. cbn [modify_mgr].
    rewrite bind_run. unfold send_json. cbn [mgr outbox]. by rewrite Hs.
  - intros w' Hrun. unfold connect in Hrun.
    destruct (accept_ok tr ws); [|done]. split; [done|].
    rewrite bind_run in Hrun. cbn [modify_mgr] in Hrun.
    rewrite bind_run in Hrun. unfold send_json at 1 in Hrun. cbn [mgr outbox] in Hrun.
    destruct (send_ok tr ws (ConnectionSuccess c u now)); [|done].
    rewrite bind_run in Hrun.
    set (w2 := mkWorld (register_connection now ws u c dev (mgr w))
                       (outbox w ++ [(ws, ConnectionSuccess c u now)])) in *.
    set (p := mkPresence true now (size (<[c := ws]> (connections_of (mgr w) u)))).
    pose proof (broadcast_presence_evolves tr now fuel (mgr w2) u true w2 (rtc_refl _ _))
      as Hev.
    pose proof (broadcast_presence_preserves_world tr now
                  (λ w1, ∃ sent, outbox w1 = outbox w2 ++ sent)) as Hout.
    specialize (Hout (λ w3 ws3 m '(ex_intro _ sent Hs),
                        ex_intro _ (sent ++ [(ws3, m)])
                          (eq_trans (f_equal (λ l, l ++ [(ws3, m)]) Hs)
                                    (eq_sym (app_assoc _ _ _))))
                     (λ w3 m' H, H) fuel u true w2
                     (ex_intro _ [] (eq_sym (app_nil_r _)))).
    destruct (_broadcast_presence_update tr now fuel u true w2) as [[] w3|e w3|];
      [|done|done].
    rewrite bind_run in Hrun. cbn [get_mgr] in Hrun.
    destruct (decide (is_Some (connections (mgr w3) !! u))) as [Hon|]; [|done].
    change (Ok tt w3 = Ok tt w') in Hrun. simplify_eq.
    destruct Hout as [sent Hsent].
    assert (Hrec : connections (mgr w') !! u = None ∨
              (presence (mgr w') !! u = Some p ∧
               ∀ conns, connections (mgr w') !! u = Some conns → conns ≠ ∅)).
    { eapply (evolves_stable now
                (λ m, connections m !! u = None ∨
                      (presence m !! u = Some p ∧
                       ∀ conns, connections m !! u = Some conns → conns ≠ ∅)));
        [|exact Hev|].
      - intros m m'. apply internal_step_online_record.
      - right. subst w2 p. unfold connections_of. fields.
        rewrite !lookup_insert_eq. split; [done|].
        intros conns [= <-]. apply insert_non_empty. }
    destruct Hrec as [Hnone|[Hp Hne]].
    { rewrite Hnone in Hon. by destruct Hon. }
    split; [|split; [exact Hp|]].
    + unfold is_user_online. destruct Hon as [conns Hconns]. rewrite Hconns.
      apply bool_decide_eq_true. specialize (Hne conns Hconns).
      apply map_size_non_empty_iff in Hne. lia.
    + exists sent. rewrite Hsent. subst w2. cbn [outbox]. by rewrite <- app_assoc.
Qed.

Lemma connect_outcomes_witness :
  connect all_accepting 9 8 13%nat 3 "c3" None chat_world
    = Ok tt (after (connect all_accepting 9 8 13%nat 3 "c3" None) chat_world) ∧
  is_user_online (mgr (after (connect all_accepting 9 8 13%nat 3 "c3" None) chat_world)) 3
    = true.
Proof.
  assert (H : connect all_accepting 9 8 13%nat 3 "c3" None chat_world
    = Ok tt (after (connect all_accepting 9 8 13%nat 3 "c3" None) chat_world)).
  { vm_compute. reflexivity. }
  split; [exact H|].
  exact (proj1 (proj2 (proj2 (proj2
    (connect_outcomes all_accepting 9 8 13%nat 3 "c3" None chat_world)) _ H))).
Defined.

(** ** Deliveries that meet no dead socket change nothing *)

Section Quiet.
Context (tr : Transport) (now : Z).

Lemma same_registry_refl m : same_registry m m.
Proof. by repeat split. Qed.

Lemma same_registry_touch m0 m c :
  same_registry m0 m → same_registry m0 (touch_activity now c m).
Proof.
  intros (Hc & Hr & Ht & Hp & Hh & Hm). repeat split; fields; auto.
  intros c'. rewrite <- Hm. destruct (decide (c = c')) as [->|Hne].
  - rewrite lookup_alter_eq. by destruct (connection_meta m !! c').
  - by rewrite lookup_alter_ne.
Qed.

Lemma send_to_user_quiet fuel u msg m0 w :
  (∀ c ws, connections_of m0 u !! c = Some ws → send_ok tr ws msg = true) →
  same_registry m0 (mgr w) →
  ∃ b w', send_to_user tr now fuel u msg w = Ok b w' ∧ same_registry m0 (mgr w').
Proof.
  intros Hok Hsame. unfold send_to_user, send_to_user_open.
  rewrite bind_run. cbn [get_mgr].
  destruct (connections (mgr w) !! u) as [conns|] eqn:Hu.
  - rewrite bind_run.
    pose proof (preserves_fold_each False (λ w, same_registry m0 (mgr w))
                  (send_one tr now msg) ([], 0%nat) (map_to_list conns)) as Hfold.
    destruct (fold_send_one tr now msg (map_to_list conns) ([], 0%nat) w)
      as (w1 & Hrun & _).
    assert (Hone : ∀ b x, preserves False (λ w, same_registry m0 (mgr w))
                            (send_one tr now msg b x)).
    { intros b x. apply preserves_send_one; [by intros|].
      intros w0 c0 H. by apply same_registry_touch. }
    specialize (Hfold (λ b x _, Hone b x) w Hsame).
    rewrite Hrun in Hfold. rewrite Hrun.
    rewrite filter_none.
    + cbn. eauto.
    + intros [c ws] Hin. apply elem_of_map_to_list in Hin. cbn.
      rewrite (Hok c ws); [done|].
      unfold connections_of. destruct Hsame as [<- _]. by rewrite Hu.
  - cbn. eauto.
Qed.

Lemma broadcast_loop_quiet fuel r msg excl n m0 : ∀ pending w,
  (∀ v, v ∈ pending → excluded excl v = false →
        ∀ c ws, connections_of m0 v !! c = Some ws → send_ok tr ws msg = true) →
  size (default ∅ (rooms m0 !! r)) = n →
  same_registry m0 (mgr w) →
  ∃ w',
    for_live
      (λ w', bool_decide (size (default ∅ (rooms (mgr w') !! r)) = n))
      (λ user_id,
         if excluded excl user_id then mret tt
         else send_to_user_open tr now (disconnect tr now fuel) user_id msg ;; mret tt)
      pending w = Ok tt w' ∧
    same_registry m0 (mgr w').
Proof.
  induction pending as [|v pending IH]; intros w Hok Hn Hsame; cbn [for_live].
  - rewrite bool_decide_eq_true_2; [eauto|].
    destruct Hsame as (_ & -> & _). exact Hn.
  - rewrite bool_decide_eq_true_2; [|destruct Hsame as (_ & -> & _); exact Hn].
    rewrite bind_run.
    destruct (excluded excl v) eqn:Hex.
    + cbn. apply IH; auto. intros v' Hv'. apply Hok. by right.
    + rewrite bind_run.
      destruct (send_to_user_quiet fuel v msg m0 w) as (b & w1 & Hrun & Hsame1); auto.
      { apply Hok; [left|done]. }
      unfold send_to_user in Hrun. rewrite Hrun. cbn.
      apply IH; auto. intros v' Hv'. apply Hok. by right.
Qed.

Lemma broadcast_to_room_quiet fuel r msg excl m0 w :
  (∀ members v, rooms m0 !! r = Some members → v ∈ members →
     excluded excl v = false →
     ∀ c ws, connections_of m0 v !! c = Some ws → send_ok tr ws msg = true) →
  same_registry m0 (mgr w) →
  ∃ w', broadcast_to_room tr now fuel r msg excl w = Ok tt w' ∧
        same_registry m0 (mgr w').
Proof.
  intros Hok Hsame. unfold broadcast_to_room, broadcast_to_room_open.
  rewrite bind_run. cbn [get_mgr].
  destruct (rooms (mgr w) !! r) as [members|] eqn:Hr; [|cbn; eauto].
  assert (Hr0 : rooms m0 !! r = Some members).
  { destruct Hsame as (_ & <- & _). exact Hr. }
  apply broadcast_loop_quiet; auto.
  - intros v Hv. apply (Hok members); auto. by apply elem_of_elements.
  - by rewrite Hr0.
Qed.

Lemma broadcast_presence_loop_quiet fuel u online m0 : ∀ rs w,
  (∀ r members v, r ∈ rs → rooms m0 !! r = Some members → v ∈ members →
     excluded (Some u) v = false →
     ∀ c ws, connections_of m0 v !! c = Some ws →
             send_ok tr ws (PresenceUpdate u online now) = true) →
  same_registry m0 (mgr w) →
  ∃ w', for_each
          (λ r, broadcast_to_room_open tr now (disconnect tr now fuel) r
                  (PresenceUpdate u online now) (Some u)) rs w = Ok tt w' ∧
        same_registry m0 (mgr w').
Proof.
  induction rs as [|r rs IH]; intros w Hok Hsame; cbn [for_each].
  - cbn. eauto.
  - rewrite bind_run.
    destruct (broadcast_to_room_quiet fuel r (PresenceUpdate u online now) (Some u) m0 w)
      as (w1 & Hrun & Hsame1); auto.
    { intros members v. apply Hok. left. }
    unfold broadcast_to_room in Hrun. rewrite Hrun.
    apply IH; auto. intros r' members v Hr'. apply Hok. by right.
Qed.

Lemma broadcast_presence_quiet fuel u online m0 w :
  (∀ r members v, rooms m0 !! r = Some members → u ∈ members → v ∈ members →
     excluded (Some u) v = false →
     ∀ c ws, connections_of m0 v !! c = Some ws →
             send_ok tr ws (PresenceUpdate u online now) = true) →
  same_registry m0 (mgr w) →
  ∃ w', _broadcast_presence_update tr now fuel u online w = Ok tt w' ∧
        same_registry m0 (mgr w').
Proof.
  intros Hok Hsame. unfold _broadcast_presence_update, _broadcast_presence_update_open.
  rewrite bind_run. cbn [get_mgr].
  apply broadcast_presence_loop_quiet; auto.
  intros r members v Hin Hr. apply (Hok r members v Hr).
  unfold rooms_of in Hin. apply list_elem_of_fmap in Hin as ([r' s] & -> & Hin).
  apply list_elem_of_filter in Hin as [Hu Hin]. apply elem_of_map_to_list in Hin.
  cbn in *. destruct Hsame as (_ & Hrs & _). rewrite Hrs in Hin. by simplify_eq.
Qed.
End Quiet.

(** X6.  A room broadcast that meets no dead socket: every socket of every
    member that is not skipped receives the frame exactly once, in the order
    the members are walked, and the manager is left as it was up to the
    [last_activity] stamps.  A broadcast to a room that does not exist does
    nothing. *)
Theorem broadcast_without_dead_sockets (tr : Transport) (now : Z) (fuel : nat)
    (r : string) (msg : Message) (excl : option Z) (w : World) :
  (rooms (mgr w) !! r = None →
   broadcast_to_room tr now fuel r msg excl w = Ok tt w) ∧
  (∀ members,
     rooms (mgr w) !! r = Some members →
     (∀ u, u ∈ members → excluded excl u = false →
           ∀ c ws, connections_of (mgr w) u !! c = Some ws → send_ok tr ws msg = true) →
     ∃ w', broadcast_to_room tr now fuel r msg excl w = Ok tt w' ∧
           outbox w' = outbox w ++
             (elements members ≫=
                λ u, if excluded excl u then [] else frames_for (mgr w) msg u) ∧
           same_registry (mgr w) (mgr w')).
Proof.
  split.
  - intros Hr. unfold broadcast_to_room, broadcast_to_room_open.
    rewrite bind_run. cbn [get_mgr]. by rewrite Hr.
  - intros members Hr Hok.
    destruct (broadcast_to_room_all_accept tr now fuel r msg excl w members Hr Hok)
      as (w' & Hrun & Hout & _).
    destruct (broadcast_to_room_quiet tr now fuel r msg excl (mgr w) w)
      as (w'' & Hrun' & Hsame).
    { intros members' v Hr' Hv. rewrite Hr in Hr'. simplify_eq. by apply Hok. }
    { apply same_registry_refl. }
    rewrite Hrun in Hrun'. simplify_eq. eauto.
Qed.

Lemma broadcast_without_dead_sockets_witness :
  rooms (mgr chat_world) !! "conv_5" = Some {[1; 2]} ∧
  ∃ w', broadcast_to_room all_accepting 20 8 "conv_5" (Payload "hi") (Some 1) chat_world
          = Ok tt w' ∧
        same_registry (mgr chat_world) (mgr w').
Proof.
  assert (H : rooms (mgr chat_world) !! "conv_5" = Some {[1; 2]}).
  { vm_compute. reflexivity. }
  split; [exact H|].
  destruct (proj2 (broadcast_without_dead_sockets all_accepting 20 8 "conv_5"
                     (Payload "hi") (Some 1) chat_world) _ H
                  (λ _ _ _ _ _ _, eq_refl)) as (w' & Hrun & _ & Hsame).
  exists w'. split; [exact Hrun|exact Hsame].
Defined.

(** X7.  When the handshake and the CONNECTION_SUCCESS frame are accepted
    and no socket the presence update is written to refuses it, [connect]
    returns and the manager is exactly the registration of the new
    connection (up to [last_activity] stamps): the connection is filed under
    the user, its heartbeat is [now], the presence record is online with the
    new number of connections, and rooms and typing signals are as before.
    The presence update is written to the sockets of the other members of
    the user's rooms; for the user id 0, which the exclusion guard does not
    skip, it is written to the user's own sockets as well, the new one
    included, when the user is in a room. *)
Theorem connect_registers_when_peers_accept (tr : Transport) (now : Z) (fuel : nat)
    (ws : WebSocket) (u : Z) (c : string) (dev : option (list (string * string)))
    (w : World) :
  accept_ok tr ws = true →
  send_ok tr ws (ConnectionSuccess c u now) = true →
  (∀ r members v, rooms (mgr w) !! r = Some members → u ∈ members → v ∈ members →
     v ≠ u ∨ u = 0 →
     ∀ c' ws', connections_of (register_connection now ws u c dev (mgr w)) v !! c' = Some ws' →
               send_ok tr ws' (PresenceUpdate u true now) = true) →
  ∃ w', connect tr now fuel ws u c dev w = Ok tt w' ∧
        same_registry (register_connection now ws u c dev (mgr w)) (mgr w') ∧
        connections_of (mgr w') u = <[c := ws]> (connections_of (mgr w) u) ∧
        (∀ v, v ≠ u → connections_of (mgr w') v = connections_of (mgr w) v) ∧
        heartbeats (mgr w') !! c = Some now ∧
        presence (mgr w') !! u =
          Some (mkPresence true now (size (<[c := ws]> (connections_of (mgr w) u)))) ∧
        rooms (mgr w') = rooms (mgr w) ∧
        typing_status (mgr w') = typing_status (mgr w).
Proof.
  intros Ha Hs Hok. unfold connect. rewrite Ha.
  rewrite bind_run. cbn [modify_mgr].
  rewrite bind_run. unfold send_json at 1. cbn [mgr outbox]. rewrite Hs.
  rewrite bind_run.
  set (m1 := register_connection now ws u c dev (mgr w)).
  set (w2 := mkWorld m1 (outbox w ++ [(ws, ConnectionSuccess c u now)])).
  destruct (broadcast_presence_quiet tr now fuel u true m1 w2) as (w3 & Hrun & Hsame).
  { intros r members v Hr Hu Hv Hex. apply (Hok r members v); try done.
    - unfold excluded in Hex.
      destruct (Z.eqb_spec u 0); [by right|]. destruct (Z.eqb_spec v u); [done|by left]. }
  { apply same_registry_refl. }
  rewrite Hrun. rewrite bind_run. cbn [get_mgr].
  pose proof Hsame as (Hc & Hr & Ht & Hp & Hh & Hm).
  assert (Hu1 : connections m1 !! u = Some (<[c := ws]> (connections_of (mgr w) u))).
  { subst m1. unfold connections_of. fields. by rewrite lookup_insert_eq. }
  rewrite decide_True; [|rewrite Hc, Hu1; eauto].
  exists w3. split; [reflexivity|]. split; [exact Hsame|].
  unfold connections_of. rewrite Hc, Hr, Ht, Hp, Hh.
  split; [by rewrite Hu1|].
  subst m1. fields. repeat split.
  - intros v Hv. by rewrite lookup_insert_ne.
  - by rewrite lookup_insert_eq.
  - by rewrite !lookup_insert_eq.
Qed.

Lemma connect_registers_when_peers_accept_witness :
  accept_ok all_accepting 13%nat = true ∧
  send_ok all_accepting 13%nat (ConnectionSuccess "c3" 1 9) = true ∧
  ∃ w', connect all_accepting 9 8 13%nat 1 "c3" None chat_world = Ok tt w' ∧
        connections_of (mgr w') 1 = <["c3" := 13%nat]> (connections_of (mgr chat_world) 1).
Proof.
  split; [reflexivity|]. split; [reflexivity|].
  destruct (connect_registers_when_peers_accept all_accepting 9 8 13%nat 1 "c3" None
              chat_world eq_refl eq_refl (λ _ _ _ _ _ _ _ _ _ _, eq_refl))
    as (w' & Hrun & _ & Hconns & _).
  exists w'. split; [exact Hrun|exact Hconns].
Defined.

(** ** A room broadcast that meets a member without a live socket *)

Section DeadMember.
Context (tr : Transport) (now : Z).

Lemma disconnect_last_quiet fuel c u w conns :
  connections (mgr w) !! u = Some conns →
  is_Some (conns !! c) →
  delete c conns = ∅ →
  (∀ v c' ws msg', v ≠ u → connections_of (mgr w) v !! c' = Some ws →
                   send_ok tr ws msg' = true) →
  ∃ w', disconnect tr now (S fuel) c u w = Ok tt w' ∧
        connections (mgr w') = delete u (connections (mgr w)) ∧
        rooms (mgr w') = omap (drop_member u) (rooms (mgr w)) ∧
        heartbeats (mgr w') = delete c (heartbeats (mgr w)) ∧
        typing_status (mgr w') = typing_status (mgr w) ∧
        ∀ c', meta_identity <$> connection_meta (mgr w') !! c' =
              meta_identity <$> delete c (connection_meta (mgr w)) !! c'.
Proof.
  intros Hu Hc He Hok. cbn [disconnect].
  unfold disconnect_body, try_except, disconnect_try.
  rewrite bind_run. unfold unregister_connection. rewrite bind_run. cbn [get_mgr].
  rewrite Hu. rewrite decide_True by done. rewrite decide_True by done.
  rewrite bind_run. cbn [modify_mgr].
  set (w1 := mkWorld _ (outbox w)).
  assert (Hc1 : connections (mgr w1) = delete u (connections (mgr w))) by (subst w1; by fields).
  assert (Hr1 : rooms (mgr w1) = rooms (mgr w)) by (subst w1; by fields).
  destruct (broadcast_presence_quiet tr now fuel u false (mgr w1) w1)
    as (w2 & Hrun & Hsame).
  { intros r members v _ _ _ Hex c' ws Hv.
    destruct (decide (v = u)) as [->|Hvu].
    - unfold connections_of in Hv. rewrite Hc1, lookup_delete_eq in Hv. done.
    - apply (Hok v c' ws _ Hvu). unfold connections_of in *.
      by rewrite Hc1, lookup_delete_ne in Hv. }
  { apply same_registry_refl. }
  unfold _broadcast_presence_update in Hrun. rewrite Hrun.
  rewrite forget_connection_run. eexists. split; [reflexivity|].
  cbn [mgr]. rewrite forget_connection_fields.
  cbn [connections rooms heartbeats typing_status connection_meta].
  destruct Hsame as (Hc2 & Hr2 & Ht2 & _ & Hh2 & Hm2). rewrite Hc2, Hr2, Hc1, Hr1, Hh2, Ht2.
  split; [done|]. split; [|split; [by subst w1; fields|split; [by subst w1; fields|]]].
  - rewrite decide_False; [done|]. rewrite lookup_delete_eq. by intros [? ?].
  - intros c'. destruct (decide (c' = c)) as [->|Hne].
    + by rewrite !lookup_delete_eq.
    + rewrite !lookup_delete_ne by done. rewrite Hm2. subst w1. by fields.
Qed.

Lemma disconnect_all_dead fuel u : ∀ dead w conns,
  connections (mgr w) !! u = Some conns →
  NoDup dead → dead ≠ [] →
  (∀ c, c ∈ dead ↔ is_Some (conns !! c)) →
  (∀ v c' ws msg', v ≠ u → connections_of (mgr w) v !! c' = Some ws →
                   send_ok tr ws msg' = true) →
  ∃ w', for_each (λ c, disconnect tr now (S fuel) c u) dead w = Ok tt w' ∧
        connections (mgr w') = delete u (connections (mgr w)) ∧
        rooms (mgr w') = omap (drop_member u) (rooms (mgr w)).
Proof.
  induction dead as [|c rest IH]; intros w conns Hu Hnd Hne Hkeys Hok; [done|].
  apply NoDup_cons in Hnd as [Hc Hnd].
  assert (Hsome : is_Some (conns !! c)) by (apply Hkeys; left).
  cbn [for_each]. rewrite bind_run.
  destruct rest as [|c2 rest'].
  - assert (He : delete c conns = ∅).
    { apply map_eq. intros k. rewrite lookup_empty.
      destruct (decide (k = c)) as [->|Hk]; [apply lookup_delete_eq|].
      rewrite lookup_delete_ne by done. apply eq_None_not_Some. intros Hs.
      apply Hkeys in Hs. apply list_elem_of_singleton in Hs. done. }
    destruct (disconnect_last_quiet fuel c u w conns Hu Hsome He Hok)
      as (w' & Hrun & Hc' & Hr' & _).
    rewrite Hrun. cbn. eauto.
  - assert (Hne' : delete c conns ≠ ∅).
    { intros He. assert (Hs2 : is_Some (conns !! c2)) by (apply Hkeys; right; left).
      assert (c2 ≠ c) by (intros ->; apply Hc; left).
      destruct Hs2 as [x Hx].
      assert (delete c conns !! c2 = Some x) by by rewrite lookup_delete_ne.
      rewrite He in H0. by rewrite lookup_empty in H0. }
    rewrite (disconnect_not_last tr now fuel c u w conns Hu Hsome Hne').
    set (w1 := mkWorld _ (outbox w)).
    assert (Hc1 : connections (mgr w1) = <[u := delete c conns]> (connections (mgr w))).
    { subst w1. cbn [mgr]. rewrite forget_connection_fields. by fields. }
    assert (Hr1 : rooms (mgr w1) = rooms (mgr w)).
    { subst w1. cbn [mgr]. rewrite forget_connection_fields. cbn [rooms].
      rewrite decide_True; [done|]. fields. rewrite lookup_insert_eq. eauto. }
    destruct (IH w1 (delete c conns)) as (w' & Hrun & Hc' & Hr'); auto.
    + by rewrite Hc1, lookup_insert_eq.
    + intros c'. split.
      * intros Hin. assert (c' ≠ c) by (intros ->; done).
        rewrite lookup_delete_ne by done. apply Hkeys. by right.
      * intros Hs. destruct (decide (c' = c)) as [->|Hk].
        { rewrite lookup_delete_eq in Hs. by destruct Hs. }
        rewrite lookup_delete_ne in Hs by done.
        apply Hkeys in Hs. apply elem_of_cons in Hs as [?|?]; done.
    + intros v c' ws msg' Hv Hl. apply (Hok v c' ws msg' Hv).
      unfold connections_of in *. by rewrite Hc1, lookup_insert_ne in Hl.
    + exists w'. split; [exact Hrun|].
      rewrite Hc', Hr', Hc1, Hr1. by rewrite delete_insert_eq.
Qed.

Lemma send_to_user_all_dead fuel u msg w conns :
  connections (mgr w) !! u = Some conns →
  conns ≠ ∅ →
  (∀ c ws, conns !! c = Some ws → send_ok tr ws msg = false) →
  (∀ v c' ws msg', v ≠ u → connections_of (mgr w) v !! c' = Some ws →
                   send_ok tr ws msg' = true) →
  ∃ w', send_to_user tr now (S fuel) u msg w = Ok false w' ∧
        connections (mgr w') = delete u (connections (mgr w)) ∧
        rooms (mgr w') = omap (drop_member u) (rooms (mgr w)).
Proof.
  intros Hu Hne Hdead Hok. unfold send_to_user, send_to_user_open.
  rewrite bind_run. cbn [get_mgr]. rewrite Hu. rewrite bind_run.
  destruct (fold_send_one tr now msg (map_to_list conns) ([], 0%nat) w)
    as (w1 & Hrun & Hc1 & _ & Hr1 & _).
  rewrite Hrun.
  assert (Hall : filter (λ p : string * WebSocket, send_ok tr p.2 msg = false)
                   (map_to_list conns) = map_to_list conns).
  { apply filter_all. intros [c ws] Hin. apply elem_of_map_to_list in Hin.
    cbn. eauto. }
  assert (Hnone : filter (λ p : string * WebSocket, send_ok tr p.2 msg = true)
                    (map_to_list conns) = []).
  { apply filter_none. intros [c ws] Hin. apply elem_of_map_to_list in Hin.
    cbn. rewrite (Hdead c ws Hin). done. }
  rewrite Hall, Hnone in *. cbn [fst snd app length Nat.add] in *.
  rewrite bind_run.
  destruct (disconnect_all_dead fuel u (map_to_list conns).*1 w1 conns)
    as (w' & Hrun' & Hc' & Hr'); auto.
  - by rewrite Hc1.
  - apply NoDup_fst_map_to_list.
  - intros Hnil. apply fmap_nil_inv in Hnil. by apply map_to_list_empty_iff in Hnil.
  - intros c. rewrite list_elem_of_fmap. split.
    + intros ([c' ws] & -> & Hin). apply elem_of_map_to_list in Hin. eauto.
    + intros [ws Hws]. exists (c, ws). split; [done|]. by apply elem_of_map_to_list.
  - intros v c' ws msg' Hv Hl. apply (Hok v c' ws msg' Hv).
    unfold connections_of in *. by rewrite Hc1 in Hl.
  - rewrite Hrun'. exists w'. split; [reflexivity|]. by rewrite Hc', Hr', Hc1, Hr1.
Qed.

Lemma broadcast_loop_prefix_quiet fuel r msg excl n m0 rest : ∀ pre w,
  (∀ v, v ∈ pre → excluded excl v = false →
        ∀ c ws, connections_of m0 v !! c = Some ws → send_ok tr ws msg = true) →
  size (default ∅ (rooms m0 !! r)) = n →
  same_registry m0 (mgr w) →
  ∃ w1,
    for_live
      (λ w', bool_decide (size (default ∅ (rooms (mgr w') !! r)) = n))
      (λ user_id,
         if excluded excl user_id then mret tt
         else send_to_user_open tr now (disconnect tr now fuel) user_id msg ;; mret tt)
      (pre ++ rest) w =
    for_live
      (λ w', bool_decide (size (default ∅ (rooms (mgr w') !! r)) = n))
      (λ user_id,
         if excluded excl user_id then mret tt
         else send_to_user_open tr now (disconnect tr now fuel) user_id msg ;; mret tt)
      rest w1 ∧
    same_registry m0 (mgr w1).
Proof.
  induction pre as [|v pre IH]; intros w Hok Hn Hsame.
  - exists w. by split.
  - cbn [app for_live].
    rewrite bool_decide_eq_true_2; [|destruct Hsame as (_ & -> & _); exact Hn].
    rewrite bind_run.
    destruct (excluded excl v) eqn:Hex.
    + cbn. apply IH; auto. intros v' Hv'. apply Hok. by right.
    + rewrite bind_run.
      destruct (send_to_user_quiet tr now fuel v msg m0 w) as (b & w1 & Hrun & Hsame1); auto.
      { apply Hok; [left|done]. }
      unfold send_to_user in Hrun. rewrite Hrun. cbn.
      apply IH; auto. intros v' Hv'. apply Hok. by right.
Qed.

End DeadMember.

(** The frames these runs send. *)
Section DeadMemberFrames.
Context (tr : Transport) (now : Z).

Lemma frames_for_ext m m' msg v :
  connections m = connections m' → frames_for m msg v = frames_for m' msg v.
Proof. intros H. unfold frames_for, connections_of. by rewrite H. Qed.

Lemma presence_frames_ext u online m m' :
  connections m = connections m' → rooms m = rooms m' →
  presence_frames now u online m = presence_frames now u online m'.
Proof.
  intros Hc Hr. unfold presence_frames, frames_for, connections_of.
  by rewrite Hc, Hr.
Qed.

Lemma presence_frames_message u online m f :
  f ∈ presence_frames now u online m → f.2 = PresenceUpdate u online now.
Proof.
  unfold presence_frames. intros (r & Hf & _)%list_elem_of_bind.
  apply list_elem_of_bind in Hf as (v & Hf & _).
  destruct (excluded (Some u) v); [by apply elem_of_nil in Hf|].
  unfold frames_for in Hf. by apply list_elem_of_fmap in Hf as (p & -> & _).
Qed.

Lemma broadcast_rooms_frames fuel msg excl (m0 : Manager) : ∀ rs w,
  connections (mgr w) = connections m0 →
  rooms (mgr w) = rooms m0 →
  (∀ v c ws, excluded excl v = false → connections_of m0 v !! c = Some ws →
             send_ok tr ws msg = true) →
  ∃ w', for_each (λ r, broadcast_to_room_open tr now (disconnect tr now fuel) r msg excl)
          rs w = Ok tt w' ∧
        outbox w' = outbox w ++
          (rs ≫= λ r, elements (default ∅ (rooms m0 !! r)) ≫= λ v,
                        if excluded excl v then [] else frames_for m0 msg v).
Proof.
  induction rs as [|r rs IH]; intros w Hc Hr Hok.
  - exists w. split; [done|]. cbn. by rewrite app_nil_r.
  - cbn [for_each]. rewrite bind_run.
    assert (Hone : ∃ w1, broadcast_to_room tr now fuel r msg excl w = Ok tt w1 ∧
                         connections (mgr w1) = connections m0 ∧
                         rooms (mgr w1) = rooms m0 ∧
                         outbox w1 = outbox w ++
                           (elements (default ∅ (rooms m0 !! r)) ≫= λ v,
                              if excluded excl v then [] else frames_for m0 msg v)).
    { destruct (rooms (mgr w) !! r) as [members|] eqn:Hm.
      - destruct (broadcast_to_room_all_accept tr now fuel r msg excl w members Hm)
          as (w1 & Hrun & Hout & Hc1 & Hr1).
        { intros v _ Hex c ws Hv. apply (Hok v c ws Hex).
          unfold connections_of in *. by rewrite <- Hc. }
        exists w1. rewrite Hc1, Hr1. split; [done|]. split; [done|]. split; [done|].
        rewrite Hout, <- Hr, Hm. cbn [default from_option id]. f_equal.
        apply list_bind_ext; [|done]. intros v.
        destruct (excluded excl v); [done|]. by apply frames_for_ext.
      - exists w. unfold broadcast_to_room, broadcast_to_room_open.
        rewrite bind_run. cbn [get_mgr]. rewrite Hm.
        split; [done|]. split; [done|]. split; [done|].
        rewrite <- Hr, Hm. cbn [default from_option id].
        rewrite elements_empty. cbn. by rewrite app_nil_r. }
    destruct Hone as (w1 & Hrun & Hc1 & Hr1 & Hs1).
    unfold broadcast_to_room in Hrun. rewrite Hrun.
    destruct (IH w1 Hc1 Hr1 Hok) as (w' & Hrun' & Hs).
    exists w'. split; [done|].
    rewrite Hs, Hs1. cbn [mbind list_bind]. by rewrite <- app_assoc.
Qed.

Lemma broadcast_presence_frames fuel u online w :
  (∀ v c ws, excluded (Some u) v = false → connections_of (mgr w) v !! c = Some ws →
             send_ok tr ws (PresenceUpdate u online now) = true) →
  ∃ w', _broadcast_presence_update tr now fuel u online w = Ok tt w' ∧
        outbox w' = outbox w ++ presence_frames now u online (mgr w).
Proof.
  intros Hok. unfold _broadcast_presence_update, _broadcast_presence_update_open.
  rewrite bind_run. cbn [get_mgr].
  by apply (broadcast_rooms_frames fuel (PresenceUpdate u online now) (Some u) (mgr w)).
Qed.

Lemma disconnect_last_frames fuel c u w conns :
  connections (mgr w) !! u = Some conns →
  is_Some (conns !! c) →
  delete c conns = ∅ →
  (∀ v c' ws msg', v ≠ u → connections_of (mgr w) v !! c' = Some ws →
                   send_ok tr ws msg' = true) →
  ∃ w', disconnect tr now (S fuel) c u w = Ok tt w' ∧
        outbox w' = outbox w ++
          presence_frames now u false (with_connections (delete u) (mgr w)).
Proof.
  intros Hu Hc He Hok. cbn [disconnect].
  unfold disconnect_body, try_except, disconnect_try.
  rewrite bind_run. unfold unregister_connection. rewrite bind_run. cbn [get_mgr].
  rewrite Hu. rewrite decide_True by done. rewrite decide_True by done.
  rewrite bind_run. cbn [modify_mgr].
  remember (mkWorld _ (outbox w)) as w1 eqn:Hw1.
  assert (Hc1 : connections (mgr w1) = delete u (connections (mgr w)))
    by (subst w1; by fields).
  assert (Hr1 : rooms (mgr w1) = rooms (mgr w)) by (subst w1; by fields).
  assert (Ho1 : outbox w1 = outbox w) by by subst w1.
  destruct (broadcast_presence_frames fuel u false w1) as (w2 & Hrun & Hout).
  { intros v c' ws Hex Hv.
    destruct (decide (v = u)) as [->|Hvu].
    - unfold connections_of in Hv. rewrite Hc1, lookup_delete_eq in Hv. done.
    - apply (Hok v c' ws _ Hvu). unfold connections_of in *.
      by rewrite Hc1, lookup_delete_ne in Hv. }
  unfold _broadcast_presence_update in Hrun. rewrite Hrun.
  rewrite forget_connection_run. eexists. split; [reflexivity|].
  cbn [outbox]. rewrite Hout, Ho1. f_equal.
  apply presence_frames_ext; [by rewrite Hc1; fields|by rewrite Hr1; fields].
Qed.

Lemma disconnect_all_dead_frames fuel u : ∀ dead w conns,
  connections (mgr w) !! u = Some conns →
  NoDup dead → dead ≠ [] →
  (∀ c, c ∈ dead ↔ is_Some (conns !! c)) →
  (∀ v c' ws msg', v ≠ u → connections_of (mgr w) v !! c' = Some ws →
                   send_ok tr ws msg' = true) →
  ∃ w', for_each (λ c, disconnect tr now (S fuel) c u) dead w = Ok tt w' ∧
        outbox w' = outbox w ++
          presence_frames now u false (with_connections (delete u) (mgr w)).
Proof.
  induction dead as [|c rest IH]; intros w conns Hu Hnd Hne Hkeys Hok; [done|].
  apply NoDup_cons in Hnd as [Hc Hnd].
  assert (Hsome : is_Some (conns !! c)) by (apply Hkeys; left).
  cbn [for_each]. rewrite bind_run.
  destruct rest as [|c2 rest'].
  - assert (He : delete c conns = ∅).
    { apply map_eq. intros k. rewrite lookup_empty.
      destruct (decide (k = c)) as [->|Hk]; [apply lookup_delete_eq|].
      rewrite lookup_delete_ne by done. apply eq_None_not_Some. intros Hs.
      apply Hkeys in Hs. apply list_elem_of_singleton in Hs. done. }
    destruct (disconnect_last_frames fuel c u w conns Hu Hsome He Hok)
      as (w' & Hrun & Hout).
    rewrite Hrun. cbn. eauto.
  - assert (Hne' : delete c conns ≠ ∅).
    { intros He. assert (Hs2 : is_Some (conns !! c2)) by (apply Hkeys; right; left).
      assert (c2 ≠ c) by (intros ->; apply Hc; left).
      destruct Hs2 as [x Hx].
      assert (Hx' : delete c conns !! c2 = Some x) by by rewrite lookup_delete_ne.
      rewrite He in Hx'. by rewrite lookup_empty in Hx'. }
    rewrite (disconnect_not_last tr now fuel c u w conns Hu Hsome Hne').
    remember (mkWorld _ (outbox w)) as w1 eqn:Hw1.
    assert (Hc1 : connections (mgr w1) = <[u := delete c conns]> (connections (mgr w))).
    { subst w1. cbn [mgr]. rewrite forget_connection_fields. by fields. }
    assert (Hr1 : rooms (mgr w1) = rooms (mgr w)).
    { subst w1. cbn [mgr]. rewrite forget_connection_fields. cbn [rooms].
      rewrite decide_True; [done|]. fields. rewrite lookup_insert_eq. eauto. }
    assert (Ho1 : outbox w1 = outbox w) by by subst w1.
    destruct (IH w1 (delete c conns)) as (w' & Hrun & Hout); auto.
    + by rewrite Hc1, lookup_insert_eq.
    + intros c'. split.
      * intros Hin. assert (c' ≠ c) by (intros ->; done).
        rewrite lookup_delete_ne by done. apply Hkeys. by right.
      * intros Hs. destruct (decide (c' = c)) as [->|Hk].
        { rewrite lookup_delete_eq in Hs. by destruct Hs. }
        rewrite lookup_delete_ne in Hs by done.
        apply Hkeys in Hs. apply elem_of_cons in Hs as [?|?]; done.
    + intros v c' ws msg' Hv Hl. apply (Hok v c' ws msg' Hv).
      unfold connections_of in *. by rewrite Hc1, lookup_insert_ne in Hl.
    + exists w'. split; [exact Hrun|].
      rewrite Hout, Ho1. f_equal. apply presence_frames_ext.
      * fields. by rewrite Hc1, delete_insert_eq.
      * fields. exact Hr1.
Qed.

Lemma send_to_user_all_dead_frames fuel u msg w conns :
  connections (mgr w) !! u = Some conns →
  conns ≠ ∅ →
  (∀ c ws, conns !! c = Some ws → send_ok tr ws msg = false) →
  (∀ v c' ws msg', v ≠ u → connections_of (mgr w) v !! c' = Some ws →
                   send_ok tr ws msg' = true) →
  ∃ w', send_to_user tr now (S fuel) u msg w = Ok false w' ∧
        outbox w' = outbox w ++
          presence_frames now u false (with_connections (delete u) (mgr w)).
Proof.
  intros Hu Hne Hdead Hok. unfold send_to_user, send_to_user_open.
  rewrite bind_run. cbn [get_mgr]. rewrite Hu. rewrite bind_run.
  destruct (fold_send_one tr now msg (map_to_list conns) ([], 0%nat) w)
    as (w1 & Hrun & Hc1 & _ & Hr1 & _).
  pose proof (fold_send_one_outbox _ _ _ _ _ _ _ _ Hrun) as Ho1.
  rewrite Hrun.
  assert (Hall : filter (λ p : string * WebSocket, send_ok tr p.2 msg = false)
                   (map_to_list conns) = map_to_list conns).
  { apply filter_all. intros [c ws] Hin. apply elem_of_map_to_list in Hin.
    cbn. eauto. }
  assert (Hnone : filter (λ p : string * WebSocket, send_ok tr p.2 msg = true)
                    (map_to_list conns) = []).
  { apply filter_none. intros [c ws] Hin. apply elem_of_map_to_list in Hin.
    cbn. rewrite (Hdead c ws Hin). done. }
  rewrite Hall, Hnone in *. cbn [fst snd app length Nat.add fmap list_fmap] in *.
  rewrite app_nil_r in Ho1.
  rewrite bind_run.
  destruct (disconnect_all_dead_frames fuel u (map_to_list conns).*1 w1 conns)
    as (w' & Hrun' & Hout'); auto.
  - by rewrite Hc1.
  - apply NoDup_fst_map_to_list.
  - intros Hnil. apply fmap_nil_inv in Hnil. by apply map_to_list_empty_iff in Hnil.
  - intros c. rewrite list_elem_of_fmap. split.
    + intros ([c' ws] & -> & Hin). apply elem_of_map_to_list in Hin. eauto.
    + intros [ws Hws]. exists (c, ws). split; [done|]. by apply elem_of_map_to_list.
  - intros v c' ws msg' Hv Hl. apply (Hok v c' ws msg' Hv).
    unfold connections_of in *. by rewrite Hc1 in Hl.
  - rewrite Hrun'. exists w'. split; [reflexivity|].
    rewrite Hout', Ho1. f_equal. apply presence_frames_ext; fields; congruence.
Qed.

Lemma broadcast_loop_prefix_frames fuel r msg excl n m0 rest : ∀ pre w,
  (∀ v, v ∈ pre → excluded excl v = false →
        ∀ c ws, connections_of m0 v !! c = Some ws → send_ok tr ws msg = true) →
  size (default ∅ (rooms m0 !! r)) = n →
  same_registry m0 (mgr w) →
  ∃ w1,
    for_live
      (λ w', bool_decide (size (default ∅ (rooms (mgr w') !! r)) = n))
      (λ user_id,
         if excluded excl user_id then mret tt
         else send_to_user_open tr now (disconnect tr now fuel) user_id msg ;; mret tt)
      (pre ++ rest) w =
    for_live
      (λ w', bool_decide (size (default ∅ (rooms (mgr w') !! r)) = n))
      (λ user_id,
         if excluded excl user_id then mret tt
         else send_to_user_open tr now (disconnect tr now fuel) user_id msg ;; mret tt)
      rest w1 ∧
    same_registry m0 (mgr w1) ∧
    outbox w1 = outbox w ++
      (pre ≫= λ v, if excluded excl v then [] else frames_for m0 msg v).
Proof.
  induction pre as [|v pre IH]; intros w Hok Hn Hsame.
  - exists w. split; [done|]. split; [done|]. cbn. by rewrite app_nil_r.
  - cbn [app for_live].
    rewrite bool_decide_eq_true_2; [|destruct Hsame as (_ & -> & _); exact Hn].
    rewrite bind_run. cbn [mbind list_bind].
    destruct (excluded excl v) eqn:Hex.
    + cbn [mret Coroutine_ret app]. apply IH; auto. intros v' Hv'. apply Hok. by right.
    + rewrite bind_run.
      destruct (send_to_user_quiet tr now fuel v msg m0 w) as (b & w1 & Hrun & Hsame1); auto.
      { apply Hok; [left|done]. }
      destruct (send_to_user_all_accept tr now fuel v msg w)
        as (b' & w1' & Hrun' & Hout1 & _).
      { intros c ws Hcw. apply (Hok v ltac:(left) Hex c ws).
        unfold connections_of in *. destruct Hsame as (<- & _). exact Hcw. }
      rewrite Hrun in Hrun'. simplify_eq.
      unfold send_to_user in Hrun. rewrite Hrun. cbn [mret Coroutine_ret].
      destruct (IH w1') as (w2 & Hrest & Hsame2 & Hout2); auto.
      { intros v' Hv'. apply Hok. by right. }
      exists w2. split; [exact Hrest|]. split; [exact Hsame2|].
      rewrite Hout2, Hout1, <- app_assoc. do 2 f_equal.
      apply frames_for_ext, Hsame.
Qed.
End DeadMemberFrames.

(** X8.  A member of the room that is not skipped and whose sockets all
    refuse the frame makes [broadcast_to_room] raise [RuntimeError]: the
    nested [disconnect] of its last socket takes the member out of the very
    set the broadcast is walking.  (All other sockets are taken to accept
    whatever they are sent.)  The frames sent by the call are exactly: the
    frame on every socket of the members walked before that member (those
    skipped by the guard apart), then the offline PRESENCE_UPDATE of that
    member on the sockets of the other members of its rooms, sent by the
    nested [disconnect].  So the members after it in the walk do not get the
    frame of the broadcast; what reaches them from this call is that
    presence update only. *)
Theorem broadcast_aborts_on_dead_member (tr : Transport) (now : Z) (fuel : nat)
    (r : string) (msg : Message) (excl : option Z) (w : World)
    (members : gset Z) (u : Z) (conns : gmap string WebSocket) :
  rooms (mgr w) !! r = Some members →
  u ∈ members →
  excluded excl u = false →
  connections (mgr w) !! u = Some conns →
  conns ≠ ∅ →
  (∀ c ws, conns !! c = Some ws → send_ok tr ws msg = false) →
  (∀ v c ws msg', v ≠ u → connections_of (mgr w) v !! c = Some ws →
                  send_ok tr ws msg' = true) →
  ∃ w' pre post,
    elements members = pre ++ u :: post ∧
    broadcast_to_room tr now (S fuel) r msg excl w = Raised RuntimeError w' ∧
    outbox w' = outbox w ++
      (pre ≫= λ v, if excluded excl v then [] else frames_for (mgr w) msg v) ++
      presence_frames now u false (with_connections (delete u) (mgr w)) ∧
    (∀ f, f ∈ presence_frames now u false (with_connections (delete u) (mgr w)) →
          f.2 = PresenceUpdate u false now) ∧
    is_user_online (mgr w') u = false ∧
    u ∉ get_room_members (mgr w') r.
Proof.
  intros Hr Hu Hex Hconns Hne Hdead Hok.
  unfold broadcast_to_room, broadcast_to_room_open.
  rewrite bind_run. cbn [get_mgr]. rewrite Hr.
  assert (Hin : u ∈ elements members) by by apply elem_of_elements.
  apply list_elem_of_split in Hin as (pre & post & Hsplit).
  pose proof (NoDup_elements members) as Hnd. rewrite Hsplit in Hnd.
  apply NoDup_app in Hnd as (_ & Hpre & _).
  rewrite Hsplit.
  destruct (broadcast_loop_prefix_frames tr now (S fuel) r msg excl (size members)
              (mgr w) (u :: post) pre w) as (w1 & -> & Hsame & Hout1).
  { intros v Hv _ c ws. apply Hok. intros ->. apply (Hpre u Hv). left. }
  { by rewrite Hr. }
  { apply same_registry_refl. }
  destruct Hsame as (Hc1 & Hr1 & _).
  cbn [for_live]. rewrite bool_decide_eq_true_2; [|by rewrite Hr1, Hr].
  rewrite bind_run, Hex, bind_run.
  assert (Hok1 : ∀ v c ws msg', v ≠ u → connections_of (mgr w1) v !! c = Some ws →
                                send_ok tr ws msg' = true).
  { intros v c ws msg' Hv Hl. apply (Hok v c ws msg' Hv).
    unfold connections_of in *. by rewrite Hc1 in Hl. }
  destruct (send_to_user_all_dead tr now fuel u msg w1 conns)
    as (w2 & Hrun & Hc2 & Hr2); auto.
  { by rewrite Hc1. }
  destruct (send_to_user_all_dead_frames tr now fuel u msg w1 conns)
    as (w2' & Hrun' & Hout2); auto.
  { by rewrite Hc1. }
  rewrite Hrun in Hrun'. simplify_eq.
  unfold send_to_user in Hrun. rewrite Hrun. cbn [mret Coroutine_ret].
  assert (Hroom : rooms (mgr w2') !! r = drop_member u members).
  { by rewrite Hr2, Hr1, lookup_omap, Hr. }
  assert (Hchanged : bool_decide (size (default ∅ (rooms (mgr w2') !! r)) = size members)
                     = false).
  { apply bool_decide_eq_false. rewrite Hroom. unfold drop_member.
    rewrite decide_True by done.
    assert (size members ≠ 0)%nat.
    { intros H0. apply size_empty_iff in H0. set_solver. }
    case_decide; cbn [default from_option id].
    - rewrite size_empty. lia.
    - rewrite size_difference by set_solver. rewrite size_singleton. lia. }
  exists w2', pre, post. split; [done|]. split; [|split; [|split; [|split]]].
  - destruct post; cbn [for_live]; by rewrite Hchanged.
  - rewrite Hout2, Hout1, <- app_assoc. do 2 f_equal.
    apply presence_frames_ext; fields; congruence.
  - apply presence_frames_message.
  - unfold is_user_online. by rewrite Hc2, lookup_delete_eq.
  - unfold get_room_members. rewrite Hroom.
    destruct (drop_member u members) as [s|] eqn:Hd; cbn; [|set_solver].
    by apply drop_member_not_in in Hd.
Qed.

Lemma broadcast_aborts_on_dead_member_witness :
  ∃ w', broadcast_to_room (failing_socket 12) 20 8 "conv_5" (Payload "hi") None chat_world
          = Raised RuntimeError w' ∧
        is_user_online (mgr w') 2 = false.
Proof.
  assert (Hc : connections (mgr chat_world) =
               <[2 := {["c2" := 12%nat]}]> {[1 := {["c1" := 11%nat]}]}).
  { vm_compute. reflexivity. }
  destruct (broadcast_aborts_on_dead_member (failing_socket 12) 20 7 "conv_5"
              (Payload "hi") None chat_world {[1; 2]} 2 {["c2" := 12%nat]})
    as (w' & pre & post & _ & Hrun & _ & _ & Hoff & _).
  - vm_compute. reflexivity.
  - set_solver.
  - reflexivity.
  - vm_compute. reflexivity.
  - apply map_non_empty_singleton.
  - intros c ws H. apply lookup_singleton_Some in H as [_ <-]. reflexivity.
  - intros v c ws msg' Hv. unfold connections_of. rewrite Hc.
    rewrite lookup_insert_ne by done.
    destruct (decide (v = 1)) as [->|Hv1].
    + rewrite lookup_singleton_eq. cbn. intros H.
      apply lookup_singleton_Some in H as [_ <-]. reflexivity.
    + rewrite lookup_singleton_ne by done. cbn. by rewrite lookup_empty.
  - exists w'. split; [exact Hrun|exact Hoff].
Defined.

(** ** The background sweep: [cleanup_stale_connections] *)

Section Cleanup.
Context (tr : Transport) (now : Z).

Lemma reap_stale_terminates fuel n :
  (n < fuel)%nat → preserves False (few_users n) (reap_stale tr now fuel).
Proof.
  intros Hn. apply preserves_get. intros m. apply preserves_for_each. intros c _.
  apply preserves_get. intros m'.
  destruct (connection_meta m' !! c); [|apply preserves_ret].
  by apply disconnect_terminates.
Qed.

Lemma cleanup_pass_returns fuel w :
  (size (connections (mgr w)) < fuel)%nat →
  ∃ w', cleanup_pass tr now fuel w = Ok tt w'.
Proof.
  intros Hfuel.
  assert (Ht : preserves False (few_users (size (connections (mgr w))))
                 (cleanup_try tr now fuel)).
  { apply preserves_bind; [by apply reap_stale_terminates|intros _].
    by apply sweep_typing_terminates. }
  specialize (Ht w (le_n _)). unfold cleanup_pass, try_except.
  destruct (cleanup_try tr now fuel w) as [[] w'|e w'|]; [eauto|cbn; eauto|done].
Qed.

Lemma cleanup_pass_frame (Q : Manager → Prop) fuel :
  (∀ m m', Q m → internal_step now m m' → Q m') →
  (∀ m r uid, Q m → Q (expire_typing r uid m)) →
  preserves True (λ w, Q (mgr w)) (cleanup_pass tr now fuel).
Proof.
  intros Hint Hexp.
  apply preserves_try; [|intros _; apply preserves_ret].
  apply preserves_bind; [by apply reap_stale_preserves|intros _].
  apply preserves_get. intros m. apply preserves_for_each. intros r _.
  apply preserves_get. intros m'. apply preserves_for_each. intros uid _.
  apply preserves_bind; [|intros _; by apply broadcast_to_room_preserves].
  apply preserves_modify. intros w Hw. cbn. by apply Hexp.
Qed.

End Cleanup.

(** X9.  One pass of the background sweep always completes: whatever the
    sockets answer, no exception leaves the pass (with fuel for the nested
    disconnects).  It never registers a connection and never adds a room
    member, it removes no typing signal that is not yet past [now], and
    every typing signal it leaves was there before. *)
Theorem cleanup_pass_completes (tr : Transport) (now : Z) (fuel : nat) (w : World) :
  (size (connections (mgr w)) < fuel)%nat →
  ∃ w', cleanup_pass tr now fuel w = Ok tt w' ∧
    (∀ r u e, typing_expiry (mgr w') r u = Some e → typing_expiry (mgr w) r u = Some e) ∧
    (∀ r u e, typing_expiry (mgr w) r u = Some e → now ≤ e →
              typing_expiry (mgr w') r u = Some e) ∧
    (∀ u c ws, connections_of (mgr w') u !! c = Some ws →
               connections_of (mgr w) u !! c = Some ws) ∧
    (∀ r u, u ∈ get_room_members (mgr w') r → u ∈ get_room_members (mgr w) r).
Proof.
  intros Hfuel.
  destruct (cleanup_pass_returns tr now fuel w Hfuel) as [w' Hrun].
  exists w'. split; [exact Hrun|].
  pose proof (cleanup_pass_swept tr now fuel (mgr w) w (swept_from_refl now _)) as Hs.
  pose proof (cleanup_pass_frame tr now
                (λ m, (∀ u c ws, connections_of m u !! c = Some ws →
                                 connections_of (mgr w) u !! c = Some ws) ∧
                      (∀ r u, u ∈ get_room_members m r → u ∈ get_room_members (mgr w) r))
                fuel) as Hq.
  rewrite Hrun in Hs. destruct Hs as [Hs1 Hs2].
  split; [exact Hs1|]. split; [exact Hs2|].
  cbn beta in Hq. specialize (Hq).
  assert (Hq' := λ H1 H2, Hq H1 H2 w (conj (λ _ _ _ H, H) (λ _ _ H, H))).
  rewrite Hrun in Hq'. apply Hq'.
  - intros m m' [Hc Hr] Hstep.
    destruct (evolves_shrinks now m m' (rtc_once _ _ Hstep)) as (Hc' & Hr' & _).
    split; eauto.
  - intros m r uid [Hc Hr]. split; [exact Hc|exact Hr].
Qed.

Lemma cleanup_pass_completes_witness :
  (size (connections (mgr typing_world)) < 8)%nat ∧
  ∃ w', cleanup_pass all_accepting 6000001 8 typing_world = Ok tt w'.
Proof.
  assert (H : (size (connections (mgr typing_world)) < 8)%nat).
  { vm_compute. lia. }
  split; [exact H|].
  destruct (cleanup_pass_completes all_accepting 6000001 8 typing_world H)
    as (w' & Hrun & _).
  exists w'. exact Hrun.
Defined.

(** ** The stale-connection half of the sweep, when no socket fails *)

Section ReapStale.
Context (tr : Transport) (now : Z).
Hypothesis all_accept : ∀ ws msg, send_ok tr ws msg = true.

Lemma stale_connections_spec hb c :
  c ∈ stale_connections now hb ↔ ∃ t, hb !! c = Some t ∧ stale_threshold < now - t.
Proof.
  unfold stale_connections. rewrite list_elem_of_fmap. split.
  - intros [[c' t] [-> [Ht Hin]%list_elem_of_filter]].
    apply elem_of_map_to_list in Hin. eauto.
  - intros (t & Hc & Ht). exists (c, t). split; [done|].
    apply list_elem_of_filter. split; [done|]. by apply elem_of_map_to_list.
Qed.

Lemma stale_connections_NoDup hb : NoDup (stale_connections now hb).
Proof.
  unfold stale_connections. apply NoDup_fmap_fst.
  - intros c t1 t2 [_ H1]%list_elem_of_filter [_ H2]%list_elem_of_filter.
    apply elem_of_map_to_list in H1, H2. congruence.
  - apply NoDup_filter, NoDup_map_to_list.
Qed.

Lemma disconnect_quiet fuel c u w :
  ∃ w', disconnect tr now (S fuel) c u w = Ok tt w' ∧
        connections_of (mgr w') u !! c = None ∧
        (∀ v c', c' ≠ c → connections_of (mgr w') v !! c' = connections_of (mgr w) v !! c') ∧
        heartbeats (mgr w') = delete c (heartbeats (mgr w)) ∧
        typing_status (mgr w') = typing_status (mgr w) ∧
        ∀ c', meta_identity <$> connection_meta (mgr w') !! c' =
              meta_identity <$> delete c (connection_meta (mgr w)) !! c'.
Proof.
  destruct (connections (mgr w) !! u) as [conns|] eqn:Hu.
  - destruct (conns !! c) as [ws|] eqn:Hc.
    + destruct (decide (delete c conns = ∅)) as [He|Hne].
      * destruct (disconnect_last_quiet tr now fuel c u w conns Hu) as
          (w' & Hrun & Hc' & _ & Hh & Ht & Hm); eauto.
        exists w'. split; [exact Hrun|]. unfold connections_of. rewrite Hc'.
        split; [by rewrite lookup_delete_eq|]. split; [|done].
        intros v c' Hne. destruct (decide (v = u)) as [->|Hv].
        -- rewrite lookup_delete_eq, Hu. cbn. rewrite lookup_empty. symmetry.
           assert (delete c conns !! c' = None) as H by by rewrite He, lookup_empty.
           by rewrite lookup_delete_ne in H.
        -- by rewrite lookup_delete_ne.
      * rewrite (disconnect_not_last tr now fuel c u w conns Hu) by eauto.
        eexists. split; [reflexivity|]. cbn [mgr]. rewrite forget_connection_fields.
        unfold connections_of. fields. rewrite lookup_insert_eq. cbn.
        split; [apply lookup_delete_eq|]. repeat split; auto.
        intros v c' Hc'. destruct (decide (v = u)) as [->|Hv].
        -- rewrite lookup_insert_eq, Hu. cbn. by rewrite lookup_delete_ne.
        -- by rewrite lookup_insert_ne.
    + rewrite disconnect_unregistered; [|unfold connections_of; by rewrite Hu].
      eexists. split; [reflexivity|]. cbn [mgr]. rewrite forget_connection_fields.
      unfold connections_of. fields. rewrite Hu. repeat split; auto.
  - rewrite disconnect_unregistered; [|unfold connections_of; by rewrite Hu].
    eexists. split; [reflexivity|]. cbn [mgr]. rewrite forget_connection_fields.
    unfold connections_of. fields. rewrite Hu. repeat split; auto.
Qed.

Lemma reap_loop fuel : ∀ stale w,
  NoDup stale →
  ∃ w',
    for_each
      (λ conn_id,
         m ← get_mgr;
         match connection_meta m !! conn_id with
         | Some meta => disconnect tr now (S fuel) conn_id (meta_user_id meta)
         | None => mret tt
         end) stale w = Ok tt w' ∧
    (∀ c meta, c ∈ stale → connection_meta (mgr w) !! c = Some meta →
       connections_of (mgr w') (meta_user_id meta) !! c = None ∧
       heartbeats (mgr w') !! c = None ∧
       connection_meta (mgr w') !! c = None) ∧
    (∀ c, c ∉ stale →
       heartbeats (mgr w') !! c = heartbeats (mgr w) !! c ∧
       (∀ v, connections_of (mgr w') v !! c = connections_of (mgr w) v !! c) ∧
       meta_identity <$> connection_meta (mgr w') !! c =
         meta_identity <$> connection_meta (mgr w) !! c) ∧
    typing_status (mgr w') = typing_status (mgr w).
Proof.
  induction stale as [|c rest IH]; intros w Hnd.
  - exists w. split; [done|]. split; [|done]. intros c meta Hin. by apply elem_of_nil in Hin.
  - apply NoDup_cons in Hnd as [Hc Hnd]. cbn [for_each].
    rewrite bind_run, bind_run. cbn [get_mgr].
    assert (Hone : ∃ w1,
      match connection_meta (mgr w) !! c with
      | Some meta => disconnect tr now (S fuel) c (meta_user_id meta)
      | None => mret tt
      end w = Ok tt w1 ∧
      (∀ meta, connection_meta (mgr w) !! c = Some meta →
         connections_of (mgr w1) (meta_user_id meta) !! c = None ∧
         heartbeats (mgr w1) !! c = None ∧
         connection_meta (mgr w1) !! c = None) ∧
      (∀ c', c' ≠ c →
         heartbeats (mgr w1) !! c' = heartbeats (mgr w) !! c' ∧
         (∀ v, connections_of (mgr w1) v !! c' = connections_of (mgr w) v !! c') ∧
         meta_identity <$> connection_meta (mgr w1) !! c' =
           meta_identity <$> connection_meta (mgr w) !! c') ∧
      typing_status (mgr w1) = typing_status (mgr w)).
    { destruct (connection_meta (mgr w) !! c) as [meta|] eqn:Hmeta.
      - destruct (disconnect_quiet fuel c (meta_user_id meta) w)
          as (w1 & Hrun & Hgone & Hother & Hh & Ht & Hm).
        exists w1. split; [exact Hrun|]. split; [|split; [|exact Ht]].
        + intros meta' [= <-]. split; [exact Hgone|].
          rewrite Hh, lookup_delete_eq. split; [done|].
          specialize (Hm c). rewrite lookup_delete_eq in Hm.
          by destruct (connection_meta (mgr w1) !! c).
        + intros c' Hne. rewrite Hh, lookup_delete_ne by done.
          split; [done|]. split; [intros v; by apply Hother|].
          rewrite Hm. by rewrite lookup_delete_ne.
      - exists w. split; [done|]. split; [done|]. by split. }
    destruct Hone as (w1 & -> & Hstale1 & Hother1 & Ht1).
    destruct (IH w1 Hnd) as (w' & Hrun & Hstale & Hother & Ht).
    exists w'. split; [exact Hrun|]. split; [|split; [|by rewrite Ht]].
    + intros c' meta Hin Hmeta. apply elem_of_cons in Hin as [->|Hin].
      * destruct (Hstale1 meta Hmeta) as (H1 & H2 & H3).
        destruct (Hother c Hc) as (H4 & H5 & H6).
        rewrite H4, H5. split; [done|]. split; [done|].
        rewrite H3 in H6. by destruct (connection_meta (mgr w') !! c).
      * assert (c' ≠ c) as Hne by (intros ->; done).
        destruct (Hother1 c' Hne) as (_ & _ & H6). rewrite Hmeta in H6.
        destruct (connection_meta (mgr w1) !! c') as [meta1|] eqn:Hmeta1; [|done].
        cbn in H6. assert (meta_user_id meta = meta_user_id meta1) as ->.
        { unfold meta_identity in H6. by simplify_eq. }
        by apply Hstale.
    + intros c' Hnin. apply not_elem_of_cons in Hnin as [Hne Hnin].
      destruct (Hother1 c' Hne) as (H1 & H2 & H3).
      destruct (Hother c' Hnin) as (H4 & H5 & H6).
      rewrite H4, H1, H6, H3. split; [done|]. split; [|done].
      intros v. by rewrite H5, H2.
Qed.
End ReapStale.

(** X10.  The stale-connection half of the sweep when no socket refuses a
    frame.  A connection is stale when its last heartbeat is more than 60 s
    old; one that is exactly 60 s old is not.  Every stale connection that
    has metadata is unregistered from the user its metadata names and loses
    its heartbeat and metadata; every connection id that is not stale keeps
    its heartbeat and its registrations; no typing signal changes. *)
Theorem reap_stale_removes_stale_connections (tr : Transport) (now : Z)
    (fuel : nat) (w : World) :
  (∀ ws msg, send_ok tr ws msg = true) →
  ∃ w', reap_stale tr now (S fuel) w = Ok tt w' ∧
    (∀ c t meta,
       heartbeats (mgr w) !! c = Some t → stale_threshold < now - t →
       connection_meta (mgr w) !! c = Some meta →
       connections_of (mgr w') (meta_user_id meta) !! c = None ∧
       heartbeats (mgr w') !! c = None ∧
       connection_meta (mgr w') !! c = None) ∧
    (∀ c, (∀ t, heartbeats (mgr w) !! c = Some t → now - t ≤ stale_threshold) →
       heartbeats (mgr w') !! c = heartbeats (mgr w) !! c ∧
       ∀ v, connections_of (mgr w') v !! c = connections_of (mgr w) v !! c) ∧
    typing_status (mgr w') = typing_status (mgr w).
Proof.
  intros Hall. unfold reap_stale. rewrite bind_run. cbn [get_mgr].
  destruct (reap_loop tr now Hall fuel (stale_connections now (heartbeats (mgr w))) w
              (stale_connections_NoDup now _)) as (w' & Hrun & Hstale & Hother & Ht).
  exists w'. split; [exact Hrun|]. split; [|split; [|exact Ht]].
  - intros c t meta Hc Hold Hmeta. apply Hstale; [|done].
    apply stale_connections_spec. eauto.
  - intros c Hfresh. destruct (Hother c) as (H1 & H2 & _); [|by split].
    intros (t & Hc & Hold)%stale_connections_spec. specialize (Hfresh t Hc). lia.
Qed.

Lemma reap_stale_removes_stale_connections_witness :
  heartbeats (mgr chat_world) !! "c1" = Some 5 ∧
  (∃ w', reap_stale all_accepting 60000006 8 chat_world = Ok tt w' ∧
         connections_of (mgr w') 1 !! "c1" = None) ∧
  (∃ w', reap_stale all_accepting 60000005 8 chat_world = Ok tt w' ∧
         connections_of (mgr w') 1 !! "c1" = Some 11%nat).
Proof.
  assert (Hhb : heartbeats (mgr chat_world) !! "c1" = Some 5).
  { vm_compute. reflexivity. }
  assert (Hmeta : connection_meta (mgr chat_world) !! "c1" = Some (mkConnMeta 1 5 [] 5)).
  { vm_compute. reflexivity. }
  split; [exact Hhb|]. split.
  - destruct (reap_stale_removes_stale_connections all_accepting 60000006 7 chat_world
                (λ _ _, eq_refl)) as (w' & Hrun & Hstale & _).
    exists w'. split; [exact Hrun|].
    refine (proj1 (Hstale "c1" 5 _ Hhb _ Hmeta)). unfold stale_threshold. lia.
  - destruct (reap_stale_removes_stale_connections all_accepting 60000005 7 chat_world
                (λ _ _, eq_refl)) as (w' & Hrun & _ & Hfresh & _).
    exists w'. split; [exact Hrun|].
    destruct (Hfresh "c1") as [_ Hsame].
    + intros t Ht. rewrite Hhb in Ht. injection Ht as <-. unfold stale_threshold. lia.
    + rewrite Hsame. vm_compute. reflexivity.
Defined.

(** ** The endpoint: room names and the event loop *)

Section RouterFacts.
Import Router.

Lemma str_of_Z_inj a b : str_of_Z a = str_of_Z b → a = b.
Proof.
  unfold str_of_Z. intros H.
  assert (Hn : ∀ z, NilZero.int_of_string (NilZero.string_of_int (Z.to_int z))
                    = Some (Z.to_int z)).
  { intros z. apply NilZero.isi.
    - intros Hz. pose proof (DecimalZ.of_to z) as Hof. rewrite Hz in Hof.
      cbn in Hof. subst z. discriminate Hz.
    - intros Hz. pose proof (DecimalZ.of_to z) as Hof. rewrite Hz in Hof.
      cbn in Hof. subst z. discriminate Hz. }
  apply DecimalZ.to_int_inj.
  pose proof (Hn a) as Ha. rewrite H, Hn in Ha. by injection Ha.
Qed.

Lemma conv_room_inj a b : conv_room a = conv_room b → a = b.
Proof.
  unfold conv_room. intros H. apply str_of_Z_inj. cbn in H. by simplify_eq.
Qed.

End RouterFacts.

(** X11.  Room names of the endpoint: two different conversation ids never
    share a room.  A JOIN_ROOM event for conversation [rid] makes the
    session's user a member of [conv_<rid>] whether or not the
    acknowledgement can be sent, and changes the members of no other
    conversation's room; connections and typing signals are untouched. *)
Theorem join_event_joins_one_room (tr : Transport) (now : Z) (fuel : nat)
    (s : Router.Session) (a b : option Z) (rid : Z) (w w' : World) :
  Router.room_of a b = Some rid →
  final_world (Router.on_event tr now fuel s (Router.JoinRoom a b) w) = Some w' →
  (∀ rid', Router.conv_room rid' = Router.conv_room rid → rid' = rid) ∧
  get_room_members (mgr w') (Router.conv_room rid) =
    get_room_members (mgr w) (Router.conv_room rid) ∪ {[Router.session_user_id s]} ∧
  (∀ rid', rid' ≠ rid →
     get_room_members (mgr w') (Router.conv_room rid') =
     get_room_members (mgr w) (Router.conv_room rid')) ∧
  connections (mgr w') = connections (mgr w) ∧
  typing_status (mgr w') = typing_status (mgr w).
Proof.
  intros Hroom Hrun.
  assert (Hm : mgr w' = with_rooms (add_member (Router.conv_room rid)
                                      (Router.session_user_id s)) (mgr w)).
  { unfold Router.on_event, try_except in Hrun. cbn [Router.dispatch] in Hrun.
    rewrite Hroom in Hrun. rewrite bind_run in Hrun.
    unfold join_room in Hrun. cbn [modify_mgr] in Hrun.
    unfold send_json in Hrun. cbn [mgr outbox] in Hrun.
    repeat (destruct (send_ok tr _ _); cbn in Hrun); by simplify_eq. }
  rewrite Hm. unfold get_room_members, add_member. fields.
  split; [intros rid'; apply conv_room_inj|].
  split; [by rewrite lookup_insert_eq|].
  split; [|done].
  intros rid' Hne. rewrite lookup_insert_ne; [done|].
  intros Heq. apply conv_room_inj in Heq. done.
Qed.

Lemma join_event_joins_one_room_witness :
  Router.room_of (Some 0) (Some 9) = Some 9 ∧
  final_world (Router.on_event all_accepting 30 8 alice
                 (Router.JoinRoom (Some 0) (Some 9)) chat_world)
    = Some (after (Router.on_event all_accepting 30 8 alice
                     (Router.JoinRoom (Some 0) (Some 9))) chat_world) ∧
  get_room_members
    (mgr (after (Router.on_event all_accepting 30 8 alice
                   (Router.JoinRoom (Some 0) (Some 9))) chat_world))
    (Router.conv_room 5)
  = get_room_members (mgr chat_world) (Router.conv_room 5).
Proof.
  assert (H : final_world (Router.on_event all_accepting 30 8 alice
                 (Router.JoinRoom (Some 0) (Some 9)) chat_world)
    = Some (after (Router.on_event all_accepting 30 8 alice
                     (Router.JoinRoom (Some 0) (Some 9))) chat_world)).
  { vm_compute. reflexivity. }
  split; [reflexivity|]. split; [exact H|].
  refine (proj1 (proj2 (proj2
    (join_event_joins_one_room all_accepting 30 8 alice (Some 0) (Some 9) 9
       chat_world _ eq_refl H))) 5 _).
  lia.
Defined.



Section ChatReachable.
Import ChatConnectionManager.

Let J (w : ChatWorld) : Prop :=
  chat_no_empty_connection_list (chat w) ∧ chat_no_empty_room (chat w).

Lemma chat_J_deliver w ws msg :
  J w → J (mkChatWorld (chat w) (delivered w ++ [(ws, msg)]) (published w)).
Proof. done. Qed.

Lemma chat_J_delete w u :
  J w → J (mkChatWorld (with_active_connections (delete u) (chat w))
                       (delivered w) (published w)).
Proof.
  intros [Hc Hr]. split; [|exact Hr].
  intros v l. cbn. intros [_ Hv]%lookup_delete_Some. eauto.
Qed.

Lemma chat_J_set w u l :
  l ≠ [] → J w →
  J (mkChatWorld (with_active_connections <[u := l]> (chat w)) (delivered w) (published w)).
Proof.
  intros Hl [Hc Hr]. split; [|exact Hr].
  intros v l'. cbn. destruct (decide (u = v)) as [->|Hne].
  - rewrite lookup_insert_eq. by intros [= <-].
  - rewrite lookup_insert_ne by done. eauto.
Qed.

Lemma chat_J_rooms w u :
  J w → J (mkChatWorld (leave_all_rooms u (chat w)) (delivered w) (published w)).
Proof.
  intros [Hc Hr]. split; cbn.
  - intros v l. destruct (leave_all_rooms_frame u (chat w)) as (-> & _). eauto.
  - by apply leave_all_rooms_no_empty_room.
Qed.

Lemma chat_J_typing w f :
  J w → J (mkChatWorld (with_typing_users f (chat w)) (delivered w) (published w)).
Proof. done. Qed.

Lemma run_chat_call_preserves tr now fuel call :
  preserves True J (run_chat_call tr now fuel call).
Proof.
  pose proof (chat_broadcast_to_room_preserves tr now J chat_J_deliver chat_J_delete
                chat_J_set chat_J_rooms fuel) as Hb.
  destruct call; cbn [run_chat_call].
  - intros w Hw. unfold connect. destruct (accept_ok _ _); [|exact Hw].
    revert w Hw. apply preserves_bind; [|intros _].
    { apply chat_preserves_modify. intros w [Hc Hr]. split; [|exact Hr].
      intros v l. cbn. destruct (decide (user_id = v)) as [->|Hne].
      - rewrite lookup_insert_eq. intros [= <-].
        intros Hnil. by apply app_eq_nil in Hnil as [_ ?].
      - rewrite lookup_insert_ne by done. eauto. }
    apply preserves_bind; [|intros _].
    { apply chat_broadcast_presence_preserves;
        auto using chat_J_deliver, chat_J_delete, chat_J_set, chat_J_rooms. }
    apply chat_preserves_get. intros m.
    case_decide; [apply preserves_ret|apply preserves_raise].
  - apply chat_disconnect_preserves;
      auto using chat_J_deliver, chat_J_delete, chat_J_set, chat_J_rooms.
  - apply chat_preserves_modify. intros w [Hc Hr]. split; [exact Hc|].
    intros r s. cbn. unfold add_member.
    destruct (decide (conversation_id = r)) as [->|Hne].
    + rewrite lookup_insert_eq. intros [= <-]. set_solver.
    + rewrite lookup_insert_ne by done. eauto.
  - apply chat_preserves_modify. intros w [Hc Hr]. split; [exact Hc|].
    intros r s. cbn. unfold remove_member.
    destruct (room_members (chat w) !! conversation_id) as [s0|] eqn:H0; [|eauto].
    cbv zeta. case_decide as He.
    + intros [_ ?]%lookup_delete_Some. eauto.
    + destruct (decide (conversation_id = r)) as [->|Hne].
      * rewrite lookup_insert_eq. by intros [= <-].
      * rewrite lookup_insert_ne by done. eauto.
  - apply chat_send_personal_message_preserves;
      auto using chat_J_deliver, chat_J_delete, chat_J_set, chat_J_rooms.
  - apply Hb.
  - apply preserves_bind; [|intros _; apply Hb].
    apply chat_preserves_modify. intros w. apply chat_J_typing.
  - apply preserves_bind; [|intros _].
    { apply chat_preserves_modify. intros w. apply chat_J_typing. }
    apply preserves_bind; [apply Hb|intros _].
    apply chat_preserves_get. intros m. destruct (redis m); [|apply preserves_ret].
    apply preserves_try; [|intros _; apply preserves_ret].
    intros w Hw. unfold publish. by destruct (publish_ok tr).
  - apply Hb.
  - apply chat_preserves_modify. by intros w Hw.
Qed.

Lemma chat_reachable_no_empty w :
  chat_reachable w →
  chat_no_empty_connection_list (chat w) ∧ chat_no_empty_room (chat w).
Proof.
  induction 1 as [|w tr now fuel call w' _ IH Hrun].
  - split; intros ? ?; cbn; by rewrite lookup_empty.
  - pose proof (run_chat_call_preserves tr now fuel call w IH) as Hp.
    destruct (run_chat_call tr now fuel call w); cbn in Hrun; by simplify_eq.
Qed.

Lemma chat_reachable_after tr now fuel call w :
  chat_reachable w → chat_reachable (after (run_chat_call tr now fuel call) w).
Proof.
  intros Hw. unfold after.
  destruct (run_chat_call tr now fuel call w) as [a w'|e w'|] eqn:Hrun; [| |done].
  - eapply chat_reachable_call; [exact Hw|]. by rewrite Hrun.
  - eapply chat_reachable_call; [exact Hw|]. by rewrite Hrun.
Qed.
End ChatReachable.

(** X13.  In every world [ChatConnectionManager] can reach, no user is
    listed with an empty socket list and no room is kept without members.
    So [is_user_online] holds exactly for the users that have at least one
    socket, and a room exists exactly when its member count is positive. *)
Theorem chat_registry_has_no_empty_entries (w : ChatConnectionManager.ChatWorld) :
  chat_reachable w →
  chat_no_empty_connection_list (ChatConnectionManager.chat w) ∧
  chat_no_empty_room (ChatConnectionManager.chat w) ∧
  (∀ u, ChatConnectionManager.is_user_online (ChatConnectionManager.chat w) u = true ↔
        ∃ ws, ws ∈ default [] (ChatConnectionManager.active_connections
                                 (ChatConnectionManager.chat w) !! u)) ∧
  (∀ r, is_Some (ChatConnectionManager.room_members (ChatConnectionManager.chat w) !! r) ↔
        (0 < ChatConnectionManager.get_room_members_count
               (ChatConnectionManager.chat w) r)%nat).
Proof.
  intros Hw. destruct (chat_reachable_no_empty w Hw) as [Hc Hr].
  split; [exact Hc|]. split; [exact Hr|]. split.
  - intros u. unfold ChatConnectionManager.is_user_online.
    rewrite bool_decide_eq_true. split.
    + intros [l Hl]. rewrite Hl. cbn. specialize (Hc u l Hl).
      destruct l as [|ws l]; [done|]. exists ws. left.
    + intros [ws Hin].
      destruct (ChatConnectionManager.active_connections _ !! u); [eauto|].
      by apply elem_of_nil in Hin.
  - intros r. unfold ChatConnectionManager.get_room_members_count. split.
    + intros [s Hs]. rewrite Hs. cbn. specialize (Hr r s Hs).
      assert (size s ≠ 0)%nat; [|lia].
      intros H0. apply size_empty_iff in H0. apply Hr. set_solver.
    + destruct (ChatConnectionManager.room_members _ !! r); [eauto|].
      cbn. rewrite size_empty. lia.
Qed.

Lemma chat_trio_world_reachable : chat_reachable chat_trio_world.
Proof.
  unfold chat_trio_world.
  apply (chat_reachable_after chat_all_accepting 0 0 (ChatJoinRoom 5 2)).
  apply (chat_reachable_after chat_all_accepting 0 0 (ChatJoinRoom 5 1)).
  apply (chat_reachable_after chat_all_accepting 0 0 (ChatJoinRoom 5 0)).
  apply (chat_reachable_after chat_all_accepting 6 8 (ChatConnect 12%nat 2)).
  apply (chat_reachable_after chat_all_accepting 6 8 (ChatConnect 11%nat 1)).
  apply (chat_reachable_after chat_all_accepting 6 8 (ChatConnect 10%nat 0)).
  apply chat_reachable_init.
Qed.

Lemma chat_registry_has_no_empty_entries_witness :
  chat_reachable chat_trio_world ∧
  chat_no_empty_room (ChatConnectionManager.chat chat_trio_world).
Proof.
  split; [exact chat_trio_world_reachable|].
  exact (proj1 (proj2 (chat_registry_has_no_empty_entries chat_trio_world
                         chat_trio_world_reachable))).
Defined.

(** X14.  On [ChatConnectionManager], closing one of several sockets of a
    user keeps the user online with the remaining sockets, sends no frame
    to anybody, and still removes the user from every room. *)
Theorem chat_disconnect_spare_socket (tr : ChatConnectionManager.ChatTransport) (now : Z)
    (fuel : nat) (ws : WebSocket) (u : Z) (w : ChatConnectionManager.ChatWorld)
    (l : list WebSocket) :
  ChatConnectionManager.active_connections (ChatConnectionManager.chat w) !! u = Some l →
  ws ∈ l →
  ChatConnectionManager.remove_first ws l ≠ [] →
  ∃ w', ChatConnectionManager.disconnect tr now (S fuel) ws u w = Ok tt w' ∧
        ChatConnectionManager.active_connections (ChatConnectionManager.chat w') =
          <[u := ChatConnectionManager.remove_first ws l]>
            (ChatConnectionManager.active_connections (ChatConnectionManager.chat w)) ∧
        ChatConnectionManager.is_user_online (ChatConnectionManager.chat w') u = true ∧
        ChatConnectionManager.room_members (ChatConnectionManager.chat w') =
          omap (drop_member u)
               (ChatConnectionManager.room_members (ChatConnectionManager.chat w)) ∧
        (∀ R, u ∉ default ∅ (ChatConnectionManager.room_members
                               (ChatConnectionManager.chat w') !! R)) ∧
        ChatConnectionManager.delivered w' = ChatConnectionManager.delivered w.
Proof.
  intros Hl Hin Hne. cbn [ChatConnectionManager.disconnect].
  unfold ChatConnectionManager.disconnect_body, ChatConnectionManager.drop_socket.
  rewrite bind_run, bind_run. cbn [ChatConnectionManager.get_chat]. rewrite Hl.
  cbv zeta. rewrite (decide_True (P := ws ∈ l)) by done.
  rewrite decide_False by done. cbn [ChatConnectionManager.modify_chat].
  eexists. split; [reflexivity|].
  cbn [ChatConnectionManager.chat ChatConnectionManager.delivered].
  destruct (leave_all_rooms_frame u
              (ChatConnectionManager.with_active_connections
                 <[u := ChatConnectionManager.remove_first ws l]>
                 (ChatConnectionManager.chat w))) as (Hc & _).
  rewrite Hc, leave_all_rooms_members. cbn.
  split; [done|]. split; [|split; [done|split; [|done]]].
  - unfold ChatConnectionManager.is_user_online. rewrite Hc. cbn.
    rewrite lookup_insert_eq. apply bool_decide_eq_true. eauto.
  - intros R. rewrite lookup_omap.
    destruct (ChatConnectionManager.room_members _ !! R) as [s|]; cbn; [|set_solver].
    destruct (drop_member u s) as [s'|] eqn:Hd; cbn; [|set_solver].
    by apply drop_member_not_in in Hd.
Qed.

Lemma chat_disconnect_spare_socket_witness :
  ∃ w', ChatConnectionManager.disconnect chat_all_accepting 20 8 13%nat 1
          (after (ChatConnectionManager.connect chat_all_accepting 9 8 13%nat 1)
                 chat_trio_world) = Ok tt w' ∧
        ChatConnectionManager.is_user_online (ChatConnectionManager.chat w') 1 = true ∧
        1 ∉ default ∅ (ChatConnectionManager.room_members
                         (ChatConnectionManager.chat w') !! 5).
Proof.
  destruct (chat_disconnect_spare_socket chat_all_accepting 20 7 13%nat 1
              (after (ChatConnectionManager.connect chat_all_accepting 9 8 13%nat 1)
                     chat_trio_world) [11%nat; 13%nat])
    as (w' & Hrun & _ & Hon & _ & Hrooms & _).
  - vm_compute. reflexivity.
  - set_solver.
  - vm_compute. discriminate.
  - exists w'. split; [exact Hrun|]. split; [exact Hon|exact (Hrooms 5)].
Defined.

Section ChatPublish.
Import ChatConnectionManager.

End ChatPublish.



(** X16.  On [ChatConnectionManager], [handle_typing] records the time of
    the event (not an expiry) for a user who starts typing and drops the
    record of a user who stops, whatever becomes of the broadcast; no other
    typing record changes. *)
Theorem chat_handle_typing_sets_only_own_record
    (tr : ChatConnectionManager.ChatTransport) (now : Z) (fuel : nat)
    (conv u : Z) (name : string) (typing : bool)
    (w w' : ChatConnectionManager.ChatWorld) :
  final_world (ChatConnectionManager.handle_typing tr now fuel conv u name typing w)
    = Some w' →
  ChatConnectionManager.typing_since (ChatConnectionManager.chat w') conv u =
    (if typing then Some now else None) ∧
  ∀ conv' u', (conv', u') ≠ (conv, u) →
    ChatConnectionManager.typing_since (ChatConnectionManager.chat w') conv' u' =
    ChatConnectionManager.typing_since (ChatConnectionManager.chat w) conv' u'.
Proof.
  intros Hrun. unfold ChatConnectionManager.handle_typing in Hrun.
  rewrite bind_run in Hrun. cbn [ChatConnectionManager.modify_chat] in Hrun.
  remember (ChatConnectionManager.mkChatWorld _ _ _) as w0 eqn:Hw0.
  pose proof (chat_broadcast_typing tr now
                (ChatConnectionManager.set_typing_flag now conv u typing
                   (ChatConnectionManager.typing_users (ChatConnectionManager.chat w)))
                fuel conv (ChatConnectionManager.ChatTyping conv u name typing) (Some u)
                w0) as Hts.
  assert (Hw' : ChatConnectionManager.typing_users (ChatConnectionManager.chat w') =
                ChatConnectionManager.set_typing_flag now conv u typing
                  (ChatConnectionManager.typing_users (ChatConnectionManager.chat w))).
  { specialize (Hts ltac:(by subst w0)).
    destruct (ChatConnectionManager.broadcast_to_room _ _ _ _ _ _ _);
      simpl in Hrun; by simplify_eq. }
  unfold ChatConnectionManager.typing_since. rewrite Hw'. clear.
  unfold ChatConnectionManager.set_typing_flag.
  set (ts := ChatConnectionManager.typing_users (ChatConnectionManager.chat w)).
  split.
  - destruct typing.
    + rewrite lookup_insert_eq. simpl. by rewrite lookup_insert_eq.
    + destruct (ts !! conv) as [t|] eqn:Hr.
      * rewrite lookup_insert_eq. simpl. by rewrite lookup_delete_eq.
      * by rewrite Hr.
  - intros conv' u' Hne. destruct (decide (conv' = conv)) as [->|Hr'].
    + assert (u' ≠ u) by congruence.
      destruct typing.
      * rewrite lookup_insert_eq. simpl. rewrite lookup_insert_ne by done.
        by destruct (ts !! conv).
      * destruct (ts !! conv) as [t|] eqn:Hr; [|by rewrite Hr].
        rewrite lookup_insert_eq. simpl. by rewrite lookup_delete_ne.
    + destruct typing.
      * by rewrite lookup_insert_ne.
      * destruct (ts !! conv) as [t|] eqn:Hr; [|done].
        by rewrite lookup_insert_ne.
Qed.

Lemma chat_handle_typing_sets_only_own_record_witness :
  final_world (ChatConnectionManager.handle_typing chat_all_accepting 1000000 8 5 1
                 "alice" true chat_trio_world) = Some chat_typing_world ∧
  ChatConnectionManager.typing_since (ChatConnectionManager.chat chat_typing_world) 5 1
    = Some 1000000.
Proof.
  assert (H : final_world (ChatConnectionManager.handle_typing chat_all_accepting 1000000
                 8 5 1 "alice" true chat_trio_world) = Some chat_typing_world).
  { vm_compute. reflexivity. }
  split; [exact H|].
  exact (proj1 (chat_handle_typing_sets_only_own_record _ _ _ _ _ _ _ _ _ H)).
Defined.

Section ChatPresence.
Import ChatConnectionManager.
Context (tr : ChatTransport) (now : Z) (p : gmap Z Z).

Let K (w : ChatWorld) : Prop := user_presence (chat w) = p.

Lemma chat_K_rooms w u :
  K w → K (mkChatWorld (leave_all_rooms u (chat w)) (delivered w) (published w)).
Proof.
  unfold K. cbn. by destruct (leave_all_rooms_frame u (chat w)) as (_ & -> & _).
Qed.

Lemma chat_disconnect_keeps_presence fuel ws u :
  preserves True K (disconnect tr now fuel ws u).
Proof. apply chat_disconnect_preserves; try done. apply chat_K_rooms. Qed.

Lemma chat_broadcast_keeps_presence fuel conv msg excl :
  preserves True K (broadcast_to_room tr now fuel conv msg excl).
Proof. apply chat_broadcast_to_room_preserves; try done. apply chat_K_rooms. Qed.

Lemma chat_send_keeps_presence fuel msg u :
  preserves True K (send_personal_message tr now fuel msg u).
Proof. apply chat_send_personal_message_preserves; try done. apply chat_K_rooms. Qed.

Lemma chat_presence_broadcast_keeps_presence fuel u online :
  preserves True K (broadcast_presence tr now fuel u online).
Proof. apply chat_broadcast_presence_preserves; try done. apply chat_K_rooms. Qed.
End ChatPresence.

(** X17.  The last-seen stamps of [ChatConnectionManager] are written by
    [connect] alone: an accepted [connect] stamps its user with [now]
    (whatever the presence broadcast does afterwards), and no other call,
    [disconnect] included, changes any stamp.  So the [last_seen] of a
    USER_OFFLINE frame is the time of the user's latest connect. *)
Theorem chat_presence_stamped_only_by_connect
    (tr : ChatConnectionManager.ChatTransport) (now : Z) (fuel : nat)
    (call : ChatCall) (w w' : ChatConnectionManager.ChatWorld) :
  final_world (run_chat_call tr now fuel call w) = Some w' →
  ChatConnectionManager.user_presence (ChatConnectionManager.chat w') =
    match call with
    | ChatConnect ws u =>
        if accept_ok (ChatConnectionManager.sockets tr) ws
        then <[u := now]> (ChatConnectionManager.user_presence (ChatConnectionManager.chat w))
        else ChatConnectionManager.user_presence (ChatConnectionManager.chat w)
    | _ => ChatConnectionManager.user_presence (ChatConnectionManager.chat w)
    end.
Proof.
  intros Hrun.
  assert (Hend : ∀ (c : ChatConnectionManager.C unit) p w0,
            preserves True (λ w, ChatConnectionManager.user_presence
                                   (ChatConnectionManager.chat w) = p) c →
            ChatConnectionManager.user_presence (ChatConnectionManager.chat w0) = p →
            final_world (c w0) = Some w' →
            ChatConnectionManager.user_presence (ChatConnectionManager.chat w') = p).
  { intros c p w0 Hc Hw0 Hfin. specialize (Hc w0 Hw0).
    destruct (c w0); cbn in Hfin; by simplify_eq. }
  destruct call; cbn [run_chat_call] in Hrun.
  - unfold ChatConnectionManager.connect in Hrun.
    destruct (accept_ok _ _); [|cbn in Hrun; by simplify_eq].
    rewrite bind_run in Hrun. cbn [ChatConnectionManager.modify_chat] in Hrun.
    remember (ChatConnectionManager.mkChatWorld _ _ _) as w0 eqn:Hw0.
    eapply (Hend _ _ w0); [| |exact Hrun]; [|by subst w0].
    apply preserves_bind; [apply chat_presence_broadcast_keeps_presence|intros _].
    apply chat_preserves_get. intros m.
    case_decide; [apply preserves_ret|apply preserves_raise].
  - eapply Hend; [apply chat_disconnect_keeps_presence|reflexivity|exact Hrun].
  - cbn in Hrun. by simplify_eq.
  - cbn in Hrun. by simplify_eq.
  - eapply Hend; [apply chat_send_keeps_presence|reflexivity|exact Hrun].
  - eapply Hend; [apply chat_broadcast_keeps_presence|reflexivity|exact Hrun].
  - eapply Hend; [|reflexivity|exact Hrun].
    apply preserves_bind; [by apply chat_preserves_modify|intros _].
    apply chat_broadcast_keeps_presence.
  - eapply Hend; [|reflexivity|exact Hrun].
    apply preserves_bind; [by apply chat_preserves_modify|intros _].
    apply preserves_bind; [apply chat_broadcast_keeps_presence|intros _].
    apply chat_preserves_get. intros m.
    destruct (ChatConnectionManager.redis m); [|apply preserves_ret].
    apply preserves_try; [|intros _; apply preserves_ret].
    intros w1 Hw1. unfold ChatConnectionManager.publish.
    by destruct (ChatConnectionManager.publish_ok tr).
  - unfold ChatConnectionManager.handle_read_receipt in Hrun.
    eapply Hend; [apply chat_broadcast_keeps_presence|reflexivity|exact Hrun].
  - cbn in Hrun. by simplify_eq.
Qed.

Lemma chat_presence_stamped_only_by_connect_witness :
  final_world (run_chat_call chat_all_accepting 20 8 (ChatDisconnect 11%nat 1)
                 chat_trio_world)
    = Some (after (ChatConnectionManager.disconnect chat_all_accepting 20 8 11%nat 1)
                  chat_trio_world) ∧
  ChatConnectionManager.user_presence
    (ChatConnectionManager.chat
       (after (ChatConnectionManager.disconnect chat_all_accepting 20 8 11%nat 1)
              chat_trio_world)) !! 1 = Some 6.
Proof.
  assert (H : final_world (run_chat_call chat_all_accepting 20 8 (ChatDisconnect 11%nat 1)
                 chat_trio_world)
    = Some (after (ChatConnectionManager.disconnect chat_all_accepting 20 8 11%nat 1)
                  chat_trio_world)).
  { vm_compute. reflexivity. }
  split; [exact H|].
  rewrite (chat_presence_stamped_only_by_connect _ _ _ _ _ _ H).
  vm_compute. reflexivity.
Defined.

(** ** The statistics of [get_connection_stats] *)

Lemma sum_list_at_least_length (l : list nat) :
  (∀ x, x ∈ l → (1 ≤ x)%nat) → (length l ≤ sum_list l)%nat.
Proof.
  induction l as [|x l IH]; intros Hl; cbn; [lia|].
  assert (1 ≤ x)%nat by (apply Hl; left).
  assert (length l ≤ sum_list l)%nat by (apply IH; intros y Hy; apply Hl; by right).
  lia.
Qed.

(** X18.  In every reachable world the statistics are consistent: there are
    at least as many connections as users online, no connection is counted
    when nobody is online, and [total_rooms] counts only rooms that have a
    member. *)
Theorem connection_stats_consistent (w : World) :
  reachable w →
  (total_users_online (get_connection_stats (mgr w))
     ≤ total_connections (get_connection_stats (mgr w)))%nat ∧
  (total_connections (get_connection_stats (mgr w)) = 0%nat ↔
   total_users_online (get_connection_stats (mgr w)) = 0%nat) ∧
  (∀ r, is_Some (rooms (mgr w) !! r) ↔ get_room_members (mgr w) r ≠ ∅).
Proof.
  intros Hw.
  pose proof (reachable_no_empty_connection_entry w Hw) as Hc.
  pose proof (reachable_no_empty_room w Hw) as Hr.
  unfold get_connection_stats. cbn [total_users_online total_connections].
  assert (Hlen : size (connections (mgr w)) =
                 length (size <$> (map_to_list (connections (mgr w))).*2)).
  { by rewrite !length_fmap, length_map_to_list. }
  assert (Hle : (size (connections (mgr w))
                 ≤ sum_list (size <$> (map_to_list (connections (mgr w))).*2))%nat).
  { rewrite Hlen. apply sum_list_at_least_length.
    intros x (conns & -> & Hin)%list_elem_of_fmap.
    apply list_elem_of_fmap in Hin as ([u conns'] & -> & Hin).
    apply elem_of_map_to_list in Hin. cbn.
    specialize (Hc u conns' Hin). apply map_size_non_empty_iff in Hc. lia. }
  split; [exact Hle|]. split.
  - split; [lia|]. intros H0. apply map_size_empty_iff in H0. rewrite H0.
    by rewrite map_to_list_empty.
  - intros r. unfold get_room_members. split.
    + intros [s Hs]. rewrite Hs. cbn. eauto.
    + destruct (rooms (mgr w) !! r); [eauto|]. cbn. done.
Qed.

Lemma connection_stats_consistent_witness :
  reachable two_device_world ∧
  (total_users_online (get_connection_stats (mgr two_device_world))
     ≤ total_connections (get_connection_stats (mgr two_device_world)))%nat.
Proof.
  assert (H : reachable two_device_world).
  { unfold two_device_world. do 2 apply reachable_exec. apply reachable_init. }
  split; [exact H|]. exact (proj1 (connection_stats_consistent two_device_world H)).
Defined.

(** ** The MESSAGE event *)



(** ** Heartbeats and the sweep together *)

(** X20.  A connection that has pinged within the last 60 s survives the
    sweep (when no socket refuses a frame): after [handle_heartbeat] at
    time [t] and a stale-connection pass at [now ≤ t + 60 s], the
    connection id still has the heartbeat [t] and is registered exactly as
    before. *)
Theorem fresh_heartbeat_survives_sweep (tr : Transport) (t now : Z) (fuel : nat)
    (c : string) (w : World) (meta : ConnMeta) :
  (∀ ws msg, send_ok tr ws msg = true) →
  connection_meta (mgr w) !! c = Some meta →
  now - t ≤ stale_threshold →
  ∃ w1 w2,
    handle_heartbeat tr t c w = Ok tt w1 ∧
    reap_stale tr now (S fuel) w1 = Ok tt w2 ∧
    heartbeats (mgr w2) !! c = Some t ∧
    ∀ v, connections_of (mgr w2) v !! c = connections_of (mgr w) v !! c.
Proof.
  intros Hall Hmeta Hfresh.
  assert (Hping : ∃ w1, handle_heartbeat tr t c w = Ok tt w1 ∧
                        heartbeats (mgr w1) = <[c := t]> (heartbeats (mgr w)) ∧
                        connections (mgr w1) = connections (mgr w)).
  { unfold handle_heartbeat. rewrite bind_run. cbn [get_mgr]. rewrite Hmeta.
    rewrite bind_run. cbn [modify_mgr].
    destruct (connections (mgr w) !! meta_user_id meta ≫= _) as [ws|].
    - unfold try_except, send_json. rewrite Hall. eexists. split; [reflexivity|].
      by fields.
    - eexists. split; [reflexivity|]. by fields. }
  destruct Hping as (w1 & Hrun1 & Hhb & Hconns).
  exists w1. unfold reap_stale. rewrite bind_run. cbn [get_mgr].
  destruct (reap_loop tr now Hall fuel (stale_connections now (heartbeats (mgr w1))) w1
              (stale_connections_NoDup now _)) as (w2 & Hrun2 & _ & Hother & _).
  exists w2. split; [exact Hrun1|]. split; [exact Hrun2|].
  destruct (Hother c) as (H1 & H2 & _).
  { intros (t' & Hc & Hold)%stale_connections_spec.
    rewrite Hhb, lookup_insert_eq in Hc. simplify_eq. lia. }
  split.
  - by rewrite H1, Hhb, lookup_insert_eq.
  - intros v. rewrite H2. unfold connections_of. by rewrite Hconns.
Qed.

Lemma fresh_heartbeat_survives_sweep_witness :
  connection_meta (mgr chat_world) !! "c1" = Some (mkConnMeta 1 5 [] 5) ∧
  ∃ w1 w2,
    handle_heartbeat all_accepting 50000000 "c1" chat_world = Ok tt w1 ∧
    reap_stale all_accepting 100000000 8 w1 = Ok tt w2 ∧
    heartbeats (mgr w2) !! "c1" = Some 50000000.
Proof.
  assert (Hmeta : connection_meta (mgr chat_world) !! "c1" = Some (mkConnMeta 1 5 [] 5)).
  { vm_compute. reflexivity. }
  split; [exact Hmeta|].
  destruct (fresh_heartbeat_survives_sweep all_accepting 50000000 100000000 7 "c1"
              chat_world _ (λ _ _, eq_refl) Hmeta) as (w1 & w2 & H1 & H2 & H3 & _).
  - unfold stale_threshold. lia.
  - exists w1, w2. split; [exact H1|]. split; [exact H2|exact H3].
Defined.

(** ** The endpoint's [finally] block after a failed [connect] *)

(** X21.  When the socket refuses CONNECTION_SUCCESS, [connect] raises with
    the connection registered, and the [disconnect] of the endpoint's
    [finally] block takes it out again: for a fresh connection id and a
    manager without empty connection entries (the other users' sockets
    accepting what they are sent), connections, heartbeats and the identity
    of the metadata are as they were before [connect]. *)
Theorem close_after_failed_connect_unregisters (tr : Transport) (now now' : Z)
    (fuel : nat) (s : Router.Session) (dev : option (list (string * string)))
    (w : World) :
  accept_ok tr (Router.session_websocket s) = true →
  send_ok tr (Router.session_websocket s)
    (ConnectionSuccess (Router.session_connection_id s) (Router.session_user_id s) now)
    = false →
  no_empty_connection_entry (mgr w) →
  connections_of (mgr w) (Router.session_user_id s) !! Router.session_connection_id s
    = None →
  heartbeats (mgr w) !! Router.session_connection_id s = None →
  connection_meta (mgr w) !! Router.session_connection_id s = None →
  (∀ v c' ws' msg, v ≠ Router.session_user_id s →
     connections_of (mgr w) v !! c' = Some ws' → send_ok tr ws' msg = true) →
  ∃ w1 w2,
    connect tr now fuel (Router.session_websocket s) (Router.session_user_id s)
      (Router.session_connection_id s) dev w = Raised TransportError w1 ∧
    connections_of (mgr w1) (Router.session_user_id s) !! Router.session_connection_id s
      = Some (Router.session_websocket s) ∧
    Router.on_close tr now' (S fuel) s w1 = Ok tt w2 ∧
    connections (mgr w2) = connections (mgr w) ∧
    heartbeats (mgr w2) = heartbeats (mgr w) ∧
    ∀ c, meta_identity <$> connection_meta (mgr w2) !! c =
         meta_identity <$> connection_meta (mgr w) !! c.
Proof.
  destruct s as [ws c u]. cbn [Router.session_websocket Router.session_connection_id
                               Router.session_user_id].
  intros Ha Hs Hinv Hfresh Hhb Hmeta Hok.
  exists (mkWorld (register_connection now ws u c dev (mgr w)) (outbox w)).
  assert (Hconn : connect tr now fuel ws u c dev w =
            Raised TransportError
              (mkWorld (register_connection now ws u c dev (mgr w)) (outbox w))).
  { unfold connect. rewrite Ha. rewrite bind_run. cbn [modify_mgr].
    rewrite bind_run. unfold send_json. cbn [mgr outbox]. by rewrite Hs. }
  rewrite Hconn. clear Hconn.
  set (w1 := mkWorld (register_connection now ws u c dev (mgr w)) (outbox w)).
  set (conns := default ∅ (connections (mgr w) !! u)).
  assert (Hu1 : connections (mgr w1) !! u = Some (<[c := ws]> conns)).
  { subst w1 conns. fields. by rewrite lookup_insert_eq. }
  assert (Hc1 : connections (mgr w1) = <[u := <[c := ws]> conns]> (connections (mgr w))).
  { subst w1 conns. by fields. }
  assert (Hh1 : heartbeats (mgr w1) = <[c := now]> (heartbeats (mgr w))).
  { subst w1. by fields. }
  assert (Hm1 : connection_meta (mgr w1) =
                <[c := mkConnMeta u now (default [] dev) now]> (connection_meta (mgr w))).
  { subst w1. by fields. }
  assert (Hdel : delete c (<[c := ws]> conns) = conns).
  { rewrite delete_insert_eq. apply delete_id. exact Hfresh. }
  assert (Hok1 : ∀ v c' ws' msg, v ≠ u →
            connections_of (mgr w1) v !! c' = Some ws' → send_ok tr ws' msg = true).
  { intros v c' ws' msg Hv Hl. apply (Hok v c' ws' msg Hv).
    unfold connections_of in *. by rewrite Hc1, lookup_insert_ne in Hl. }
  assert (Hreg : connections_of (mgr w1) u !! c = Some ws).
  { unfold connections_of. rewrite Hu1. apply lookup_insert_eq. }
  unfold Router.on_close. cbn [Router.session_websocket Router.session_connection_id
                               Router.session_user_id].
  destruct (connections (mgr w) !! u) as [conns0|] eqn:Hu.
  - assert (conns = conns0) as Hconns by (subst conns; reflexivity).
    assert (conns0 ≠ ∅) by eauto.
    rewrite (disconnect_not_last tr now' fuel c u w1 (<[c := ws]> conns) Hu1).
    2: { rewrite lookup_insert_eq. eauto. }
    2: { rewrite Hdel. congruence. }
    eexists. split; [reflexivity|].
    split; [exact Hreg|].
    split; [reflexivity|]. cbn [mgr]. rewrite forget_connection_fields.
    cbn [connections heartbeats connection_meta with_connections].
    rewrite Hc1, Hh1, Hm1, Hdel, Hconns.
    rewrite insert_insert_eq, (insert_id _ _ _ Hu).
    rewrite !delete_insert_eq, !delete_id by done. done.
  - destruct (disconnect_last_quiet tr now' fuel c u w1 (<[c := ws]> conns) Hu1)
      as (w2 & Hrun & Hc2 & _ & Hh2 & _ & Hm2).
    { rewrite lookup_insert_eq. eauto. }
    { rewrite Hdel. subst conns. reflexivity. }
    { exact Hok1. }
    exists w2. split; [reflexivity|].
    split; [exact Hreg|].
    split; [exact Hrun|].
    rewrite Hc2, Hh2, Hc1, Hh1.
    rewrite !delete_insert_eq, !delete_id by done. split; [done|]. split; [done|].
    intros c'. rewrite Hm2, Hm1. by rewrite delete_insert_eq, delete_id.
Qed.

Lemma close_after_failed_connect_unregisters_witness :
  ∃ w1 w2,
    connect (failing_socket 13) 30 8 13%nat 1 "c3" None chat_world
      = Raised TransportError w1 ∧
    Router.on_close (failing_socket 13) 31 8 (Router.mkSession 13 "c3" 1) w1 = Ok tt w2 ∧
    connections (mgr w2) = connections (mgr chat_world).
Proof.
  assert (Hc : connections (mgr chat_world) =
               <[2 := {["c2" := 12%nat]}]> {[1 := {["c1" := 11%nat]}]}).
  { vm_compute. reflexivity. }
  destruct (close_after_failed_connect_unregisters (failing_socket 13) 30 31 7
              (Router.mkSession 13 "c3" 1) None chat_world)
    as (w1 & w2 & H1 & _ & H2 & H3 & _).
  - reflexivity.
  - reflexivity.
  - apply reachable_no_empty_connection_entry. unfold chat_world.
    do 4 apply reachable_exec. apply reachable_init.
  - vm_compute. reflexivity.
  - vm_compute. reflexivity.
  - vm_compute. reflexivity.
  - intros v c' ws' msg Hv. cbn in Hv. unfold connections_of. rewrite Hc.
    destruct (decide (v = 2)) as [->|Hv2].
    + rewrite lookup_insert_eq. cbn. intros H.
      apply lookup_singleton_Some in H as [_ <-]. reflexivity.
    + rewrite lookup_insert_ne, lookup_singleton_ne by done. cbn.
      by rewrite lookup_empty.
  - exists w1, w2. split; [exact H1|]. split; [exact H2|exact H3].
Defined.

(** ** [ChatConnectionManager]: a send that meets a dead socket *)

Section ChatSend.
Import ChatConnectionManager.
Context (tr : ChatTransport) (now : Z).

Lemma remove_first_not_in ws l : ws ∉ l → remove_first ws l = l.
Proof.
  induction l as [|x l IH]; intros Hnin; cbn; [done|].
  apply not_elem_of_cons in Hnin as [Hne Hnin].
  rewrite decide_False by done. by rewrite IH.
Qed.

Lemma remove_first_app_fresh pre ws l :
  ws ∉ pre → remove_first ws (pre ++ ws :: l) = pre ++ l.
Proof.
  induction pre as [|x pre IH]; intros Hnin; cbn.
  - by rewrite decide_True.
  - apply not_elem_of_cons in Hnin as [Hne Hnin].
    rewrite decide_False by done. by rewrite IH.
Qed.

Lemma remove_first_keeps x ws l : x ∈ l → x ≠ ws → x ∈ remove_first ws l.
Proof.
  induction l as [|y l IH]; intros Hin Hne; cbn; [done|].
  case_decide as Hy.
  - subst y. apply elem_of_cons in Hin as [?|?]; done.
  - apply elem_of_cons in Hin as [->|Hin]; [left|right; auto].
Qed.

Lemma foldl_remove_dead (ok : WebSocket → bool) : ∀ l pre,
  (∀ x, x ∈ pre → ok x = true) →
  foldl (λ acc ws, remove_first ws acc) (pre ++ l) (filter (λ x, ok x = false) l)
  = pre ++ filter (λ x, ok x = true) l.
Proof.
  induction l as [|x l IH]; intros pre Hpre; [done|].
  destruct (ok x) eqn:Hx.
  - rewrite (filter_cons_False (λ x, ok x = false)) by (cbn; congruence).
    rewrite (filter_cons_True (λ x, ok x = true)) by done.
    rewrite (cons_middle x pre l), app_assoc. rewrite IH.
    + by rewrite <- app_assoc.
    + intros y [Hy| ->%list_elem_of_singleton]%elem_of_app; auto.
  - rewrite (filter_cons_True (λ x, ok x = false)) by done.
    rewrite (filter_cons_False (λ x, ok x = true)) by (cbn; congruence).
    cbn [foldl]. rewrite remove_first_app_fresh; [by apply IH|].
    intros Hin. apply Hpre in Hin. congruence.
Qed.

Lemma chat_fold_send msg : ∀ l dead w,
  fold_each
    (λ dead websocket,
       try_except (send_json tr websocket msg ;; mret dead)
                  (λ _, mret (dead ++ [websocket])))
    dead l w =
  Ok (dead ++ filter (λ ws, send_ok (sockets tr) ws msg = false) l)
     (mkChatWorld (chat w)
        (delivered w ++
           ((λ ws, (ws, msg)) <$> filter (λ ws, send_ok (sockets tr) ws msg = true) l))
        (published w)).
Proof.
  induction l as [|x l IH]; intros dead w.
  - cbn. rewrite !app_nil_r. by destruct w.
  - cbn [fold_each]. rewrite bind_run. unfold try_except at 1.
    rewrite bind_run. unfold send_json at 1.
    destruct (send_ok (sockets tr) x msg) eqn:Hx.
    + cbn [mret Coroutine_ret]. rewrite IH. cbn [chat delivered published].
      rewrite (filter_cons_False (λ ws, send_ok (sockets tr) ws msg = false))
        by (cbn; congruence).
      rewrite (filter_cons_True (λ ws, send_ok (sockets tr) ws msg = true)) by done.
      cbn [fmap list_fmap]. by rewrite <- app_assoc.
    + cbn [mret Coroutine_ret]. rewrite IH.
      rewrite (filter_cons_True (λ ws, send_ok (sockets tr) ws msg = false)) by done.
      rewrite (filter_cons_False (λ ws, send_ok (sockets tr) ws msg = true))
        by (cbn; congruence).
      by rewrite <- app_assoc.
Qed.

Lemma chat_disconnect_dead fuel u (alive : WebSocket) : ∀ dead w cur,
  active_connections (chat w) !! u = Some cur →
  alive ∈ cur →
  (∀ ws, ws ∈ dead → ws ≠ alive) →
  ∃ w', for_each (λ ws, disconnect tr now (S fuel) ws u) dead w = Ok tt w' ∧
        active_connections (chat w') !! u =
          Some (foldl (λ acc ws, remove_first ws acc) cur dead) ∧
        delivered w' = delivered w ∧
        (dead ≠ [] →
         ∀ R, room_members (chat w') !! R = room_members (chat w) !! R ≫= drop_member u).
Proof.
  induction dead as [|ws dead IH]; intros w cur Hcur Halive Hdead.
  - exists w. by repeat split.
  - cbn [for_each foldl]. rewrite bind_run.
    assert (Hne : ws ≠ alive) by (apply Hdead; left).
    assert (Hkeep : alive ∈ remove_first ws cur) by by apply remove_first_keeps.
    assert (Hstep : ∃ w1, disconnect tr now (S fuel) ws u w = Ok tt w1 ∧
              active_connections (chat w1) !! u = Some (remove_first ws cur) ∧
              delivered w1 = delivered w ∧
              ∀ R, room_members (chat w1) !! R =
                   room_members (chat w) !! R ≫= drop_member u).
    { cbn [disconnect]. unfold disconnect_body, drop_socket.
      rewrite bind_run, bind_run. cbn [get_chat]. rewrite Hcur. cbv zeta.
      assert ((if decide (ws ∈ cur) then remove_first ws cur else cur)
              = remove_first ws cur) as ->.
      { case_decide; [done|]. by rewrite remove_first_not_in. }
      rewrite decide_False; [|intros Hnil; rewrite Hnil in Hkeep; by apply elem_of_nil in Hkeep].
      cbn [modify_chat]. eexists. split; [reflexivity|].
      cbn [chat delivered].
      destruct (leave_all_rooms_frame u
                  (with_active_connections <[u := remove_first ws cur]> (chat w)))
        as (Hc & _).
      rewrite Hc, leave_all_rooms_members. cbn.
      rewrite lookup_insert_eq. split; [done|]. split; [done|].
      intros R. by rewrite lookup_omap. }
    destruct Hstep as (w1 & -> & Hcur1 & Hdel1 & Hrooms1).
    destruct (IH w1 (remove_first ws cur) Hcur1 Hkeep) as (w' & Hrun & Hcur' & Hdel' & Hrooms').
    { intros ws' Hin. apply Hdead. by right. }
    exists w'. split; [exact Hrun|]. split; [exact Hcur'|].
    split; [by rewrite Hdel'|]. intros _ R.
    destruct dead as [|ws2 dead'].
    + change (Ok tt w1 = Ok tt w') in Hrun. simplify_eq. apply Hrooms1.
    + rewrite Hrooms' by done. rewrite Hrooms1.
      destruct (room_members (chat w) !! R) as [s|]; cbn; [|done].
      destruct (drop_member u s) as [s'|] eqn:Hd; cbn; [|done].
      apply drop_member_absent. by apply drop_member_not_in in Hd.
Qed.

Lemma chat_send_drops_dead_sockets fuel msg u w l (dead alive : WebSocket) :
  active_connections (chat w) !! u = Some l →
  dead ∈ l →
  send_ok (sockets tr) dead msg = false →
  alive ∈ l →
  send_ok (sockets tr) alive msg = true →
  ∃ w', send_personal_message tr now (S fuel) msg u w = Ok tt w' ∧
        active_connections (chat w') !! u =
          Some (filter (λ ws, send_ok (sockets tr) ws msg = true) l) ∧
        (∀ R, room_members (chat w') !! R = room_members (chat w) !! R ≫= drop_member u) ∧
        delivered w' =
          delivered w ++
            ((λ ws, (ws, msg)) <$> filter (λ ws, send_ok (sockets tr) ws msg = true) l).
Proof.
  intros Hl Hdead Hrefuse Halive Haccept.
  unfold send_personal_message, send_personal_message_open.
  rewrite bind_run. cbn [get_chat]. rewrite Hl.
  rewrite bind_run, chat_fold_send. cbn [app].
  set (w1 := mkChatWorld _ _ _).
  destruct (chat_disconnect_dead fuel u alive
              (filter (λ ws, send_ok (sockets tr) ws msg = false) l) w1 l)
    as (w' & Hrun & Hcur & Hdel & Hrooms).
  { subst w1. exact Hl. }
  { exact Halive. }
  { intros ws [Hws _]%list_elem_of_filter ->. congruence. }
  exists w'. split; [exact Hrun|].
  pose proof (foldl_remove_dead (λ ws, send_ok (sockets tr) ws msg) l []
                ltac:(intros x Hx; by apply elem_of_nil in Hx)) as Hfold.
  cbn [app] in Hfold. rewrite Hfold in Hcur.
  split; [exact Hcur|]. split.
  - apply Hrooms. intros Hnil.
    assert (dead ∈ filter (λ ws, send_ok (sockets tr) ws msg = false) l)
      as Hin by by apply list_elem_of_filter.
    rewrite Hnil in Hin. by apply elem_of_nil in Hin.
  - rewrite Hdel. subst w1. reflexivity.
Qed.
End ChatSend.

(** X22.  On [ChatConnectionManager], a personal message that one socket of
    the user refuses while another accepts: the call returns, each
    accepting socket has received the frame once (in list order), the
    refusing sockets are dropped from the user's list, the user stays
    online, and the user is no longer a member of any room. *)
Theorem chat_failed_send_unsubscribes (tr : ChatConnectionManager.ChatTransport)
    (now : Z) (fuel : nat) (msg : ChatConnectionManager.ChatMessage) (u : Z)
    (w : ChatConnectionManager.ChatWorld) (l : list WebSocket) (dead alive : WebSocket) :
  ChatConnectionManager.active_connections (ChatConnectionManager.chat w) !! u = Some l →
  dead ∈ l →
  send_ok (ChatConnectionManager.sockets tr) dead msg = false →
  alive ∈ l →
  send_ok (ChatConnectionManager.sockets tr) alive msg = true →
  ∃ w', ChatConnectionManager.send_personal_message tr now (S fuel) msg u w = Ok tt w' ∧
        ChatConnectionManager.active_connections (ChatConnectionManager.chat w') !! u =
          Some (filter (λ ws, send_ok (ChatConnectionManager.sockets tr) ws msg = true) l) ∧
        ChatConnectionManager.is_user_online (ChatConnectionManager.chat w') u = true ∧
        (∀ R, u ∉ default ∅ (ChatConnectionManager.room_members
                               (ChatConnectionManager.chat w') !! R)) ∧
        ChatConnectionManager.delivered w' =
          ChatConnectionManager.delivered w ++
            ((λ ws, (ws, msg)) <$>
               filter (λ ws, send_ok (ChatConnectionManager.sockets tr) ws msg = true) l).
Proof.
  intros Hl Hdead Hrefuse Halive Haccept.
  destruct (chat_send_drops_dead_sockets tr now fuel msg u w l dead alive
              Hl Hdead Hrefuse Halive Haccept) as (w' & Hrun & Hcur & Hrooms & Hdel).
  exists w'. split; [exact Hrun|]. split; [exact Hcur|]. split; [|split; [|exact Hdel]].
  - unfold ChatConnectionManager.is_user_online. rewrite Hcur.
    apply bool_decide_eq_true. eauto.
  - intros R. rewrite Hrooms.
    destruct (ChatConnectionManager.room_members _ !! R) as [s|]; cbn; [|set_solver].
    destruct (drop_member u s) as [s'|] eqn:Hd; cbn; [|set_solver].
    by apply drop_member_not_in in Hd.
Qed.

Lemma chat_failed_send_unsubscribes_witness :
  ∃ w', ChatConnectionManager.send_personal_message
          (ChatConnectionManager.mkChatTransport
             (mkTransport (λ _, true) (λ ws _, negb (Nat.eqb ws 13))) true)
          20 8 (ChatConnectionManager.ChatPayload "hi") 1
          (after (ChatConnectionManager.connect chat_all_accepting 9 8 13%nat 1)
                 chat_trio_world) = Ok tt w' ∧
        ChatConnectionManager.active_connections (ChatConnectionManager.chat w') !! 1
          = Some [11%nat] ∧
        1 ∉ default ∅ (ChatConnectionManager.room_members
                         (ChatConnectionManager.chat w') !! 5).
Proof.
  destruct (chat_failed_send_unsubscribes
              (ChatConnectionManager.mkChatTransport
                 (mkTransport (λ _, true) (λ ws _, negb (Nat.eqb ws 13))) true)
              20 7 (ChatConnectionManager.ChatPayload "hi") 1
              (after (ChatConnectionManager.connect chat_all_accepting 9 8 13%nat 1)
                     chat_trio_world) [11%nat; 13%nat] 13%nat 11%nat)
    as (w' & Hrun & Hcur & _ & Hrooms & _).
  - vm_compute. reflexivity.
  - set_solver.
  - reflexivity.
  - set_solver.
  - reflexivity.
  - exists w'. split; [exact Hrun|]. split; [exact Hcur|exact (Hrooms 5)].
Defined.

(** ** [ChatConnectionManager]: a room broadcast that meets a dead socket *)

Section ChatDeadSocket.
Import ChatConnectionManager.
Context (tr : ChatTransport) (now : Z).

Lemma chat_send_quiet fuel msg v w :
  (∀ ws, ws ∈ default [] (active_connections (chat w) !! v) →
         send_ok (sockets tr) ws msg = true) →
  send_personal_message tr now fuel msg v w =
    Ok tt (mkChatWorld (chat w)
             (delivered w ++
                ((λ ws, (ws, msg)) <$> default [] (active_connections (chat w) !! v)))
             (published w)).
Proof.
  intros Hok. unfold send_personal_message, send_personal_message_open.
  rewrite bind_run. cbn [get_chat].
  destruct (active_connections (chat w) !! v) as [l|]; cbn in Hok.
  - rewrite bind_run, chat_fold_send. rewrite filter_none.
    + rewrite filter_all; [done|]. intros ws Hws. by apply Hok.
    + intros ws Hws. rewrite (Hok ws Hws). done.
  - cbn. rewrite app_nil_r. by destruct w.
Qed.

Lemma chat_broadcast_prefix_quiet fuel conv msg excl n rest : ∀ pre w,
  (∀ v, v ∈ pre → excluded excl v = false →
        ∀ ws, ws ∈ default [] (active_connections (chat w) !! v) →
              send_ok (sockets tr) ws msg = true) →
  size (default ∅ (room_members (chat w) !! conv)) = n →
  for_live
    (λ w', bool_decide (size (default ∅ (room_members (chat w') !! conv)) = n))
    (λ user_id,
       if excluded excl user_id then mret tt
       else send_personal_message_open tr (disconnect tr now fuel) msg user_id)
    (pre ++ rest) w =
  for_live
    (λ w', bool_decide (size (default ∅ (room_members (chat w') !! conv)) = n))
    (λ user_id,
       if excluded excl user_id then mret tt
       else send_personal_message_open tr (disconnect tr now fuel) msg user_id)
    rest
    (mkChatWorld (chat w)
       (delivered w ++
          (pre ≫= λ v, if excluded excl v then []
                       else (λ ws, (ws, msg)) <$>
                              default [] (active_connections (chat w) !! v)))
       (published w)).
Proof.
  induction pre as [|v pre IH]; intros w Hok Hn.
  - cbn. rewrite app_nil_r. by destruct w.
  - cbn [app for_live]. rewrite bool_decide_eq_true_2 by done. rewrite bind_run.
    cbn [mbind list_bind].
    destruct (excluded excl v) eqn:Hex.
    + cbn [mret Coroutine_ret app]. apply IH; auto. intros v' Hv'. apply Hok. by right.
    + pose proof (chat_send_quiet fuel msg v w) as Hrun.
      unfold send_personal_message in Hrun. rewrite Hrun; [|apply Hok; [left|done]].
      rewrite IH; auto.
      * cbn [chat delivered published]. by rewrite app_assoc.
      * intros v' Hv'. apply Hok. by right.
Qed.
End ChatDeadSocket.

(** X23.  On [ChatConnectionManager], one dead socket of a member who has
    another, live socket aborts a room broadcast: the member's dead socket
    is dropped, [disconnect] takes the member out of every room, the set the
    broadcast is walking included, and [broadcast_to_room] raises
    [RuntimeError].  The member stays online.  The frames delivered by the
    call are exactly: the frame on every socket of the members walked before
    that member (those skipped by the guard apart), then the frame on the
    member's accepting sockets; the members later in the walk get no frame,
    and nothing is published.  (The sockets of the other users are taken to
    accept the frame.) *)
Theorem chat_broadcast_aborts_on_dead_socket
    (tr : ChatConnectionManager.ChatTransport) (now : Z) (fuel : nat) (conv : Z)
    (msg : ChatConnectionManager.ChatMessage) (excl : option Z)
    (w : ChatConnectionManager.ChatWorld) (members : gset Z) (u : Z)
    (l : list WebSocket) (dead alive : WebSocket) :
  ChatConnectionManager.room_members (ChatConnectionManager.chat w) !! conv
    = Some members →
  u ∈ members →
  ChatConnectionManager.excluded excl u = false →
  ChatConnectionManager.active_connections (ChatConnectionManager.chat w) !! u = Some l →
  dead ∈ l →
  send_ok (ChatConnectionManager.sockets tr) dead msg = false →
  alive ∈ l →
  send_ok (ChatConnectionManager.sockets tr) alive msg = true →
  (∀ v ws, v ≠ u →
     ws ∈ default [] (ChatConnectionManager.active_connections
                        (ChatConnectionManager.chat w) !! v) →
     send_ok (ChatConnectionManager.sockets tr) ws msg = true) →
  ∃ w' pre post,
    elements members = pre ++ u :: post ∧
    ChatConnectionManager.broadcast_to_room tr now (S fuel) conv msg excl w
      = Raised RuntimeError w' ∧
    ChatConnectionManager.delivered w' =
      ChatConnectionManager.delivered w ++
        (pre ≫= λ v,
           if ChatConnectionManager.excluded excl v then []
           else (λ ws, (ws, msg)) <$>
                  default [] (ChatConnectionManager.active_connections
                                (ChatConnectionManager.chat w) !! v)) ++
        ((λ ws, (ws, msg)) <$>
           filter (λ ws, send_ok (ChatConnectionManager.sockets tr) ws msg = true) l) ∧
    ChatConnectionManager.published w' = ChatConnectionManager.published w ∧
    ChatConnectionManager.is_user_online (ChatConnectionManager.chat w') u = true ∧
    ∀ R, u ∉ default ∅ (ChatConnectionManager.room_members
                          (ChatConnectionManager.chat w') !! R).
Proof.
  intros Hr Hu Hex Hl Hdead Hrefuse Halive Haccept Hok.
  unfold ChatConnectionManager.broadcast_to_room,
    ChatConnectionManager.broadcast_to_room_open.
  rewrite bind_run. cbn [ChatConnectionManager.get_chat]. rewrite Hr.
  assert (Hin : u ∈ elements members) by by apply elem_of_elements.
  apply list_elem_of_split in Hin as (pre & post & Hsplit).
  pose proof (NoDup_elements members) as Hnd. rewrite Hsplit in Hnd.
  apply NoDup_app in Hnd as (_ & Hpre & _).
  rewrite Hsplit.
  rewrite (chat_broadcast_prefix_quiet tr now (S fuel) conv msg excl (size members)
             (u :: post) pre w).
  2: { intros v Hv _ ws. apply Hok. intros ->. apply (Hpre u Hv). left. }
  2: { by rewrite Hr. }
  remember (ChatConnectionManager.mkChatWorld _ _ _) as w1 eqn:Hw1.
  assert (Hchat1 : ChatConnectionManager.chat w1 = ChatConnectionManager.chat w)
    by by subst w1.
  cbn [for_live].
  rewrite bool_decide_eq_true_2; [|by rewrite Hchat1, Hr].
  rewrite bind_run, Hex.
  destruct (chat_send_drops_dead_sockets tr now fuel msg u w1 l dead alive)
    as (w2 & Hrun & Hcur & Hrooms & Hdel); auto.
  { by rewrite Hchat1. }
  unfold ChatConnectionManager.send_personal_message in Hrun. rewrite Hrun.
  assert (Hpub : ChatConnectionManager.published w2 = ChatConnectionManager.published w).
  { pose proof (chat_send_personal_message_preserves tr now
                  (λ x, ChatConnectionManager.published x
                        = ChatConnectionManager.published w)) as Hp.
    apply (final_world_preserved
             (λ x, ChatConnectionManager.published x = ChatConnectionManager.published w)
             (ChatConnectionManager.send_personal_message tr now (S fuel) msg u) w1 w2).
    - apply Hp; try done.
    - by subst w1.
    - unfold ChatConnectionManager.send_personal_message. by rewrite Hrun. }
  assert (Hroom : ChatConnectionManager.room_members (ChatConnectionManager.chat w2) !! conv
                  = drop_member u members).
  { rewrite Hrooms, Hchat1. by rewrite Hr. }
  assert (Hchanged :
    bool_decide (size (default ∅ (ChatConnectionManager.room_members
                                    (ChatConnectionManager.chat w2) !! conv))
                 = size members) = false).
  { apply bool_decide_eq_false. rewrite Hroom. unfold drop_member.
    rewrite decide_True by done.
    assert (size members ≠ 0)%nat.
    { intros H0. apply size_empty_iff in H0. set_solver. }
    case_decide; cbn [default from_option id].
    - rewrite size_empty. lia.
    - rewrite size_difference by set_solver. rewrite size_singleton. lia. }
  exists w2, pre, post. split; [done|]. split; [|split; [|split; [|split]]].
  - destruct post; cbn [for_live]; by rewrite Hchanged.
  - rewrite Hdel. subst w1. cbn [ChatConnectionManager.delivered].
    by rewrite <- app_assoc.
  - exact Hpub.
  - unfold ChatConnectionManager.is_user_online. rewrite Hcur.
    apply bool_decide_eq_true. eauto.
  - intros R. rewrite Hrooms.
    destruct (ChatConnectionManager.room_members _ !! R) as [s|]; cbn; [|set_solver].
    destruct (drop_member u s) as [s'|] eqn:Hd; cbn; [|set_solver].
    by apply drop_member_not_in in Hd.
Qed.

Lemma chat_broadcast_aborts_on_dead_socket_witness :
  ∃ w', ChatConnectionManager.broadcast_to_room
          (ChatConnectionManager.mkChatTransport
             (mkTransport (λ _, true) (λ ws _, negb (Nat.eqb ws 13))) true)
          20 8 5 (ChatConnectionManager.ChatPayload "hi") None
          (after (ChatConnectionManager.connect chat_all_accepting 9 8 13%nat 1)
                 chat_trio_world) = Raised RuntimeError w' ∧
        ChatConnectionManager.is_user_online (ChatConnectionManager.chat w') 1 = true.
Proof.
  set (W := after (ChatConnectionManager.connect chat_all_accepting 9 8 13%nat 1)
                  chat_trio_world).
  assert (Hc : ChatConnectionManager.active_connections (ChatConnectionManager.chat W) =
               <[0 := [10%nat]]> (<[1 := [11%nat; 13%nat]]> {[2 := [12%nat]]})).
  { vm_compute. reflexivity. }
  destruct (chat_broadcast_aborts_on_dead_socket
              (ChatConnectionManager.mkChatTransport
                 (mkTransport (λ _, true) (λ ws _, negb (Nat.eqb ws 13))) true)
              20 7 5 (ChatConnectionManager.ChatPayload "hi") None W {[0; 1; 2]} 1
              [11%nat; 13%nat] 13%nat 11%nat)
    as (w' & pre & post & _ & Hrun & _ & _ & Hon & _).
  - vm_compute. reflexivity.
  - clear. set_solver.
  - reflexivity.
  - vm_compute. reflexivity.
  - right. left.
  - reflexivity.
  - left.
  - reflexivity.
  - intros v ws Hv. rewrite Hc.
    destruct (decide (v = 0)) as [->|H0].
    + rewrite lookup_insert_eq. cbn. intros ->%list_elem_of_singleton. reflexivity.
    + rewrite lookup_insert_ne, lookup_insert_ne by done.
      destruct (decide (v = 2)) as [->|H2].
      * rewrite lookup_singleton_eq. cbn. intros ->%list_elem_of_singleton. reflexivity.
      * rewrite lookup_singleton_ne by done. cbn. intros Hin. by apply elem_of_nil in Hin.
  - exists w'. split; [exact Hrun|exact Hon].
Defined.
